(** * Gold e-commerce backend: the pricing engine and its HTTP handlers

    A shallow embedding of the two Express servers of the repository
    (the first, short [server.js] and the second, complete one with the
    [GoldPriceCalculator] class) and the properties of the price
    recalculation that the specification states about them, followed by
    properties of the other handlers, of the default data and of the
    connection retry that the code itself shows.

    JavaScript numbers are IEEE 754 binary64 values; they are modelled by
    Rocq's primitive floats, whose operations are the same binary64
    operations with round-to-nearest-even.  The MySQL store is modelled as
    three lists of rows, in storage order, that keep every value they are
    handed.  MySQL keeps a value that its column holds; which values these
    are is said by the predicates at the end of [Sql], and the theorems on
    what a request stores assume them of the values it writes, since the
    store of the model neither rounds nor refuses a value.  A statement is
    refused in the model in one case only, a parameter that is
    [undefined], which the driver does not bind.  The DECIMAL columns are
    read as the numbers that the arithmetic of the handlers makes of them;
    the driver hands them over as strings, which shows where [||] tests
    one.  The storage order stands for the timestamps
    ([ORDER BY updated_at DESC] is the list reversed), and an
    [AUTO_INCREMENT] id is the least one above the ids of the table.  A
    request body carries [price_per_gram] as a JSON number or [null], or
    not at all; the other bodies are described where they are declared. *)

From Stdlib Require Import ZArith List Bool Lia String Ascii.
From Stdlib Require Import Floats DecimalString.
From Stdlib Require Import Reals Lra.
Import ListNotations.

#[local] Set Warnings "-inexact-float".
#[local] Open Scope Z_scope.

(** ** JavaScript values and numbers *)

Module JS.

(** The values the modelled code meets: a field that is absent
    ([undefined]), [null], a number, or an object (function objects
    included).  Strings only occur as keys and labels and are kept apart
    as [string]. *)
Inductive value :=
| Undefined
| Null
| Num (x : float)
| Obj.

(** [ToNumber]: an ordinary object or a function converts through its
    string form, which is no numeric literal. *)
Definition ToNumber (v : value) : float :=
  match v with
  | Undefined => nan
  | Null => 0%float
  | Num x => x
  | Obj => nan
  end.

(** [ToBoolean]: [undefined], [null], [0], [-0] and [NaN] are falsy. *)
Definition ToBoolean (v : value) : bool :=
  match v with
  | Undefined | Null => false
  | Num x => negb (is_zero x || is_nan x)
  | Obj => true
  end.

(** [a || b] of JavaScript, on values. *)
Definition or_else (a b : value) : value :=
  if ToBoolean a then a else b.

(** The global [isNaN]. *)
Definition isNaN (v : value) : bool := is_nan (ToNumber v).

(** The global [parseFloat], which parses the string form of its argument:
    a number comes back as itself, except that [-0] prints as ["0"];
    ["undefined"], ["null"] and the string form of an object start with
    no numeric literal. *)
Definition parseFloat (v : value) : float :=
  match v with
  | Num x => if is_zero x then 0%float else x
  | _ => nan
  end.

(** The float of an integer of magnitude at most 2^53 (exact). *)
Definition of_Z (n : Z) : float :=
  let a := of_uint63 (Uint63.of_Z (Z.abs n)) in
  if n <? 0 then (- a)%float else a.

(** [Math.round]: the integer closest to [x], a tie going towards
    +infinity; NaN, the infinities and the zeros are returned unchanged, and
    a negative [x] that rounds to zero gives [-0].  A finite nonzero [x] is
    [(-1)^s * m * 2^e]; for [e >= 0] it is an integer already, otherwise
    the result is the floor of [x + 1/2], computed exactly. *)
Definition Math_round (x : float) : float :=
  match Prim2SF x with
  | S754_finite s m e =>
      if 0 <=? e then x
      else
        let d := 2 ^ (- e) in
        let n := (2 * (if s then Z.neg m else Z.pos m) + d) / (2 * d) in
        if n =? 0 then (if s then neg_zero else zero) else of_Z n
  | _ => x
  end.

(** The decimal digits of a natural number. *)
Definition digits (n : Z) : string :=
  NilEmpty.string_of_uint (N.to_uint (Z.to_N n)).

Fixpoint zeros (k : nat) : string :=
  match k with
  | O => EmptyString
  | S k' => String "0"%char (zeros k')
  end.

(** [s.substring(0, k)] and [s.substring(k)]. *)
Fixpoint take (k : nat) (s : string) : string :=
  match k, s with
  | S k', String c s' => String c (take k' s')
  | _, _ => EmptyString
  end.

Fixpoint drop (k : nat) (s : string) : string :=
  match k, s with
  | S k', String _ s' => drop k' s'
  | _, _ => s
  end.

(** The number an integer reads as: the binary64 value nearest to it. *)
Definition read_back (n : Z) : float :=
  SF2Prim (binary_normalize prec emax n 0 false).

(** [n / p] rounded to the nearest integer, a tie going to the even one. *)
Definition div_nearest_even (n p : Z) : Z :=
  let q := n / p in
  match (2 * (n mod p)) ?= p with
  | Lt => q
  | Gt => q + 1
  | Eq => if Z.even q then q else q + 1
  end.

Fixpoint strip_zeros (s : string) : string :=
  match s with
  | EmptyString => EmptyString
  | String c s' =>
      match strip_zeros s' with
      | EmptyString => if Ascii.eqb c "0" then EmptyString else String c EmptyString
      | t => String c t
      end
  end.

(** [Number::toString] of a finite [x >= 10^21], whose value is the integer
    [N]: the fewest digits [k] such that some [s * 10^(n-k)] reads back as
    [x] (17 always do), written [d.ddd...e+(n-1)]. *)
Definition toString_large (x : float) (N : Z) : string :=
  let nd := Z.of_nat (String.length (digits N)) in
  let rounded k := let p := 10 ^ (nd - Z.of_nat k) in div_nearest_even N p * p in
  let v :=
    match find (fun k => Leibniz.eqb (read_back (rounded k)) x) (seq 1 17) with
    | Some k => rounded k
    | None => N
    end in
  let n := Z.of_nat (String.length (digits v)) in
  let s := strip_zeros (digits v) in
  (take 1 s ++ (if (String.length s <=? 1)%nat then EmptyString else "." ++ drop 1 s)
     ++ "e+" ++ digits (n - 1))%string.

(** The digits of [n] with a decimal point before the last [f] of them. *)
Definition fixed_digits (f : nat) (n : Z) : string :=
  let m := digits n in
  match f with
  | O => m
  | _ =>
      let k := String.length m in
      let m := if (k <=? f)%nat then (zeros (f + 1 - k) ++ m)%string else m in
      let k := if (k <=? f)%nat then (f + 1)%nat else k in
      (take (k - f) m ++ "." ++ drop (k - f) m)%string
  end.

(** [Number.prototype.toFixed(f)]: a number that is not finite prints by
    name; otherwise the sign, then either the exponent form (from 10^21 on)
    or the integer [n] closest to [|x| * 10^f] (the larger one on a tie)
    with the point inserted.  [-0] prints without a sign. *)
Definition toFixed (f : nat) (x : float) : string :=
  match Prim2SF x with
  | S754_nan => "NaN"%string
  | S754_infinity s => if s then "-Infinity"%string else "Infinity"%string
  | S754_zero _ => fixed_digits f 0
  | S754_finite s m e =>
      let num := if 0 <=? e then Z.pos m * 2 ^ e else Z.pos m in
      let den := if 0 <=? e then 1 else 2 ^ (- e) in
      let sign := if s then "-"%string else EmptyString in
      if 10 ^ 21 * den <=? num
      then (sign ++ toString_large (abs x) num)%string
      else (sign ++ fixed_digits f ((2 * num * 10 ^ Z.of_nat f + den) / (2 * den)))%string
  end.

(** A field of a request body that holds a number, or is [null] or absent
    ([None]). *)
Definition field (x : option float) : value :=
  match x with
  | Some a => Num a
  | None => Null
  end.

(** [ToBoolean] of a text field: the empty string is falsy, as is a field
    that is [null] or absent ([None]). *)
Definition nonempty (s : option string) : bool :=
  match s with
  | Some (String _ _) => true
  | _ => false
  end.

(** [a || b] for a numeric field and a number, and for a text field and a
    string. *)
Definition or_number (a : option float) (b : float) : float :=
  ToNumber (or_else (field a) (Num b)).

Definition or_text (a : option string) (b : string) : string :=
  match a with
  | Some (String c s) => String c s
  | _ => b
  end.

(** The string that a text field holds, where the field is used after its
    check. *)
Definition text (a : option string) : string :=
  match a with
  | Some s => s
  | None => EmptyString
  end.

(** A field of a request body where the code tells the three apart: left
    out of the body ([undefined]), [null], or given. *)
Inductive given (A : Type) :=
| Absent
| IsNull
| Given (a : A).
Arguments Absent {A}.
Arguments IsNull {A}.
Arguments Given {A} a.

(** What [||] and [COALESCE] see of such a field: its value, if it has
    one. *)
Definition known {A : Type} (x : given A) : option A :=
  match x with
  | Given a => Some a
  | _ => None
  end.

(** Whether the field can be bound to a placeholder of a statement:
    [execute] throws for [undefined] ('Bind parameters must not contain
    undefined. To pass SQL NULL specify JS null'). *)
Definition bindable {A : Type} (x : given A) : bool :=
  match x with
  | Absent => false
  | _ => true
  end.

(** *** [parseFloat] on a string

    A string is held as the bytes of its UTF-8 form. *)

(** The string without the white space and the line terminators it
    starts with: TAB, LF, VT, FF, CR and the space; U+00A0; U+1680, U+2000
    to U+200A, U+2028, U+2029, U+202F, U+205F, U+3000 and U+FEFF. *)
Fixpoint trim_start (s : string) : string :=
  match s with
  | String c1 s1 =>
      let b1 := nat_of_ascii c1 in
      if ((9 <=? b1) && (b1 <=? 13) || (b1 =? 32))%nat then trim_start s1
      else
        match s1 with
        | String c2 s2 =>
            let b2 := nat_of_ascii c2 in
            if ((b1 =? 194) && (b2 =? 160))%nat then trim_start s2
            else
              match s2 with
              | String c3 s3 =>
                  let b3 := nat_of_ascii c3 in
                  if ((b1 =? 225) && (b2 =? 154) && (b3 =? 128)
                      || (b1 =? 226) && (b2 =? 128)
                         && ((128 <=? b3) && (b3 <=? 138)
                             || (b3 =? 168) || (b3 =? 169) || (b3 =? 175))
                      || (b1 =? 226) && (b2 =? 129) && (b3 =? 159)
                      || (b1 =? 227) && (b2 =? 128) && (b3 =? 128)
                      || (b1 =? 239) && (b2 =? 187) && (b3 =? 191))%nat
                  then trim_start s3
                  else s
              | EmptyString => s
              end
        | EmptyString => s
        end
  | EmptyString => s
  end.

Definition digit (c : ascii) : option Z :=
  let b := Z.of_nat (nat_of_ascii c) in
  if (48 <=? b) && (b <=? 57) then Some (b - 48) else None.

(** The decimal digits a string starts with, read on to the number [acc]:
    the number read, how many digits it took, and the rest. *)
Fixpoint read_digits (s : string) (acc count : Z) : Z * Z * string :=
  match s with
  | String c s' =>
      match digit c with
      | Some k => read_digits s' (10 * acc + k) (count + 1)
      | None => (acc, count, s)
      end
  | EmptyString => (acc, count, s)
  end.

(** A sign, if the string starts with one, and the rest. *)
Definition read_sign (s : string) : bool * string :=
  match s with
  | String "-" s' => (true, s')
  | String "+" s' => (false, s')
  | _ => (false, s)
  end.

(** The binary64 value nearest to [m * 10^e], for a natural number [m],
    a tie going to the even one; with the sign [neg].  (The language lets
    an implementation round after the twentieth significant digit; the
    engines round the exact value, as is done here.) *)
Definition decimal (neg : bool) (m e : Z) : float :=
  if m =? 0 then (if neg then neg_zero else zero)
  else if 0 <=? e
  then SF2Prim (binary_normalize prec emax (cond_Zopp neg (m * 10 ^ e)) 0 false)
  else
    let '(q, e', l) := SFdiv_core_binary prec emax m 0 (10 ^ (- e)) 0 in
    SF2Prim (binary_round_aux prec emax neg q e' l).

(** The exponent part a string starts with, 0 when it starts with none:
    [e] or [E], an optional sign, and at least one digit. *)
Definition read_exponent (s : string) : Z :=
  match s with
  | String c s' =>
      if Ascii.eqb c "e" || Ascii.eqb c "E"
      then
        let (neg, s'') := read_sign s' in
        let '(x, count, _) := read_digits s'' 0 0 in
        if 0 <? count then (if neg then - x else x) else 0
      else 0
  | EmptyString => 0
  end.

(** [parseFloat] of a string: the value of the longest prefix of the
    trimmed string that is a decimal literal, NaN when there is none. *)
Definition parseFloat_string (input : string) : float :=
  let (neg, s) := read_sign (trim_start input) in
  if String.prefix "Infinity" s then (if neg then neg_infinity else infinity)
  else
    let '(m1, count1, s1) := read_digits s 0 0 in
    let '(m, count2, s2) :=
      match s1 with
      | String "." s' => read_digits s' m1 0
      | _ => (m1, 0, s1)
      end in
    if (0 <? count1) || (0 <? count2)
    then decimal neg m (read_exponent s2 - count2)
    else nan.

End JS.

(** ** Objects used as lookup tables *)

Module Table.

(** The properties every object literal inherits from [Object.prototype]:
    eleven functions and the [__proto__] accessor, which yields the
    prototype object itself. *)
Definition Object_prototype : list string :=
  [ "constructor"; "__defineGetter__"; "__defineSetter__"; "hasOwnProperty";
    "__lookupGetter__"; "__lookupSetter__"; "isPrototypeOf";
    "propertyIsEnumerable"; "toString"; "valueOf"; "__proto__";
    "toLocaleString" ]%string.

Definition inherited (key : string) : bool :=
  existsb (String.eqb key) Object_prototype.

(** An object literal whose own properties are numbers. *)
Definition t := list (string * float).

Fixpoint own (o : t) (key : string) : option float :=
  match o with
  | [] => None
  | (k, x) :: o' => if String.eqb k key then Some x else own o' key
  end.

(** [o[key]]: the own property, else the inherited one, else [undefined]. *)
Definition get (o : t) (key : string) : JS.value :=
  match own o key with
  | Some x => JS.Num x
  | None => if inherited key then JS.Obj else JS.Undefined
  end.

End Table.

(** ** The store *)

(** What [calculatePrice] reads of a product. *)
Record attrs := {
  weight : float;
  carat : string;
  making_charges : float;
  profit_margin : float
}.

(** A row of [products]; the timestamps and [images] are left out. *)
Record product := {
  id : Z;
  name : string;
  description : string;
  pricing :> attrs;
  selling_price : float;
  category : string;
  stock_quantity : Z;
  is_active : bool
}.

(** A row of [gold_prices] and a row of [price_history], without their
    auto-increment ids and timestamps: the position in the list stands for
    both. *)
Record gold_price := {
  price_per_gram : float;
  gold_carat : string
}.

Record history := {
  product_id : Z;
  old_price : float;
  new_price : float;
  gold_price_per_gram : float
}.

Record db := {
  gold_prices : list gold_price;
  products : list product;
  price_history : list history
}.

(** The handlers run their statements one after the other on the shared
    connection: a state monad over the store. *)
Definition M (A : Type) : Type := db -> A * db.

Definition ret {A} (a : A) : M A := fun d => (a, d).

Definition bind {A B} (m : M A) (k : A -> M B) : M B :=
  fun d => let (a, d') := m d in k a d'.

Notation "x <- m ;; k" := (bind m (fun x => k))
  (at level 61, m at next level, right associativity).
Notation "m ;;; k" := (bind m (fun _ => k))
  (at level 61, right associativity).

Module Sql.

(** [INSERT INTO gold_prices (price_per_gram, carat) VALUES (?, ?)] *)
Definition insert_gold_price (p : float) (c : string) : M unit :=
  fun d => (tt, {| gold_prices := gold_prices d ++ [{| price_per_gram := p; gold_carat := c |}];
                   products := products d;
                   price_history := price_history d |}).

(** [SELECT * FROM products WHERE is_active = TRUE] *)
Definition select_active_products : M (list product) :=
  fun d => (filter is_active (products d), d).

(** [INSERT INTO price_history (product_id, old_price, new_price,
    gold_price_per_gram) VALUES (?, ?, ?, ?)] *)
Definition insert_price_history (pid : Z) (old new gold : float) : M unit :=
  fun d => (tt, {| gold_prices := gold_prices d;
                   products := products d;
                   price_history := price_history d ++
                     [{| product_id := pid; old_price := old; new_price := new;
                         gold_price_per_gram := gold |}] |}).

Definition set_selling_price (price : float) (p : product) : product :=
  {| id := id p; name := name p; description := description p;
     pricing := pricing p; selling_price := price; category := category p;
     stock_quantity := stock_quantity p; is_active := is_active p |}.

(** [UPDATE products SET selling_price = ?, updated_at = NOW() WHERE id = ?] *)
Definition update_selling_price (price : float) (pid : Z) : M unit :=
  fun d => (tt, {| gold_prices := gold_prices d;
                   products := map (fun p => if id p =? pid
                                             then set_selling_price price p else p)
                                   (products d);
                   price_history := price_history d |}).

(** [SELECT * FROM products WHERE id = ? AND is_active = TRUE] *)
Definition select_active_product (pid : Z) : M (list product) :=
  fun d => (filter (fun p => (id p =? pid) && is_active p) (products d), d).

(** [SELECT * FROM gold_prices ORDER BY updated_at DESC LIMIT 1] (and the
    same with only [price_per_gram] selected): the row inserted last. *)
Definition select_latest_gold_price : M (list gold_price) :=
  fun d => (firstn 1 (rev (gold_prices d)), d).

(** [SELECT COUNT( * ) as count FROM gold_prices] and
    [SELECT COUNT( * ) as count FROM products] *)
Definition count_gold_prices : M Z :=
  fun d => (Z.of_nat (List.length (gold_prices d)), d).

Definition count_products : M Z :=
  fun d => (Z.of_nat (List.length (products d)), d).

(** [SELECT * FROM products WHERE is_active = TRUE ORDER BY created_at DESC] *)
Definition select_active_products_newest_first : M (list product) :=
  fun d => (rev (filter is_active (products d)), d).

(** [SELECT * FROM products WHERE id = ?] *)
Definition select_product (pid : Z) : M (list product) :=
  fun d => (filter (fun p => id p =? pid) (products d), d).

(** The [AUTO_INCREMENT] of [products.id]: a new row gets an id above
    every id of the table. *)
Definition next_id (rows : list product) : Z :=
  1 + fold_right Z.max 0 (map id rows).

(** [INSERT INTO products (name, description, weight, carat, making_charges,
    profit_margin, selling_price, category, stock_quantity) VALUES (...)],
    which yields the [insertId]; [is_active] takes its default [TRUE]. *)
Definition insert_product (n ds : string) (a : attrs) (price : float)
    (cat : string) (stock : Z) : M Z :=
  fun d =>
    let i := next_id (products d) in
    (i, {| gold_prices := gold_prices d;
           products := products d ++
             [{| id := i; name := n; description := ds; pricing := a;
                 selling_price := price; category := cat;
                 stock_quantity := stock; is_active := true |}];
           price_history := price_history d |}).

(** [COALESCE(?, column)] *)
Definition coalesce {A : Type} (x : option A) (column : A) : A :=
  match x with
  | Some a => a
  | None => column
  end.

(** What the [UPDATE products SET name = COALESCE(?, name), ...,
    selling_price = ?, ... WHERE id = ?] makes of a row it applies to. *)
Definition set_columns (n ds : option string) (w : option float) (c : option string)
    (mc pm : option float) (price : float) (cat : option string)
    (stock : option Z) (active : option bool) (p : product) : product :=
  {| id := id p;
     name := coalesce n (name p);
     description := coalesce ds (description p);
     pricing := {| weight := coalesce w (weight p);
                   carat := coalesce c (carat p);
                   making_charges := coalesce mc (making_charges p);
                   profit_margin := coalesce pm (profit_margin p) |};
     selling_price := price;
     category := coalesce cat (category p);
     stock_quantity := coalesce stock (stock_quantity p);
     is_active := coalesce active (is_active p) |}.

Definition update_product (n ds : option string) (w : option float) (c : option string)
    (mc pm : option float) (price : float) (cat : option string)
    (stock : option Z) (active : option bool) (pid : Z) : M unit :=
  fun d => (tt, {| gold_prices := gold_prices d;
                   products := map (fun p => if id p =? pid
                                             then set_columns n ds w c mc pm price cat stock active p
                                             else p)
                                   (products d);
                   price_history := price_history d |}).

(** A row of the join of [price_history] with [products]:
    [ph.*, p.name as product_name]. *)
Record history_entry := {
  entry :> history;
  product_name : string
}.

(** [SELECT ph.*, p.name as product_name FROM price_history ph
    JOIN products p ON ph.product_id = p.id WHERE ph.product_id = ?
    ORDER BY ph.changed_at DESC LIMIT 50] *)
Definition select_price_history (pid : Z) : M (list history_entry) :=
  fun d =>
    (firstn 50
       (rev (flat_map
               (fun ph =>
                  if product_id ph =? pid
                  then map (fun p => {| entry := ph; product_name := name p |})
                           (filter (fun p => id p =? product_id ph) (products d))
                  else [])
               (price_history d))), d).

(** A value bound to a placeholder of a statement. *)
Inductive param :=
| Text (s : string)
| Number (x : float).

(** The number of placeholders [?] of a statement. *)
Fixpoint placeholders (statement : string) : nat :=
  match statement with
  | String c rest =>
      if Ascii.eqb c "?" then S (placeholders rest) else placeholders rest
  | EmptyString => O
  end.

(** *** The columns of [createTables]

    The insert and update statements above keep the value they are handed.
    MySQL does so for a value that its column holds; another value it
    rounds to the scale of the column or, in its strict mode, refuses, and
    a handler then ends in its [catch] with status 500.  The predicates
    below say which values the columns hold. *)

(** [DECIMAL(p, s)]: the numbers [k / 10^s] for an integer [k] of at most
    [p] digits.  The handlers read such a number back as the binary64 value
    nearest to it, so the column holds [x] when [x] is that value for the
    [k] nearest to [x * 10^s]; it holds neither [-0] nor what is not
    finite. *)
Definition DECIMAL (p s : Z) (x : float) : bool :=
  match Prim2SF x with
  | S754_zero sign => negb sign
  | S754_finite sign m e =>
      let num := if 0 <=? e then Z.pos m * 2 ^ e else Z.pos m in
      let den := if 0 <=? e then 1 else 2 ^ (- e) in
      let k := (2 * num * 10 ^ s + den) / (2 * den) in
      (k <? 10 ^ p) && Leibniz.eqb x (JS.decimal sign k (- s))
  | _ => false
  end.

(** [VARCHAR(n)], [TEXT] and [INT].  A string is held as its bytes, of
    which it has at least as many as characters. *)
Definition VARCHAR (n : nat) (s : string) : bool := (String.length s <=? n)%nat.

Definition TEXT (s : string) : bool := Z.of_nat (String.length s) <=? 65535.

Definition INT (n : Z) : bool := (- 2 ^ 31 <=? n) && (n <? 2 ^ 31).

(** A row of each table whose values its columns hold. *)
Definition fits_gold_prices (g : gold_price) : bool :=
  DECIMAL 10 2 (price_per_gram g) && VARCHAR 10 (gold_carat g).

Definition fits_products (p : product) : bool :=
  VARCHAR 255 (name p) && TEXT (description p)
  && DECIMAL 8 3 (weight p) && VARCHAR 10 (carat p)
  && DECIMAL 5 2 (making_charges p) && DECIMAL 5 2 (profit_margin p)
  && DECIMAL 10 2 (selling_price p) && VARCHAR 100 (category p)
  && INT (stock_quantity p).

Definition fits_price_history (h : history) : bool :=
  DECIMAL 10 2 (old_price h) && DECIMAL 10 2 (new_price h)
  && DECIMAL 10 2 (gold_price_per_gram h).

End Sql.

(** ** The second server: [GoldPriceCalculator] *)

#[local] Open Scope float_scope.

Record price_info := {
  goldValue : float;
  makingCharges : float;
  baseCost : float;
  sellingPrice : float
}.

Module GoldPriceCalculator.

Definition CARAT_FACTORS : Table.t :=
  [ ("24K", 1.000); ("22K", 0.9167); ("21K", 0.875);
    ("18K", 0.750); ("14K", 0.585); ("10K", 0.417) ]%string.

(** [this.CARAT_FACTORS[product.carat] || 1] *)
Definition caratFactor (product : attrs) : JS.value :=
  JS.or_else (Table.get CARAT_FACTORS (carat product)) (JS.Num 1).

(** [Math.round(x * 100) / 100] *)
Definition cents (x : float) : float := JS.Math_round (x * 100) / 100.

Definition calculatePrice (product : attrs) (goldPricePerGram : float) : price_info :=
  let caratFactor := JS.ToNumber (caratFactor product) in
  let goldValue := weight product * goldPricePerGram * caratFactor in
  let makingCharges := goldValue * (making_charges product / 100) in
  let baseCost := goldValue + makingCharges in
  let sellingPrice := baseCost * (1 + (profit_margin product / 100)) in
  Build_price_info
    (cents goldValue) (cents makingCharges) (cents baseCost) (cents sellingPrice).

(** The four amounts before the [return] rounds them. *)
Definition unrounded (product : attrs) (goldPricePerGram : float) : price_info :=
  let goldValue := weight product * goldPricePerGram * JS.ToNumber (caratFactor product) in
  let makingCharges := goldValue * (making_charges product / 100) in
  let baseCost := goldValue + makingCharges in
  Build_price_info goldValue makingCharges baseCost
    (baseCost * (1 + (profit_margin product / 100))).

End GoldPriceCalculator.

(** ** The second server: the handlers *)

Inductive reply (A : Type) := Json (status : Z) (body : A).
Arguments Json {A} status body.

Definition status {A} (r : reply A) : Z := let (s, _) := r in s.
Definition body {A} (r : reply A) : A := let (_, b) := r in b.

(** An entry of [details] in the answer of [POST /api/gold-price]. *)
Record detail := {
  detail_id : Z;
  detail_name : string;
  detail_old_price : float;
  detail_new_price : float;
  change : string
}.

(** The JSON bodies of [POST /api/gold-price]; the [message] text is left
    out. *)
Inductive gold_price_body :=
| GoldPriceError (error : string)
| GoldPriceUpdated (success : bool) (updated_products : Z) (details : list detail).

Inductive product_body :=
| ProductError (error : string)
| ProductRow (row : product).

(** The body of [POST /api/products].  A text field is a JSON string, a
    numeric field a JSON number; [None] is a field that is [null] or
    absent, which the handler does not tell apart. *)
Module Post.

Record body := {
  name : option string;
  weight : option float;
  carat : option string;
  making_charges : option float;
  profit_margin : option float;
  category : option string;
  description : option string;
  stock_quantity : option Z
}.

End Post.

(** The body of [PUT /api/products/:id].  Each field is left out, [null]
    or given; the handler binds all nine to its [UPDATE]. *)
Module Put.

Record body := {
  name : JS.given string;
  weight : JS.given float;
  carat : JS.given string;
  making_charges : JS.given float;
  profit_margin : JS.given float;
  category : JS.given string;
  description : JS.given string;
  stock_quantity : JS.given Z;
  is_active : JS.given bool
}.

(** No field of the body is left out. *)
Definition complete (b : body) : bool :=
  JS.bindable (name b) && JS.bindable (description b) && JS.bindable (weight b)
  && JS.bindable (carat b) && JS.bindable (making_charges b)
  && JS.bindable (profit_margin b) && JS.bindable (category b)
  && JS.bindable (stock_quantity b) && JS.bindable (is_active b).

End Put.

(** The JSON bodies of [POST /api/products] and of [PUT /api/products/:id];
    the [message] texts are left out, and so is the [error] of the answer
    500, which is the message of the error caught. *)
Inductive product_added_body :=
| ProductRejected (error : string)
| ProductAdded (success : bool) (id : Z) (selling_price : float)
    (price_breakdown : price_info).

Inductive product_updated_body :=
| ProductMissing (error : string)
| ProductUpdated (success : bool) (new_price : float)
| UpdateFailed.

Module Server.

Import GoldPriceCalculator.

(** The body of the loop of [POST /api/gold-price] for one product of the
    batch; [updateResults] is returned instead of pushed to. *)
Definition reprice (price_per_gram : JS.value) (product : product) : M detail :=
  let priceInfo := calculatePrice product (JS.parseFloat price_per_gram) in
  Sql.insert_price_history (id product) (selling_price product)
    (sellingPrice priceInfo) (JS.ToNumber price_per_gram) ;;;
  Sql.update_selling_price (sellingPrice priceInfo) (id product) ;;;
  ret {| detail_id := id product;
         detail_name := name product;
         detail_old_price := selling_price product;
         detail_new_price := sellingPrice priceInfo;
         change := (JS.toFixed 2 ((sellingPrice priceInfo - selling_price product)
                                    / selling_price product * 100) ++ "%")%string |}.

Fixpoint reprice_all (price_per_gram : JS.value) (products : list product)
  : M (list detail) :=
  match products with
  | [] => ret []
  | product :: rest =>
      r <- reprice price_per_gram product ;;
      rs <- reprice_all price_per_gram rest ;;
      ret (r :: rs)
  end.

(** [app.post('/api/gold-price', ...)]; [carat] is [None] when the body has
    no such field. *)
Definition post_gold_price (price_per_gram : JS.value) (carat : option string)
  : M (reply gold_price_body) :=
  let carat := match carat with Some c => c | None => "24K"%string end in
  if negb (JS.ToBoolean price_per_gram) || JS.isNaN price_per_gram
  then ret (Json 400 (GoldPriceError "Valid price is required"))
  else
    Sql.insert_gold_price (JS.parseFloat price_per_gram) carat ;;;
    products <- Sql.select_active_products ;;
    updateResults <- reprice_all price_per_gram products ;;
    ret (Json 200 (GoldPriceUpdated true (Z.of_nat (List.length updateResults)) updateResults)).

(** What the handler stores for a product of the batch: its new selling
    price, the row with that price, and its entry in the history. *)
Definition new_selling_price (price_per_gram : JS.value) (product : product) : float :=
  sellingPrice (calculatePrice product (JS.parseFloat price_per_gram)).

Definition history_of (price_per_gram : JS.value) (product : product) : history :=
  {| product_id := id product;
     old_price := selling_price product;
     new_price := new_selling_price price_per_gram product;
     gold_price_per_gram := JS.ToNumber price_per_gram |}.

(** What the [UPDATE ... WHERE id = ?] issued for the product [q] of the
    batch does to a row [p]. *)
Definition updated_by (price_per_gram : JS.value) (q p : product) : product :=
  if (id p =? id q)%Z
  then Sql.set_selling_price (new_selling_price price_per_gram q) p
  else p.

(** [app.get('/api/products/:id', ...)] *)
Definition get_product (pid : Z) : M (reply product_body) :=
  rows <- Sql.select_active_product pid ;;
  match rows with
  | [] => ret (Json 404 (ProductError "Product not found"))
  | row :: _ => ret (Json 200 (ProductRow row))
  end.

(** [priceRows[0]?.price_per_gram || fallback].  The driver hands the
    DECIMAL column over as a string (['3000.00'], ['0.00']), which is not
    empty and therefore truthy whatever its number: the fallback is taken
    only when there is no row. *)
Definition price_or (priceRows : list gold_price) (fallback : float) : float :=
  match priceRows with
  | row :: _ => price_per_gram row
  | [] => fallback
  end.

(** [app.get('/api/gold-price', ...)]: [rows[0]] or the default object;
    the [currency] is ['EGP'] in both. *)
Definition get_gold_price : M (reply gold_price) :=
  rows <- Sql.select_latest_gold_price ;;
  match rows with
  | row :: _ => ret (Json 200 row)
  | [] => ret (Json 200 {| price_per_gram := 0; gold_carat := "24K" |})
  end.

(** [app.get('/api/products', ...)] *)
Definition get_products : M (reply (list product)) :=
  rows <- Sql.select_active_products_newest_first ;;
  ret (Json 200 rows).

(** [app.post('/api/products', ...)] *)
Definition post_product (b : Post.body) : M (reply product_added_body) :=
  if negb (JS.nonempty (Post.name b))
     || negb (JS.ToBoolean (JS.field (Post.weight b)))
     || negb (JS.nonempty (Post.carat b))
  then ret (Json 400 (ProductRejected "Name, weight, and carat are required"))
  else
    priceRows <- Sql.select_latest_gold_price ;;
    let goldPrice := price_or priceRows 3000 in
    let weight := JS.ToNumber (JS.field (Post.weight b)) in
    let carat := JS.text (Post.carat b) in
    let priceInfo :=
      calculatePrice
        {| weight := weight; carat := carat;
           making_charges := JS.or_number (Post.making_charges b) 5;
           profit_margin := JS.or_number (Post.profit_margin b) 10 |}
        goldPrice in
    insertId <-
      Sql.insert_product
        (JS.text (Post.name b))
        (JS.or_text (Post.description b) EmptyString)
        {| weight := weight; carat := carat;
           making_charges := JS.or_number (Post.making_charges b) 5.00;
           profit_margin := JS.or_number (Post.profit_margin b) 10.00 |}
        (sellingPrice priceInfo)
        (JS.or_text (Post.category b) "Uncategorized")
        (match Post.stock_quantity b with Some n => n | None => 0%Z end) ;;
    ret (Json 200 (ProductAdded true insertId (sellingPrice priceInfo) priceInfo)).

(** The row that the [INSERT] of [app.post('/api/products', ...)] adds for
    a body that passes the check. *)
Definition added_row (b : Post.body) (d : db) : product :=
  let goldPrice := price_or (fst (Sql.select_latest_gold_price d)) 3000 in
  let a :=
    {| weight := JS.ToNumber (JS.field (Post.weight b));
       carat := JS.text (Post.carat b);
       making_charges := JS.or_number (Post.making_charges b) 5;
       profit_margin := JS.or_number (Post.profit_margin b) 10 |} in
  {| id := Sql.next_id (products d);
     name := JS.text (Post.name b);
     description := JS.or_text (Post.description b) EmptyString;
     pricing := a;
     selling_price := sellingPrice (calculatePrice a goldPrice);
     category := JS.or_text (Post.category b) "Uncategorized";
     stock_quantity := match Post.stock_quantity b with Some n => n | None => 0%Z end;
     is_active := true |}.

(** The condition under which [app.put] recomputes the price,
    [weight || carat || making_charges || profit_margin], and the object it
    then hands to [calculatePrice] for the selected row [product]. *)
Definition recalculates (b : Put.body) : bool :=
  JS.ToBoolean (JS.field (JS.known (Put.weight b)))
  || JS.nonempty (JS.known (Put.carat b))
  || JS.ToBoolean (JS.field (JS.known (Put.making_charges b)))
  || JS.ToBoolean (JS.field (JS.known (Put.profit_margin b))).

Definition priced_as (b : Put.body) (product : product) : attrs :=
  {| weight := JS.or_number (JS.known (Put.weight b)) (weight product);
     carat := JS.or_text (JS.known (Put.carat b)) (carat product);
     making_charges :=
       JS.or_number (JS.known (Put.making_charges b)) (making_charges product);
     profit_margin :=
       JS.or_number (JS.known (Put.profit_margin b)) (profit_margin product) |}.

(** [app.put('/api/products/:id', ...)].  When the body leaves a field
    out, the [execute] of the [UPDATE] throws before anything is sent, and
    the [catch] answers 500; the entry of the history, if one was due, has
    been inserted by then. *)
Definition put_product (pid : Z) (b : Put.body) : M (reply product_updated_body) :=
  productRows <- Sql.select_product pid ;;
  match productRows with
  | [] => ret (Json 404 (ProductMissing "Product not found"))
  | product :: _ =>
      sellingPrice <-
        (if recalculates b
         then
           priceRows <- Sql.select_latest_gold_price ;;
           let goldPrice := price_or priceRows 3000 in
           let priceInfo := calculatePrice (priced_as b product) goldPrice in
           Sql.insert_price_history (id product) (selling_price product)
             (sellingPrice priceInfo) goldPrice ;;;
           ret (sellingPrice priceInfo)
         else ret (selling_price product)) ;;
      if Put.complete b
      then
        Sql.update_product (JS.known (Put.name b)) (JS.known (Put.description b))
          (JS.known (Put.weight b)) (JS.known (Put.carat b))
          (JS.known (Put.making_charges b)) (JS.known (Put.profit_margin b))
          sellingPrice (JS.known (Put.category b))
          (JS.known (Put.stock_quantity b)) (JS.known (Put.is_active b))
          pid ;;;
        ret (Json 200 (ProductUpdated true sellingPrice))
      else ret (Json 500 UpdateFailed)
  end.

(** [app.get('/api/products/:id/price-history', ...)] *)
Definition get_price_history (pid : Z) : M (reply (list Sql.history_entry)) :=
  rows <- Sql.select_price_history pid ;;
  ret (Json 200 rows).

(** The rows of [sampleProducts]: name, description, weight, carat, making
    charges, profit margin, category. *)
Definition sampleProducts
  : list (string * string * float * string * float * float * string) :=
  [ ("24K Gold Necklace", "Premium 24K gold necklace", 10.5, "24K", 7.5, 15.0, "Necklace");
    ("22K Gold Bracelet", "Elegant 22K gold bracelet", 8.2, "22K", 5.0, 12.0, "Bracelet");
    ("18K Gold Ring", "Beautiful 18K gold ring", 3.5, "18K", 10.0, 20.0, "Ring");
    ("21K Gold Earrings", "Stylish 21K gold earrings", 5.0, "21K", 8.0, 18.0, "Earrings")
  ]%string.

(** The loop of [initializeDefaultData] over the sample products; the
    insert names no [stock_quantity], which takes its default 0. *)
Fixpoint insert_samples (goldPrice : float)
    (samples : list (string * string * float * string * float * float * string))
  : M unit :=
  match samples with
  | [] => ret tt
  | (n, ds, w, c, mc, pm, cat) :: rest =>
      let priceInfo :=
        calculatePrice
          {| weight := w; carat := c; making_charges := mc; profit_margin := pm |}
          goldPrice in
      Sql.insert_product n ds
        {| weight := w; carat := c; making_charges := mc; profit_margin := pm |}
        (sellingPrice priceInfo) cat 0 ;;;
      insert_samples goldPrice rest
  end.

(** [initializeDefaultData]; the gold price it inserts takes the default
    carat ['24K']. *)
Definition initializeDefaultData : M unit :=
  priceCount <- Sql.count_gold_prices ;;
  (if (priceCount =? 0)%Z then Sql.insert_gold_price 3000.00 "24K" else ret tt) ;;;
  productCount <- Sql.count_products ;;
  if (productCount =? 0)%Z
  then
    currentPrice <- Sql.select_latest_gold_price ;;
    let goldPrice := price_or currentPrice 3000 in
    insert_samples goldPrice sampleProducts
  else ret tt.

(** [createTables]: three [CREATE TABLE IF NOT EXISTS], each in its own
    [try]; the tables of the store are there already. *)
Definition createTables : M unit := ret tt.

(** [app.get('/api/search/products', ...)]: the statement and the
    parameters that the handler builds from the query string and hands to
    [db.execute].  Each of [q], [category], [min_price], [max_price] and
    [carat] is a string when the query string has it once, and [None]
    when it has not. *)
Definition search_statement (q category min_price max_price carat : option string)
  : string * list Sql.param :=
  let query := "SELECT * FROM products WHERE is_active = TRUE"%string in
  let params := @nil Sql.param in
  let (query, params) :=
    if JS.nonempty q
    then ((query ++ " AND (name LIKE ? OR description LIKE ?)")%string,
          params ++ [Sql.Text ("%" ++ JS.text q ++ "%");
                     Sql.Text ("%" ++ JS.text q ++ "%")])
    else (query, params) in
  let (query, params) :=
    if JS.nonempty category
    then ((query ++ " AND category = ?")%string,
          params ++ [Sql.Text (JS.text category)])
    else (query, params) in
  let (query, params) :=
    if JS.nonempty carat
    then ((query ++ " AND carat = ?")%string,
          params ++ [Sql.Text (JS.text carat)])
    else (query, params) in
  let (query, params) :=
    if JS.nonempty min_price
    then ((query ++ " AND selling_price >= ?")%string,
          params ++ [Sql.Number (JS.parseFloat_string (JS.text min_price))])
    else (query, params) in
  let (query, params) :=
    if JS.nonempty max_price
    then ((query ++ " AND selling_price <= ?")%string,
          params ++ [Sql.Number (JS.parseFloat_string (JS.text max_price))])
    else (query, params) in
  ((query ++ " ORDER BY created_at DESC")%string, params).

(** The routes of the second server that read or write the three tables,
    with what they take from the request. *)
Inductive request :=
| GET_gold_price
| POST_gold_price (price_per_gram : JS.value) (carat : option string)
| GET_products
| GET_product (id : Z)
| POST_product (body : Post.body)
| PUT_product (id : Z) (body : Put.body)
| GET_price_history (id : Z).

(** The store after a request has been answered, and after a sequence of
    requests answered one after the other. *)
Definition serve (d : db) (r : request) : db :=
  match r with
  | GET_gold_price => snd (get_gold_price d)
  | POST_gold_price price_per_gram carat => snd (post_gold_price price_per_gram carat d)
  | GET_products => snd (get_products d)
  | GET_product id => snd (get_product id d)
  | POST_product body => snd (post_product body d)
  | PUT_product id body => snd (put_product id body d)
  | GET_price_history id => snd (get_price_history id d)
  end.

Definition serve_all (d : db) (requests : list request) : db :=
  fold_left serve requests d.

End Server.

(** ** The first server: the pricing inlined in its handlers *)

Module First.

Definition caratFactors : Table.t :=
  [ ("24K", 1.0); ("22K", 0.916); ("21K", 0.875);
    ("18K", 0.75); ("14K", 0.585) ]%string.

(** [caratFactors[product.carat] || 1] *)
Definition factor (product : attrs) : JS.value :=
  JS.or_else (Table.get caratFactors (carat product)) (JS.Num 1).

(** The selling price the first server stores and reports for a product:
    [Math.round(newPrice)]. *)
Definition new_price (product : attrs) (price_per_gram : float) : float :=
  let factor := JS.ToNumber (factor product) in
  let goldValue := weight product * price_per_gram * factor in
  let makingCharges := goldValue * (making_charges product / 100) in
  let profit := (goldValue + makingCharges) * (profit_margin product / 100) in
  let newPrice := goldValue + makingCharges + profit in
  JS.Math_round newPrice.

(** The tables of the first server: [gold_prices], of which only the
    column [price_per_gram] is kept, and [products], which has no
    [description] and no [stock_quantity]. *)
Record row := {
  row_id : Z;
  row_name : string;
  row_pricing : attrs;
  row_selling_price : float;
  row_category : string;
  row_is_active : bool
}.

Record store := {
  prices : list float;
  rows : list row
}.

(** An entry of [products] in the answer of [POST /api/gold-price]. *)
Record updated := {
  updated_id : Z;
  updated_name : string;
  updated_new_price : float
}.

Inductive gold_price_body :=
| PriceRequired (error : string)
| PriceUpdated (success : bool) (updated_count : Z) (products : list updated).

(** [UPDATE products SET selling_price = ? WHERE id = ?] *)
Definition update_selling_price (price : float) (pid : Z) (rs : list row) : list row :=
  map (fun p => if (row_id p =? pid)%Z
                then {| row_id := row_id p; row_name := row_name p;
                        row_pricing := row_pricing p; row_selling_price := price;
                        row_category := row_category p;
                        row_is_active := row_is_active p |}
                else p) rs.

(** The loop of [app.post('/api/gold-price', ...)] over the rows selected:
    the table after it and the entries pushed to [updatedProducts];
    [rounded] is [Math.round(newPrice)]. *)
Fixpoint reprice_all (price_per_gram : float) (batch : list row) (rs : list row)
  : list row * list updated :=
  match batch with
  | [] => (rs, [])
  | product :: rest =>
      let rounded := new_price (row_pricing product) price_per_gram in
      let rs := update_selling_price rounded (row_id product) rs in
      let (rs, updatedProducts) := reprice_all price_per_gram rest rs in
      (rs, {| updated_id := row_id product; updated_name := row_name product;
              updated_new_price := rounded |} :: updatedProducts)
  end.

(** What the update issued for the row [q] of the batch does to a row
    [p]. *)
Definition updated_by (price_per_gram : float) (q p : row) : row :=
  if (row_id p =? row_id q)%Z
  then {| row_id := row_id p; row_name := row_name p;
          row_pricing := row_pricing p;
          row_selling_price := new_price (row_pricing q) price_per_gram;
          row_category := row_category p;
          row_is_active := row_is_active p |}
  else p.

(** [app.post('/api/gold-price', ...)] of the first server, for a body
    whose [price_per_gram] is a number, [null] or absent. *)
Definition post_gold_price (price_per_gram : JS.value) (d : store)
  : reply gold_price_body * store :=
  if negb (JS.ToBoolean price_per_gram)
  then (Json 400 (PriceRequired "Price is required"), d)
  else
    let prices := prices d ++ [JS.ToNumber price_per_gram] in
    let products := filter row_is_active (rows d) in
    let (rs, updatedProducts) :=
      reprice_all (JS.ToNumber price_per_gram) products (rows d) in
    (Json 200 (PriceUpdated true (Z.of_nat (List.length updatedProducts)) updatedProducts),
     {| prices := prices; rows := rs |}).

End First.

(** ** The pricing function as the specification words it *)

Module Spec.

Import GoldPriceCalculator.

(** Section 4.1 of the specification, step 6 read literally: every amount
    is rounded to cents at the step that computes it, and the next step
    starts from the rounded amount. *)
Definition compute_stepwise (product : attrs) (pricePerUnitMass : float) : price_info :=
  let purityFactor := JS.ToNumber (caratFactor product) in
  let goldValue := cents (weight product * pricePerUnitMass * purityFactor) in
  let makingCharges := cents (goldValue * (making_charges product / 100)) in
  let baseCost := cents (goldValue + makingCharges) in
  let sellingPrice := cents (baseCost * (1 + (profit_margin product / 100))) in
  Build_price_info goldValue makingCharges baseCost sellingPrice.

End Spec.

(** How a call of a JavaScript function ends. *)
Inductive completion (A : Type) :=
| Normal (result : A)
| Throw (error : string).
Arguments Normal {A} result.
Arguments Throw {A} error.

(** A call of [GoldPriceCalculator.calculatePrice] on a product object: the
    body reads four properties, does arithmetic and returns; it has no
    [throw] and calls nothing that throws. *)
Definition call_calculatePrice (product : attrs) (goldPricePerGram : float)
  : completion price_info :=
  Normal (GoldPriceCalculator.calculatePrice product goldPricePerGram).

(** ** The second server: connecting to the database *)

Module Startup.

(** What the database server answers to the connection attempt and to its
    test query [SELECT 1]. *)
Inductive answer :=
| Refuses (error : string)
| Accepts.

Definition maxRetries : Z := 5.

(** The [while] loop of [connectDB], from the value [retryCount] on.  The
    database server answers the attempt after [n] failed ones with
    [server n].  The result is how the call ends, together with the delays
    waited, in milliseconds; [None] when the [fuel] does not suffice. *)
Fixpoint connect_loop (fuel : nat) (server : Z -> answer) (retryCount : Z)
  : M (option (completion unit * list Z)) :=
  match fuel with
  | O => ret None
  | S fuel' =>
      if (retryCount <? maxRetries)%Z
      then
        match server retryCount with
        | Accepts =>
            Server.createTables ;;;
            Server.initializeDefaultData ;;;
            ret (Some (Normal tt, []))
        | Refuses error =>
            let retryCount := (retryCount + 1)%Z in
            if (retryCount =? maxRetries)%Z
            then ret (Some (Throw error, []))
            else
              let delay := (2 ^ retryCount * 1000)%Z in
              r <- connect_loop fuel' server retryCount ;;
              ret (match r with
                   | Some (c, delays) => Some (c, delay :: delays)
                   | None => None
                   end)
        end
      else ret (Some (Normal tt, []))
  end.

(** [connectDB] *)
Definition connectDB (fuel : nat) (server : Z -> answer)
  : M (option (completion unit * list Z)) :=
  connect_loop fuel server 0.

End Startup.

(** ** Sample data *)

Module Sample.

Definition item (w : float) (c : string) (mc pm : float) : attrs :=
  {| weight := w; carat := c; making_charges := mc; profit_margin := pm |}.

Definition row (i : Z) (n : string) (a : attrs) (price : float) (active : bool)
  : product :=
  {| id := i; name := n; description := EmptyString; pricing := a;
     selling_price := price; category := "Uncategorized";
     stock_quantity := 0%Z; is_active := active |}.

(** The four sample products of [initializeDefaultData]. *)
Definition necklace := item 10.5 "24K" 7.5 15.0.
Definition bracelet := item 8.2 "22K" 5.0 12.0.
Definition ring := item 3.5 "18K" 10.0 20.0.
Definition earrings := item 5.0 "21K" 8.0 18.0.

(** Four active products and one that is not. *)
Definition shop : db :=
  {| gold_prices := [{| price_per_gram := 3000; gold_carat := "24K" |}];
     products :=
       [ row 1 "24K Gold Necklace" necklace 38941.88 true;
         row 2 "22K Gold Bracelet" bracelet 26519.76 true;
         row 3 "18K Gold Ring" ring 10395 false;
         row 4 "21K Gold Earrings" earrings 16726.5 true;
         row 5 "Gold Bar" (item 1 "24K" 5 10) 0 true ];
     price_history := [] |}.

(** A store of the first server: two active products and one that is
    not. *)
Definition first_shop : First.store :=
  {| First.prices := [3000];
     First.rows :=
       [ {| First.row_id := 1; First.row_name := "24K Gold Necklace";
            First.row_pricing := necklace; First.row_selling_price := 38942;
            First.row_category := "Necklace"; First.row_is_active := true |};
         {| First.row_id := 2; First.row_name := "22K Gold Bracelet";
            First.row_pricing := bracelet; First.row_selling_price := 26500;
            First.row_category := "Bracelet"; First.row_is_active := false |};
         {| First.row_id := 3; First.row_name := "18K Gold Ring";
            First.row_pricing := ring; First.row_selling_price := 10395;
            First.row_category := "Ring"; First.row_is_active := true |} ] |}.

(** A product to add: 12 g of 21K, with no making charges given and a
    profit margin of 0. *)
Definition bangle : Post.body :=
  {| Post.name := Some "Bangle"%string; Post.weight := Some 12;
     Post.carat := Some "21K"%string; Post.making_charges := None;
     Post.profit_margin := Some 0; Post.category := None;
     Post.description := None; Post.stock_quantity := None |}.

(** The update that gives [null] for every column, and updates that give
    one column and [null] for the others: the weight, the making charges
    next to the weight, the [is_active] flag. *)
Definition nothing : Put.body :=
  {| Put.name := JS.IsNull; Put.weight := JS.IsNull; Put.carat := JS.IsNull;
     Put.making_charges := JS.IsNull; Put.profit_margin := JS.IsNull;
     Put.category := JS.IsNull; Put.description := JS.IsNull;
     Put.stock_quantity := JS.IsNull; Put.is_active := JS.IsNull |}.

Definition reweigh (w : float) (mc : option float) : Put.body :=
  {| Put.name := JS.IsNull; Put.weight := JS.Given w; Put.carat := JS.IsNull;
     Put.making_charges :=
       match mc with Some x => JS.Given x | None => JS.IsNull end;
     Put.profit_margin := JS.IsNull;
     Put.category := JS.IsNull; Put.description := JS.IsNull;
     Put.stock_quantity := JS.IsNull; Put.is_active := JS.IsNull |}.

Definition activate (a : bool) : Put.body :=
  {| Put.name := JS.IsNull; Put.weight := JS.IsNull; Put.carat := JS.IsNull;
     Put.making_charges := JS.IsNull; Put.profit_margin := JS.IsNull;
     Put.category := JS.IsNull; Put.description := JS.IsNull;
     Put.stock_quantity := JS.IsNull; Put.is_active := JS.Given a |}.

(** The bodies that name one field and leave the others out:
    [{ is_active: a }] and [{ weight: w }]. *)
Definition only_is_active (a : bool) : Put.body :=
  {| Put.name := JS.Absent; Put.weight := JS.Absent; Put.carat := JS.Absent;
     Put.making_charges := JS.Absent; Put.profit_margin := JS.Absent;
     Put.category := JS.Absent; Put.description := JS.Absent;
     Put.stock_quantity := JS.Absent; Put.is_active := JS.Given a |}.

Definition only_weight (w : float) : Put.body :=
  {| Put.name := JS.Absent; Put.weight := JS.Given w; Put.carat := JS.Absent;
     Put.making_charges := JS.Absent; Put.profit_margin := JS.Absent;
     Put.category := JS.Absent; Put.description := JS.Absent;
     Put.stock_quantity := JS.Absent; Put.is_active := JS.Absent |}.

End Sample.

(** ** Binary64 values as real numbers *)

(** The notions in which the rounding of the arithmetic is stated. *)
Module Binary64.

#[local] Open Scope R_scope.

(** Powers of two. *)
Definition bpow (e : Z) : R := powerRZ 2 e.

(** The real number a binary64 value stands for (0 for what is not finite). *)
Definition SFR (z : spec_float) : R :=
  match z with
  | S754_finite s m e => (if s then - IZR (Z.pos m) else IZR (Z.pos m)) * bpow e
  | _ => 0
  end.

(** Zero or a positive finite number. *)
Definition nn (z : spec_float) : bool :=
  match z with
  | S754_zero _ | S754_finite false _ _ => true
  | _ => false
  end.

(** Where the real [y] lies from the integer [m] on: on it, below the
    middle of [m] and [m + 1], on the middle, or above it. *)
Definition located (y : R) (m : Z) (l : location) : Prop :=
  match l with
  | loc_Exact => y = IZR m
  | loc_Inexact Lt => IZR m < y < IZR m + / 2
  | loc_Inexact Eq => y = IZR m + / 2
  | loc_Inexact Gt => IZR m + / 2 < y < IZR m + 1
  end.

(** [z] is a binary64 value, zero or positive, nearest to [x]. *)
Definition rounds (x : R) (z : spec_float) : Prop :=
  valid_binary z = true /\ nn z = true
  /\ forall g, valid_binary g = true -> nn g = true ->
               Rabs (SFR z - x) <= Rabs (SFR g - x).

(** The value and the sign class of a primitive float. *)
Definition F2R (x : float) : R := SFR (Prim2SF x).

Definition nnf (x : float) : bool := nn (Prim2SF x).

(** The integer [Math.round] aims at, for zero and positive numbers. *)
Definition round_target (z : spec_float) : Z :=
  match z with
  | S754_finite false m e =>
      if (0 <=? e)%Z then Z.pos m * 2 ^ e
      else (2 * Z.pos m + 2 ^ (- e)) / (2 * 2 ^ (- e))
  | _ => 0
  end.

(** Zero or finite, of either sign. *)
Definition fin (z : spec_float) : bool :=
  match z with
  | S754_zero _ | S754_finite _ _ _ => true
  | _ => false
  end.

End Binary64.

(** * Properties *)

(** ** Facts about binary64 arithmetic *)

Section FloatFacts.

(** Two floats with different representations are different. *)
Lemma float_neq (x y : float) : Prim2SF x <> Prim2SF y -> x <> y.
Proof. intros H E. apply H. now rewrite E. Qed.

Lemma float_of_SF (x : float) (r : spec_float) : Prim2SF x = r -> x = SF2Prim r.
Proof. intros <-. symmetry. apply SF2Prim_Prim2SF. Qed.

Lemma mul_nan_l (x : float) : nan * x = nan.
Proof.
  apply Prim2SF_inj. rewrite mul_spec.
  change (Prim2SF nan) with S754_nan. reflexivity.
Qed.

Lemma mul_nan_r (x : float) : x * nan = nan.
Proof.
  apply Prim2SF_inj. rewrite mul_spec.
  change (Prim2SF nan) with S754_nan. now destruct (Prim2SF x).
Qed.

Lemma add_nan_l (x : float) : nan + x = nan.
Proof.
  apply Prim2SF_inj. rewrite add_spec.
  change (Prim2SF nan) with S754_nan. reflexivity.
Qed.




End FloatFacts.

(** A disequality of two float literals, by their representations. *)
Ltac float_discriminate :=
  apply float_neq; vm_compute; discriminate.

(** ** Rounding to nearest is monotone

    The results of the binary64 operations on non-negative numbers are
    values nearest to the exact results, hence ordered like them. *)

Section Rounding.

Import Binary64.

#[local] Open Scope R_scope.




Lemma bpow_gt_0 e : 0 < bpow e.
Proof. apply powerRZ_lt. lra. Qed.

Lemma bpow_add a b : bpow (a + b) = bpow a * bpow b.
Proof. apply powerRZ_add. lra. Qed.

Lemma bpow_0 : bpow 0 = 1.
Proof. reflexivity. Qed.

Lemma bpow_1 : bpow 1 = 2.
Proof. exact (powerRZ_1 2). Qed.

Lemma bpow_opp e : bpow (- e) = / bpow e.
Proof. apply powerRZ_neg'. Qed.

Lemma bpow_sub a b : bpow (a - b) = bpow a / bpow b.
Proof. unfold Z.sub. now rewrite bpow_add, bpow_opp. Qed.

Lemma bpow_IZR (e : Z) : (0 <= e)%Z -> bpow e = IZR (2 ^ e).
Proof.
  revert e. apply natlike_ind.
  - reflexivity.
  - intros e He IH. unfold Z.succ.
    rewrite bpow_add, bpow_1, IH, Z.pow_add_r, mult_IZR by lia.
    reflexivity.
Qed.

Lemma bpow_ge_1 e : (0 <= e)%Z -> 1 <= bpow e.
Proof.
  intros He. rewrite bpow_IZR by assumption. apply IZR_le.
  assert (0 < 2 ^ e)%Z by (apply Z.pow_pos_nonneg; lia). lia.
Qed.

Lemma bpow_le a b : (a <= b)%Z -> bpow a <= bpow b.
Proof.
  intros H. replace b with (a + (b - a))%Z by lia. rewrite bpow_add.
  pose proof (bpow_gt_0 a). pose proof (bpow_ge_1 (b - a) ltac:(lia)). nra.
Qed.

Lemma bpow_lt a b : (a < b)%Z -> bpow a < bpow b.
Proof.
  intros H. replace b with (a + 1 + (b - a - 1))%Z by lia.
  rewrite !bpow_add, bpow_1.
  pose proof (bpow_gt_0 a). pose proof (bpow_ge_1 (b - a - 1) ltac:(lia)). nra.
Qed.

(** Binary digits. *)
Lemma digits2_size (p : positive) : digits2_pos p = Pos.size p.
Proof. induction p; cbn; now rewrite ?IHp. Qed.

Lemma digits_bounds (p : positive) :
  bpow (Z.pos (digits2_pos p) - 1) <= IZR (Z.pos p) < bpow (Z.pos (digits2_pos p)).
Proof.
  rewrite digits2_size.
  pose proof (Pos.size_gt p) as Hgt. pose proof (Pos.size_le p) as Hle.
  rewrite !bpow_IZR by lia. split.
  - apply IZR_le.
    assert (E : (2 ^ Z.pos (Pos.size p) = 2 * 2 ^ (Z.pos (Pos.size p) - 1))%Z).
    { rewrite <- Z.pow_succ_r by lia. f_equal. lia. }
    assert (H2 : (2 ^ Z.pos (Pos.size p) <= Z.pos p~0)%Z).
    { rewrite <- Pos2Z.inj_pow. now apply Pos2Z.pos_le_pos. }
    lia.
  - apply IZR_lt. rewrite <- Pos2Z.inj_pow. now apply Pos2Z.pos_lt_pos.
Qed.




Lemma fexp_eq (e : Z) : fexp prec emax e = Z.max (e - 53) (-1074).
Proof. reflexivity. Qed.

Lemma valid_finite s m e :
  valid_binary (S754_finite s m e) = true ->
  (-1074 <= e <= 971)%Z
  /\ (Z.pos (digits2_pos m) <= 53)%Z
  /\ (-1074 < e -> Z.pos (digits2_pos m) = 53)%Z.
Proof.
  unfold SpecFloat.valid_binary, SpecFloat.bounded, SpecFloat.canonical_mantissa.
  rewrite fexp_eq.
  intros H. apply andb_true_iff in H as [H1 H2].
  apply Z.eqb_eq in H1. apply Z.leb_le in H2.
  change (emax - prec)%Z with 971%Z in H2. lia.
Qed.

Lemma SFR_nn_ge_0 z : nn z = true -> 0 <= SFR z.
Proof.
  destruct z as [s | s | | [] m e]; cbn; try discriminate; intros _; try lra.
  pose proof (bpow_gt_0 e). pose proof (IZR_lt 0 (Z.pos m) ltac:(lia)). nra.
Qed.

Lemma SFR_finite_pos m e : 0 < SFR (S754_finite false m e).
Proof.
  cbn. pose proof (bpow_gt_0 e). pose proof (IZR_lt 0 (Z.pos m) ltac:(lia)). nra.
Qed.

(** A valid number is below the power of two that its exponent allows. *)
Lemma SFR_lt_bpow m e :
  valid_binary (S754_finite false m e) = true ->
  SFR (S754_finite false m e) < bpow (e + 53).
Proof.
  intros Hv. apply valid_finite in Hv as (_ & Hd & _).
  cbn. rewrite bpow_add, Rmult_comm.
  apply Rmult_lt_compat_l; [apply bpow_gt_0 |].
  eapply Rlt_le_trans; [apply digits_bounds |]. now apply bpow_le.
Qed.

Lemma SFR_ge_bpow m e :
  valid_binary (S754_finite false m e) = true ->
  (-1074 < e)%Z ->
  bpow (e + 52) <= SFR (S754_finite false m e).
Proof.
  intros Hv He. apply valid_finite in Hv as (_ & _ & Hd). specialize (Hd He).
  cbn. rewrite bpow_add, Rmult_comm.
  apply Rmult_le_compat_r; [apply Rlt_le, bpow_gt_0 |].
  pose proof (digits_bounds m) as [H _]. rewrite Hd in H. exact H.
Qed.

(** Valid numbers are ordered by exponent first. *)
Lemma SFR_exp_lt m1 e1 m2 e2 :
  valid_binary (S754_finite false m1 e1) = true ->
  valid_binary (S754_finite false m2 e2) = true ->
  (e1 < e2)%Z ->
  SFR (S754_finite false m1 e1) < SFR (S754_finite false m2 e2).
Proof.
  intros H1 H2 He.
  pose proof (valid_finite _ _ _ H1) as (He1 & _).
  eapply Rlt_le_trans; [now apply SFR_lt_bpow |].
  eapply Rle_trans; [| apply SFR_ge_bpow; [assumption | lia]].
  apply bpow_le. lia.
Qed.

Lemma SFR_mant_le m1 m2 e :
  SFR (S754_finite false m1 e) <= SFR (S754_finite false m2 e) ->
  (m1 <= m2)%positive.
Proof.
  cbn. intros H. pose proof (bpow_gt_0 e).
  assert (IZR (Z.pos m1) <= IZR (Z.pos m2)) by nra.
  apply le_IZR in H1. lia.
Qed.

(** On valid non-negative numbers [SFleb] is the order of the reals. *)
Lemma SFleb_of_le z1 z2 :
  valid_binary z1 = true -> valid_binary z2 = true ->
  nn z1 = true -> nn z2 = true ->
  SFR z1 <= SFR z2 -> SFleb z1 z2 = true.
Proof.
  intros V1 V2 N1 N2 H.
  destruct z1 as [s1 | s1 | | [] m1 e1]; try discriminate;
    destruct z2 as [s2 | s2 | | [] m2 e2]; try discriminate; try reflexivity.
  - pose proof (SFR_finite_pos m1 e1). cbn in H, H0. lra.
  - unfold SFleb, SFcompare.
    destruct (Z.compare_spec e1 e2) as [E | E | E]; try reflexivity.
    + subst e2. apply SFR_mant_le in H.
      rewrite Pos.compare_cont_spec. cbn.
      destruct (Pos.compare_spec m1 m2); try reflexivity. lia.
    + pose proof (SFR_exp_lt m2 e2 m1 e1 V2 V1 E). lra.
Qed.

Lemma SFleb_le z1 z2 :
  valid_binary z1 = true -> valid_binary z2 = true ->
  nn z1 = true -> nn z2 = true ->
  SFleb z1 z2 = true -> SFR z1 <= SFR z2.
Proof.
  intros V1 V2 N1 N2 H.
  destruct z1 as [s1 | s1 | | [] m1 e1]; try discriminate;
    destruct z2 as [s2 | s2 | | [] m2 e2]; try discriminate.
  - cbn. lra.
  - pose proof (SFR_finite_pos m2 e2). cbn in *. lra.
  - unfold SFleb, SFcompare in H.
    destruct (Z.compare_spec e1 e2) as [E | E | E]; try discriminate.
    + subst e2. rewrite Pos.compare_cont_spec in H. cbn in H.
      destruct (Pos.compare_spec m1 m2) as [E | E | E]; try discriminate.
      * subst. lra.
      * cbn. pose proof (bpow_gt_0 e1).
        pose proof (IZR_lt (Z.pos m1) (Z.pos m2) ltac:(lia)). nra.
    + apply Rlt_le. now apply SFR_exp_lt.
Qed.

(** Valid numbers with the same value are the same. *)
Lemma SFR_inj m1 e1 m2 e2 :
  valid_binary (S754_finite false m1 e1) = true ->
  valid_binary (S754_finite false m2 e2) = true ->
  SFR (S754_finite false m1 e1) = SFR (S754_finite false m2 e2) ->
  m1 = m2 /\ e1 = e2.
Proof.
  intros V1 V2 H.
  destruct (Z.compare_spec e1 e2) as [E | E | E].
  - subst e2. split; [| reflexivity].
    pose proof (SFR_mant_le m1 m2 e1 ltac:(lra)).
    pose proof (SFR_mant_le m2 m1 e1 ltac:(lra)). lia.
  - pose proof (SFR_exp_lt m1 e1 m2 e2 V1 V2 E). lra.
  - pose proof (SFR_exp_lt m2 e2 m1 e1 V2 V1 E). lra.
Qed.


(** ** Truncation *)


Lemma located_bounds y m l : located y m l -> IZR m <= y < IZR m + 1.
Proof. destruct l as [| []]; cbn; lra. Qed.

Lemma located_integer h m l : located (IZR h) m l -> m = h.
Proof.
  intros H. pose proof (located_bounds _ _ _ H) as [H1 H2].
  apply le_IZR in H1. rewrite <- plus_IZR in H2. apply lt_IZR in H2. lia.
Qed.

Lemma record_of_loc m l :
  shr_m (shr_record_of_loc m l) = m
  /\ loc_of_shr_record (shr_record_of_loc m l) = l.
Proof. now destruct l as [| []]. Qed.

Lemma IZR_xO p : IZR (Z.pos p~0) = 2 * IZR (Z.pos p).
Proof. now rewrite Pos2Z.inj_xO, mult_IZR. Qed.

Lemma IZR_xI p : IZR (Z.pos p~1) = 2 * IZR (Z.pos p) + 1.
Proof. now rewrite Pos2Z.inj_xI, plus_IZR, mult_IZR. Qed.

(** One step of the shift halves the located number. *)
Lemma shr_1_located (mrs : shr_record) (y : R) :
  (0 <= shr_m mrs)%Z ->
  located y (shr_m mrs) (loc_of_shr_record mrs) ->
  (0 <= shr_m (shr_1 mrs))%Z
  /\ located (y * / 2) (shr_m (shr_1 mrs)) (loc_of_shr_record (shr_1 mrs)).
Proof.
  destruct mrs as [m r s]. cbn [shr_m]. intros Hm H.
  destruct m as [| p | p]; [| | lia].
  - destruct r, s; cbn in *; split; try lia; lra.
  - destruct p as [p | p |]; destruct r, s;
      cbn [shr_1 orb shr_m loc_of_shr_record located] in *;
      (split; [lia |]);
      first [rewrite (IZR_xI p) in H | rewrite (IZR_xO p) in H | idtac]; lra.
Qed.

Lemma iter_shr_1_located (p : positive) :
  forall (mrs : shr_record) (y : R),
    (0 <= shr_m mrs)%Z ->
    located y (shr_m mrs) (loc_of_shr_record mrs) ->
    (0 <= shr_m (SpecFloat.iter_pos shr_1 p mrs))%Z
    /\ located (y * bpow (- Z.pos p)) (shr_m (SpecFloat.iter_pos shr_1 p mrs))
         (loc_of_shr_record (SpecFloat.iter_pos shr_1 p mrs)).
Proof.
  induction p as [p IH | p IH |]; intros mrs y Hm H; cbn [SpecFloat.iter_pos].
  - destruct (shr_1_located mrs y Hm H) as [Hm1 H1].
    destruct (IH _ _ Hm1 H1) as [Hm2 H2].
    destruct (IH _ _ Hm2 H2) as [Hm3 H3].
    split; [assumption |].
    replace (y * bpow (- Z.pos p~1))
      with (y * / 2 * bpow (- Z.pos p) * bpow (- Z.pos p)); [assumption |].
    replace (- Z.pos p~1)%Z with (- (1) + (- Z.pos p + - Z.pos p))%Z by lia.
    rewrite !bpow_add, (bpow_opp 1), bpow_1. ring.
  - destruct (IH _ _ Hm H) as [Hm2 H2].
    destruct (IH _ _ Hm2 H2) as [Hm3 H3].
    split; [assumption |].
    replace (y * bpow (- Z.pos p~0))
      with (y * bpow (- Z.pos p) * bpow (- Z.pos p)); [assumption |].
    replace (- Z.pos p~0)%Z with (- Z.pos p + - Z.pos p)%Z by lia.
    rewrite !bpow_add. ring.
  - destruct (shr_1_located mrs y Hm H) as [Hm1 H1].
    split; [assumption |].
    change (- 1)%Z with (- (1))%Z. now rewrite bpow_opp, bpow_1.
Qed.

(** The shift to the exponent the format asks for. *)
Lemma shr_fexp_located (m e : Z) (l : location) (x : R) :
  (0 <= m)%Z ->
  located (x * bpow (- e)) m l ->
  let t := Z.max e (fexp prec emax (Zdigits2 m + e)) in
  exists mrs,
    shr_fexp prec emax m e l = (mrs, t)
    /\ (0 <= shr_m mrs)%Z
    /\ located (x * bpow (- t)) (shr_m mrs) (loc_of_shr_record mrs)
    /\ (t = e -> shr_m mrs = m /\ loc_of_shr_record mrs = l).
Proof.
  intros Hm H t. unfold shr_fexp, shr.
  destruct (record_of_loc m l) as [Em El].
  destruct (fexp prec emax (Zdigits2 m + e) - e)%Z as [| p | p] eqn:E.
  - exists (shr_record_of_loc m l).
    replace t with e by (unfold t; lia). rewrite Em, El. auto.
  - exists (SpecFloat.iter_pos shr_1 p (shr_record_of_loc m l)).
    assert (Et : t = (e + Z.pos p)%Z) by (unfold t; lia).
    destruct (iter_shr_1_located p (shr_record_of_loc m l) (x * bpow (- e)))
      as [H1 H2]; rewrite ?Em, ?El; try assumption.
    rewrite Et. repeat split; try assumption; try lia.
    replace (- (e + Z.pos p))%Z with (- e + - Z.pos p)%Z by lia.
    rewrite bpow_add, <- Rmult_assoc. exact H2.
  - exists (shr_record_of_loc m l).
    replace t with e by (unfold t; lia). rewrite Em, El. auto.
Qed.

(** ** Rounding to the nearest integer *)

Lemma round_nearest_even_nearest (y : R) (m : Z) (l : location) :
  located y m l ->
  (round_nearest_even m l = m \/ round_nearest_even m l = m + 1)%Z
  /\ (l = loc_Exact -> round_nearest_even m l = m)
  /\ forall k : Z, Rabs (IZR (round_nearest_even m l) - y) <= Rabs (IZR k - y).
Proof.
  intros H.
  assert (Hk : forall k : Z, IZR k <= IZR m \/ IZR m + 1 <= IZR k).
  { intros k. destruct (Z_le_gt_dec k m) as [Hle | Hgt].
    - left. now apply IZR_le.
    - right. rewrite <- plus_IZR. apply IZR_le. lia. }
  destruct l as [| []]; cbn [round_nearest_even located] in *;
    try destruct (Z.even m);
    (split; [auto |]); (split; [try discriminate; auto |]);
    intros k; specialize (Hk k); rewrite ?plus_IZR;
    unfold Rabs; do 2 destruct Rcase_abs; lra.
Qed.


Lemma bpow_le_inv a b : bpow a <= bpow b -> (a <= b)%Z.
Proof.
  intros H. destruct (Z_le_gt_dec a b) as [Hle | Hgt]; [exact Hle |].
  pose proof (bpow_lt b a ltac:(lia)). lra.
Qed.

Lemma bpow_cancel x t : x * bpow (- t) * bpow t = x.
Proof.
  rewrite Rmult_assoc, <- bpow_add. replace (- t + t)%Z with 0%Z by lia.
  rewrite bpow_0. ring.
Qed.

Lemma bpow_cancel_r x t : x * bpow t * bpow (- t) = x.
Proof.
  rewrite Rmult_assoc, <- bpow_add. replace (t + - t)%Z with 0%Z by lia.
  rewrite bpow_0. ring.
Qed.

Lemma scaled_le u x e : u <= x * bpow (- e) -> u * bpow e <= x.
Proof.
  intros H. rewrite <- (bpow_cancel x e).
  apply Rmult_le_compat_r; [apply Rlt_le, bpow_gt_0 | exact H].
Qed.

Lemma scaled_lt u x e : x * bpow (- e) < u -> x < u * bpow e.
Proof.
  intros H. rewrite <- (bpow_cancel x e) at 1.
  apply Rmult_lt_compat_r; [apply bpow_gt_0 | exact H].
Qed.

Lemma Zdigits2_bounds (n : Z) :
  (0 < n)%Z -> bpow (Zdigits2 n - 1) <= IZR n < bpow (Zdigits2 n).
Proof.
  destruct n as [| p | p]; try lia. intros _. apply digits_bounds.
Qed.

Lemma located_lt_bpow (y : R) (m : Z) (l : location) :
  (0 <= m)%Z -> located y m l -> y < bpow (Zdigits2 m).
Proof.
  intros Hm H. apply located_bounds in H as [_ H].
  destruct (Z.eq_dec m 0) as [-> | Hne].
  - change (Zdigits2 0) with 0%Z. rewrite bpow_0. lra.
  - destruct (Zdigits2_bounds m ltac:(lia)) as [_ Hd].
    assert (Hdn : (0 <= Zdigits2 m)%Z) by (destruct m; cbn; lia).
    rewrite bpow_IZR in * by assumption.
    apply lt_IZR in Hd.
    assert (IZR m + 1 <= IZR (2 ^ Zdigits2 m)).
    { rewrite <- plus_IZR. apply IZR_le. lia. }
    lra.
Qed.

(** Scaling keeps the nearest point of a grid nearest. *)
Lemma nearest_on_grid (n : Z) (t : Z) (x : R) :
  (forall k : Z, Rabs (IZR n - x * bpow (- t)) <= Rabs (IZR k - x * bpow (- t))) ->
  forall k : Z, Rabs (IZR n * bpow t - x) <= Rabs (IZR k * bpow t - x).
Proof.
  intros H k. specialize (H k). pose proof (bpow_gt_0 t) as Ht.
  assert (E : forall j : Z, IZR j * bpow t - x = (IZR j - x * bpow (- t)) * bpow t).
  { intros j. rewrite Rmult_minus_distr_r, bpow_cancel. reflexivity. }
  rewrite !E, !Rabs_mult, (Rabs_pos_eq (bpow t)) by lra.
  apply Rmult_le_compat_r; lra.
Qed.


(** After rounding, the mantissa has at most one bit too many, and then it
    is [2^53]. *)
Lemma second_shift (n t : Z) :
  (0 <= n <= 2 ^ 53)%Z -> (-1074 <= t)%Z ->
  let t2 := Z.max t (fexp prec emax (Zdigits2 n + t)) in
  t2 = t \/ (t2 = (t + 1)%Z /\ n = (2 ^ 53)%Z).
Proof.
  intros Hn Ht t2. unfold t2. rewrite fexp_eq.
  destruct (Z.eq_dec n 0) as [-> | Hne].
  - change (Zdigits2 0) with 0%Z. left. lia.
  - destruct (Zdigits2_bounds n ltac:(lia)) as [Hlo Hhi].
    assert (H53 : IZR n <= bpow 53).
    { rewrite bpow_IZR by lia. apply IZR_le. lia. }
    assert (Hd : (Zdigits2 n - 1 <= 53)%Z) by (apply bpow_le_inv; lra).
    destruct (Z.eq_dec (Zdigits2 n) 54) as [E | E].
    + right. rewrite E in *. split; [lia |].
      change (54 - 1)%Z with 53%Z in Hlo. rewrite bpow_IZR in Hlo by lia.
      apply le_IZR in Hlo. lia.
    + left. lia.
Qed.

(** What [binary_round_aux] returns, when it is zero or finite, is as close
    to the located number as any binary64 value. *)
Theorem round_aux_nearest (m e : Z) (l : location) (x : R) (z : spec_float) :
  (0 <= m)%Z ->
  located (x * bpow (- e)) m l ->
  l = loc_Exact \/ (e <= -1074)%Z \/ bpow (e + 52) <= x ->
  binary_round_aux prec emax false m e l = z ->
  nn z = true ->
  forall g, valid_binary g = true -> nn g = true ->
            Rabs (SFR z - x) <= Rabs (SFR g - x).
Proof.
  intros Hm Hloc Hinv Hz Hnn.
  destruct (shr_fexp_located m e l x Hm Hloc) as (mrs1 & E1 & Hm1 & Hl1 & Hsame1).
  set (D := (Zdigits2 m + e)%Z) in *.
  set (t := Z.max e (fexp prec emax D)) in *.
  assert (Ht : (-1074 <= t /\ D - 53 <= t /\ e <= t)%Z)
    by (unfold t; rewrite fexp_eq; lia).
  destruct (round_nearest_even_nearest _ _ _ Hl1) as (Hn & Hex & Hnear).
  set (n := round_nearest_even (shr_m mrs1) (loc_of_shr_record mrs1)) in *.
  (* the mantissa after the first shift is below 2^53 *)
  assert (Hx : x < bpow D).
  { pose proof (located_lt_bpow _ _ _ Hm Hloc) as H.
    apply scaled_lt in H. unfold D. now rewrite bpow_add. }
  assert (Hm1' : (shr_m mrs1 < 2 ^ 53)%Z).
  { apply lt_IZR. rewrite <- bpow_IZR by lia.
    pose proof (located_bounds _ _ _ Hl1) as [H1 _].
    apply scaled_le in H1. pose proof (bpow_gt_0 t).
    assert (bpow D <= bpow 53 * bpow t).
    { rewrite <- bpow_add. apply bpow_le. lia. }
    assert (IZR (shr_m mrs1) * bpow t < bpow 53 * bpow t) by lra.
    apply Rmult_lt_reg_r with (bpow t); assumption. }
  assert (Hn0 : (0 <= n <= 2 ^ 53)%Z) by lia.
  (* the second shift *)
  assert (Hloc2 : located (IZR n * bpow t * bpow (- t)) n loc_Exact).
  { cbn. rewrite Rmult_assoc, <- bpow_add.
    replace (t + - t)%Z with 0%Z by lia. rewrite bpow_0. ring. }
  destruct (shr_fexp_located n t loc_Exact _ (proj1 Hn0) Hloc2)
    as (mrs2 & E2 & Hm2 & Hl2 & Hsame2).
  set (t2 := Z.max t (fexp prec emax (Zdigits2 n + t))) in *.
  assert (HV : IZR (shr_m mrs2) * bpow t2 = IZR n * bpow t).
  { destruct (second_shift n t Hn0 (proj1 Ht)) as [E | [E En]]; fold t2 in E.
    - destruct (Hsame2 E) as [-> _]. now rewrite E.
    - rewrite E in Hl2 |- *.
      assert (Eh : IZR n * bpow t * bpow (- (t + 1)) = IZR (2 ^ 52)).
      { rewrite Rmult_assoc, <- bpow_add.
        replace (t + - (t + 1))%Z with (- (1))%Z by lia.
        rewrite bpow_opp, bpow_1, En.
        change (2 ^ 53)%Z with (2 * 2 ^ 52)%Z. rewrite mult_IZR. field. }
      rewrite Eh in Hl2. apply located_integer in Hl2. rewrite Hl2, En.
      rewrite bpow_add, bpow_1.
      change (2 ^ 53)%Z with (2 * 2 ^ 52)%Z. rewrite mult_IZR. ring. }
  (* the value returned *)
  assert (Hval : SFR z = IZR n * bpow t).
  { unfold binary_round_aux in Hz. rewrite E1 in Hz. fold n in Hz. rewrite E2 in Hz.
    rewrite <- HV. subst z.
    destruct (shr_m mrs2) as [| p | p]; [cbn; ring | | lia].
    destruct (t2 <=? emax - prec)%Z; [reflexivity | discriminate]. }
  rewrite Hval.
  pose proof (nearest_on_grid n t x Hnear) as Hgrid.
  intros g Vg Ng.
  destruct g as [sg | sg | | [] mg eg]; try discriminate.
  - replace (SFR (S754_zero sg)) with (IZR 0 * bpow t) by (cbn; ring). apply Hgrid.
  - destruct (Z_le_gt_dec t eg) as [Hle | Hgt].
    + replace (SFR (S754_finite false mg eg))
        with (IZR (Z.pos mg * 2 ^ (eg - t)) * bpow t); [apply Hgrid |].
      cbn [SFR]. rewrite mult_IZR, <- bpow_IZR by lia.
      rewrite Rmult_assoc, <- bpow_add. do 2 f_equal. lia.
    + pose proof (valid_finite _ _ _ Vg) as (Heg & _).
      assert (Hcase : IZR n * bpow t = x \/ bpow (t + 52) <= x).
      { destruct (Z.eq_dec t e) as [Ete | Ete].
        - destruct (Hsame1 Ete) as [Em El]. rewrite Ete in *.
          destruct Hinv as [-> | [He | He]].
          + left. unfold n. rewrite Em, El. cbn. cbn in Hloc.
            rewrite <- Hloc. apply bpow_cancel.
          + lia.
          + now right.
        - right.
          assert (Et : t = (D - 53)%Z) by (unfold t in *; rewrite fexp_eq in *; lia).
          assert (Hmpos : (0 < m)%Z).
          { destruct (Z.eq_dec m 0) as [-> | ?]; [| lia].
            unfold D in Et. change (Zdigits2 0) with 0%Z in Et. lia. }
          destruct (Zdigits2_bounds m Hmpos) as [Hlo _].
          pose proof (located_bounds _ _ _ Hloc) as [Hb _].
          assert (H : bpow (Zdigits2 m - 1) <= x * bpow (- e)) by lra.
          apply scaled_le in H. rewrite <- bpow_add in H.
          replace (t + 52)%Z with (Zdigits2 m - 1 + e)%Z by (unfold D in Et; lia).
          exact H. }
      destruct Hcase as [-> | HP].
      * unfold Rminus at 1. rewrite Rplus_opp_r, Rabs_R0. apply Rabs_pos.
      * pose proof (SFR_lt_bpow mg eg Vg) as Hg.
        assert (Hgp : bpow (eg + 53) <= bpow (t + 52)) by (apply bpow_le; lia).
        specialize (Hgrid (2 ^ 52)%Z).
        assert (EP : IZR (2 ^ 52) * bpow t = bpow (t + 52)).
        { rewrite <- bpow_IZR by lia. rewrite <- bpow_add. f_equal. lia. }
        rewrite EP in Hgrid.
        rewrite (Rabs_left1 (bpow (t + 52) - x)) in Hgrid by lra.
        rewrite (Rabs_left1 (SFR (S754_finite false mg eg) - x)) by lra.
        lra.
Qed.


(** ** Rounding is monotone *)


Lemma rounds_exact (z : spec_float) :
  valid_binary z = true -> nn z = true -> rounds (SFR z) z.
Proof.
  intros V N. repeat split; try assumption. intros g _ _.
  unfold Rminus at 1. rewrite Rplus_opp_r, Rabs_R0. apply Rabs_pos.
Qed.

Lemma rounds_lt (x1 x2 : R) (z1 z2 : spec_float) :
  rounds x1 z1 -> rounds x2 z2 -> x1 < x2 -> SFR z1 <= SFR z2.
Proof.
  intros (V1 & N1 & B1) (V2 & N2 & B2) Hx.
  specialize (B1 z2 V2 N2). specialize (B2 z1 V1 N1).
  revert B1 B2. unfold Rabs. repeat destruct Rcase_abs; lra.
Qed.

(** Nearest values of ordered numbers are ordered, once equal numbers are
    known to give ordered values. *)
Lemma rounds_le (x1 x2 : R) (z1 z2 : spec_float) :
  rounds x1 z1 -> rounds x2 z2 -> x1 <= x2 ->
  (x1 = x2 -> SFR z1 <= SFR z2) ->
  SFR z1 <= SFR z2.
Proof.
  intros R1 R2 [Hlt | Heq] H; [now apply (rounds_lt x1 x2) | now apply H].
Qed.

(** A value next to a number that is a binary64 value itself is that
    number. *)
Lemma rounds_representable (z g : spec_float) :
  rounds (SFR g) z -> valid_binary g = true -> nn g = true -> SFR z = SFR g.
Proof.
  intros (_ & _ & B) V N. specialize (B g V N).
  revert B. unfold Rabs. repeat destruct Rcase_abs; lra.
Qed.

Lemma round_aux_rounds (m e : Z) (l : location) (x : R) :
  (0 <= m)%Z ->
  located (x * bpow (- e)) m l ->
  l = loc_Exact \/ (e <= -1074)%Z \/ bpow (e + 52) <= x ->
  valid_binary (binary_round_aux prec emax false m e l) = true ->
  nn (binary_round_aux prec emax false m e l) = true ->
  rounds x (binary_round_aux prec emax false m e l).
Proof.
  intros Hm Hloc Hinv V N. repeat split; try assumption.
  now apply (round_aux_nearest m e l x).
Qed.

(** ** The operations *)

Lemma iter_xO (d m : positive) :
  Z.pos (Pos.iter xO m d) = (Z.pos m * 2 ^ Z.pos d)%Z.
Proof.
  revert m. induction d as [| d IH] using Pos.peano_ind; intros m.
  - cbn. lia.
  - rewrite Pos.iter_succ, Pos2Z.inj_succ, Z.pow_succ_r by lia.
    rewrite Pos2Z.inj_xO, IH. lia.
Qed.

(** Aligning a mantissa to a smaller exponent keeps the number. *)
Lemma shl_align_value (m : positive) (e t : Z) :
  IZR (Z.pos (fst (shl_align m e t))) * bpow (snd (shl_align m e t))
  = IZR (Z.pos m) * bpow e.
Proof.
  unfold shl_align. destruct (t - e)%Z as [| d | d] eqn:E; cbn [fst snd]; try reflexivity.
  rewrite iter_xO, mult_IZR, <- bpow_IZR by lia.
  rewrite Rmult_assoc, <- bpow_add. do 2 f_equal. lia.
Qed.

Lemma shl_align_fst (m : positive) (e t : Z) :
  (t <= e)%Z ->
  Z.pos (fst (shl_align m e t)) = (Z.pos m * 2 ^ (e - t))%Z.
Proof.
  intros H. unfold shl_align. destruct (t - e)%Z as [| d | d] eqn:E; cbn [fst]; try lia.
  - replace (e - t)%Z with 0%Z by lia. lia.
  - rewrite iter_xO. do 2 f_equal. lia.
Qed.

Lemma binary_normalize_rounds (n e : Z) :
  (0 < n)%Z ->
  valid_binary (binary_normalize prec emax n e false) = true ->
  nn (binary_normalize prec emax n e false) = true ->
  rounds (IZR n * bpow e) (binary_normalize prec emax n e false).
Proof.
  destruct n as [| p | p]; try lia. intros _.
  unfold binary_normalize, binary_round.
  pose proof (shl_align_value p e (fexp prec emax (Z.pos (digits2_pos p) + e))) as Hv.
  destruct (shl_align p e _) as [mz ez]. cbn [fst snd] in Hv.
  intros V N. apply round_aux_rounds; try assumption; try lia; [| now left].
  cbn. rewrite <- Hv. apply bpow_cancel_r.
Qed.


Lemma SFR_zero_value (z : spec_float) :
  nn z = true -> SFR z = 0 -> exists s, z = S754_zero s.
Proof.
  destruct z as [s | s | | [] m e]; try discriminate; intros _ H.
  - now exists s.
  - pose proof (SFR_finite_pos m e). lra.
Qed.

Lemma SFmul_rounds (z1 z2 : spec_float) :
  nn z1 = true -> nn z2 = true ->
  valid_binary (SFmul prec emax z1 z2) = true ->
  nn (SFmul prec emax z1 z2) = true ->
  rounds (SFR z1 * SFR z2) (SFmul prec emax z1 z2).
Proof.
  intros N1 N2.
  destruct z1 as [s1 | s1 | | [] m1 e1]; try discriminate;
    destruct z2 as [s2 | s2 | | [] m2 e2]; try discriminate;
    cbn [SFmul xorb]; intros V N.
  1-3: match goal with |- rounds ?x ?z => replace x with (SFR z) by (cbn; ring) end;
       now apply rounds_exact.
  apply round_aux_rounds; try assumption; try lia; [| now left].
  cbn. rewrite Pos2Z.inj_mul, mult_IZR, bpow_opp, bpow_add.
  pose proof (bpow_gt_0 e1). pose proof (bpow_gt_0 e2). field. split; lra.
Qed.

Lemma SFadd_rounds (z1 z2 : spec_float) :
  nn z1 = true -> nn z2 = true ->
  valid_binary z1 = true -> valid_binary z2 = true ->
  valid_binary (SFadd prec emax z1 z2) = true ->
  nn (SFadd prec emax z1 z2) = true ->
  rounds (SFR z1 + SFR z2) (SFadd prec emax z1 z2).
Proof.
  intros N1 N2 V1 V2.
  destruct z1 as [s1 | s1 | | [] m1 e1]; try discriminate;
    destruct z2 as [s2 | s2 | | [] m2 e2]; try discriminate;
    cbn [SFadd cond_Zopp]; intros V N.
  1-3: match goal with |- rounds ?x ?z => replace x with (SFR z) end;
       [now apply rounds_exact | cbn [SFR]; try ring ].
  - destruct s1, s2; cbn; ring.
  - set (ez := Z.min e1 e2) in *.
    rewrite !shl_align_fst in * by (unfold ez; lia).
    match goal with |- rounds ?x (binary_normalize _ _ ?n _ _) =>
      replace x with (IZR n * bpow ez) end.
    + apply binary_normalize_rounds; try assumption.
      assert (0 < 2 ^ (e1 - ez))%Z by (apply Z.pow_pos_nonneg; unfold ez; lia).
      assert (0 < 2 ^ (e2 - ez))%Z by (apply Z.pow_pos_nonneg; unfold ez; lia).
      lia.
    + cbn [SFR]. rewrite plus_IZR, !mult_IZR, <- !bpow_IZR by (unfold ez; lia).
      rewrite Rmult_plus_distr_r, !Rmult_assoc, <- !bpow_add.
      replace (e1 - ez + ez)%Z with e1 by lia.
      replace (e2 - ez + ez)%Z with e2 by lia. reflexivity.
Qed.

(** The position of a remainder, as the division computes it. *)
Lemma new_location_located (nb k q : Z) :
  (0 <= k < nb)%Z ->
  located (IZR q + IZR k / IZR nb) q (new_location nb k).
Proof.
  intros Hk.
  assert (Hnb : 0 < IZR nb) by (apply IZR_lt; lia).
  set (u := IZR k / IZR nb).
  assert (Hu : u * IZR nb = IZR k) by (unfold u; field; lra).
  assert (Hk0 : 0 <= IZR k) by (apply IZR_le; lia).
  assert (Hlt : IZR k < IZR nb) by (apply IZR_lt; lia).
  clearbody u.
  unfold new_location.
  destruct (Z.even nb) eqn:Ev; unfold new_location_even, new_location_odd;
    destruct (Z.eqb_spec k 0) as [-> | Hne].
  - assert (u = 0) by (apply Rmult_integral in Hu as [? | ?]; lra). cbn; lra.
  - assert (Hk1 : 1 <= IZR k) by (apply IZR_le; lia).
    destruct (Z.compare_spec (2 * k) nb) as [E | E | E]; cbn.
    + apply (f_equal IZR) in E. rewrite mult_IZR in E. rewrite <- E in Hu.
      assert (Hz : (2 * u - 1) * IZR k = 0).
      { replace ((2 * u - 1) * IZR k) with (u * (2 * IZR k) - IZR k) by ring.
        rewrite Hu. ring. }
      apply Rmult_integral in Hz as [? | ?]; lra.
    + apply IZR_lt in E. rewrite mult_IZR in E. nra.
    + apply IZR_lt in E. rewrite mult_IZR in E. nra.
  - assert (u = 0) by (apply Rmult_integral in Hu as [? | ?]; lra). cbn; lra.
  - assert (Hk1 : 1 <= IZR k) by (apply IZR_le; lia).
    assert (Hodd : (2 * k <> nb)%Z).
    { intros <-. rewrite Z.even_mul in Ev. discriminate. }
    destruct (Z.compare_spec (2 * k + 1) nb) as [E | E | E]; cbn.
    + assert (E' : (2 * k < nb)%Z) by lia.
      apply IZR_lt in E'. rewrite mult_IZR in E'. nra.
    + assert (E' : (2 * k < nb)%Z) by lia.
      apply IZR_lt in E'. rewrite mult_IZR in E'. nra.
    + assert (E' : (nb < 2 * k)%Z) by lia.
      apply IZR_lt in E'. rewrite mult_IZR in E'. nra.
Qed.


(** The quotient the division hands to the rounding. *)
Lemma SFdiv_core_located (m1 m2 : positive) (e1 e2 : Z) :
  let x := IZR (Z.pos m1) * bpow e1 / (IZR (Z.pos m2) * bpow e2) in
  let '(q, e', l) := SFdiv_core_binary prec emax (Z.pos m1) e1 (Z.pos m2) e2 in
  (0 <= q)%Z
  /\ located (x * bpow (- e')) q l
  /\ ((e' <= -1074)%Z \/ bpow (e' + 52) <= x).
Proof.
  intros x. unfold SFdiv_core_binary.
  set (d1 := Zdigits2 (Z.pos m1)). set (d2 := Zdigits2 (Z.pos m2)).
  set (e' := Z.min (fexp prec emax (d1 + e1 - (d2 + e2))) (e1 - e2)).
  set (s := (e1 - e2 - e')%Z).
  assert (Hs : (0 <= s)%Z) by (unfold s, e'; lia).
  set (m' := match s with
             | 0%Z => Z.pos m1
             | Z.pos _ => Z.shiftl (Z.pos m1) s
             | Z.neg _ => 0%Z
             end).
  assert (Em' : m' = (Z.pos m1 * 2 ^ s)%Z).
  { unfold m'. destruct s as [| p | p] eqn:Es; try lia.
    now rewrite Z.shiftl_mul_pow2 by lia. }
  pose proof (Z_div_mod m' (Z.pos m2) ltac:(lia)) as Hdiv.
  destruct (Z.div_eucl m' (Z.pos m2)) as [q r]. destruct Hdiv as [Hqr Hr].
  assert (H2s : (0 < 2 ^ s)%Z) by (apply Z.pow_pos_nonneg; lia).
  assert (Hq : (0 <= q)%Z) by nia.
  pose proof (bpow_gt_0 e1) as B1. pose proof (bpow_gt_0 e2) as B2.
  assert (P1 : 0 < IZR (Z.pos m1)) by (apply IZR_lt; lia).
  assert (P2 : 0 < IZR (Z.pos m2)) by (apply IZR_lt; lia).
  split; [exact Hq |]. split.
  - replace (x * bpow (- e')) with (IZR q + IZR r / IZR (Z.pos m2)).
    + now apply new_location_located.
    + assert (E : IZR m' = IZR (Z.pos m2) * IZR q + IZR r)
        by (rewrite Hqr, plus_IZR, mult_IZR; reflexivity).
      rewrite Em', mult_IZR, <- bpow_IZR in E by lia.
      transitivity (IZR (Z.pos m1) * bpow s / IZR (Z.pos m2)).
      * rewrite E. field. lra.
      * assert (Ee : bpow e1 = bpow s * bpow e2 * bpow e').
        { rewrite <- !bpow_add. f_equal. unfold s. lia. }
        unfold x. rewrite Ee, bpow_opp.
        pose proof (bpow_gt_0 e'). pose proof (bpow_gt_0 s).
        field. repeat split; lra.
  - destruct (Z_le_gt_dec e' (-1074)) as [Hle | Hgt]; [now left | right].
    assert (He' : (e' + 52 <= d1 + e1 - (d2 + e2) - 1)%Z)
      by (unfold e' in *; rewrite fexp_eq in *; lia).
    eapply Rle_trans; [apply bpow_le, He' |].
    destruct (digits_bounds m1) as [L1 _]. destruct (digits_bounds m2) as [_ U2].
    change (Z.pos (digits2_pos m1)) with d1 in L1.
    change (Z.pos (digits2_pos m2)) with d2 in U2.
    replace (d1 + e1 - (d2 + e2) - 1)%Z with ((d1 - 1) + e1 + - (d2 + e2))%Z by lia.
    rewrite !bpow_add, bpow_opp, bpow_add. unfold x, Rdiv.
    pose proof (bpow_gt_0 (d1 - 1)) as B3. pose proof (bpow_gt_0 d2) as B4.
    assert (Hinv : / (bpow d2 * bpow e2) <= / (IZR (Z.pos m2) * bpow e2)).
    { apply Rinv_le_contravar; [apply Rmult_lt_0_compat; lra |].
      apply Rmult_le_compat_r; lra. }
    assert (0 < / (bpow d2 * bpow e2)).
    { apply Rinv_0_lt_compat, Rmult_lt_0_compat; lra. }
    apply Rmult_le_compat; try lra.
    + apply Rmult_le_pos; lra.
    + apply Rmult_le_compat_r; lra.
Qed.

Lemma SFdiv_rounds (z1 : spec_float) (m2 : positive) (e2 : Z) :
  nn z1 = true ->
  valid_binary (SFdiv prec emax z1 (S754_finite false m2 e2)) = true ->
  nn (SFdiv prec emax z1 (S754_finite false m2 e2)) = true ->
  rounds (SFR z1 / SFR (S754_finite false m2 e2))
         (SFdiv prec emax z1 (S754_finite false m2 e2)).
Proof.
  intros N1.
  destruct z1 as [s1 | s1 | | [] m1 e1]; try discriminate; cbn [SFdiv xorb]; intros V N.
  - match goal with |- rounds ?x ?z => replace x with (SFR z) end;
      [now apply rounds_exact |].
    cbn [SFR]. unfold Rdiv. ring.
  - pose proof (SFdiv_core_located m1 m2 e1 e2) as H. cbv zeta in H.
    destruct (SFdiv_core_binary prec emax (Z.pos m1) e1 (Z.pos m2) e2) as [[q e'] l].
    destruct H as (Hq & Hl & Hinv).
    apply round_aux_rounds; try assumption. now right.
Qed.


(** ** Primitive floats *)

#[local] Open Scope float_scope.


Lemma leb_of_le (a b : float) :
  nnf a = true -> nnf b = true -> (F2R a <= F2R b)%R -> (a <=? b) = true.
Proof.
  intros Na Nb H. rewrite leb_spec.
  apply SFleb_of_le; auto using Prim2SF_valid.
Qed.

Lemma le_of_leb (a b : float) :
  nnf a = true -> nnf b = true -> (a <=? b) = true -> (F2R a <= F2R b)%R.
Proof.
  intros Na Nb H. rewrite leb_spec in H.
  apply SFleb_le; auto using Prim2SF_valid.
Qed.

Lemma F2R_nonneg (a : float) : nnf a = true -> (0 <= F2R a)%R.
Proof. apply SFR_nn_ge_0. Qed.

(** Two non-negative floats with the same value are both zero or the
    same float. *)
Lemma F2R_eq (a b : float) :
  nnf a = true -> nnf b = true -> F2R a = F2R b -> F2R a = 0%R \/ a = b.
Proof.
  unfold nnf, F2R. intros Na Nb H.
  pose proof (Prim2SF_valid a) as Va. pose proof (Prim2SF_valid b) as Vb.
  destruct (Prim2SF a) as [sa | sa | | [] ma ea] eqn:Ea; try discriminate;
    destruct (Prim2SF b) as [sb | sb | | [] mb eb] eqn:Eb; try discriminate;
    try (left; cbn in *; lra).
  right. destruct (SFR_inj _ _ _ _ Va Vb H) as [-> ->].
  apply Prim2SF_inj. now rewrite Ea, Eb.
Qed.

Lemma SFmul_comm (z1 z2 : spec_float) : SFmul prec emax z1 z2 = SFmul prec emax z2 z1.
Proof.
  destruct z1 as [s1 | s1 | | s1 m1 e1], z2 as [s2 | s2 | | s2 m2 e2]; cbn;
    rewrite ?(xorb_comm s1 s2), ?(Pos.mul_comm m1 m2), ?(Z.add_comm e1 e2); reflexivity.
Qed.

Lemma mul_comm (a b : float) : a * b = b * a.
Proof. apply Prim2SF_inj. rewrite !mul_spec. apply SFmul_comm. Qed.

Lemma mul_rounds (a c : float) :
  nnf a = true -> nnf c = true -> nnf (a * c) = true ->
  rounds (F2R a * F2R c) (Prim2SF (a * c)).
Proof.
  unfold nnf, F2R. intros Na Nc N. pose proof (Prim2SF_valid (a * c)) as V.
  rewrite mul_spec in *. now apply SFmul_rounds.
Qed.

Lemma mul_zero_l (a c : float) :
  nnf a = true -> nnf c = true -> F2R a = 0%R -> F2R (a * c) = 0%R.
Proof.
  unfold nnf, F2R. intros Na Nc H. rewrite mul_spec.
  destruct (SFR_zero_value _ Na H) as [s ->].
  destruct (Prim2SF c) as [sc | sc | | [] mc ec]; try discriminate; reflexivity.
Qed.

Lemma mul_zero_r (a c : float) :
  nnf a = true -> nnf c = true -> F2R c = 0%R -> F2R (a * c) = 0%R.
Proof. intros Na Nc H. rewrite mul_comm. now apply mul_zero_l. Qed.

Lemma mul_mono_r (a b c : float) :
  nnf a = true -> nnf b = true -> nnf c = true ->
  nnf (a * c) = true -> nnf (b * c) = true ->
  (F2R a <= F2R b)%R -> (F2R (a * c) <= F2R (b * c))%R.
Proof.
  intros Na Nb Nc Nac Nbc H.
  pose proof (F2R_nonneg c Nc) as Hc.
  apply (rounds_le (F2R a * F2R c) (F2R b * F2R c)); try now apply mul_rounds.
  - now apply Rmult_le_compat_r.
  - intros E.
    assert (Hz : ((F2R a - F2R b) * F2R c = 0)%R) by (rewrite Rmult_minus_distr_r; lra).
    apply Rmult_integral in Hz as [Hz | Hz].
    + destruct (F2R_eq a b Na Nb ltac:(lra)) as [H0 | ->]; [| lra].
      fold (F2R (a * c)). fold (F2R (b * c)).
      rewrite !mul_zero_l by (auto; lra). lra.
    + fold (F2R (a * c)). fold (F2R (b * c)).
      rewrite !mul_zero_r by auto. lra.
Qed.

Lemma mul_mono_l (a b c : float) :
  nnf a = true -> nnf b = true -> nnf c = true ->
  nnf (c * a) = true -> nnf (c * b) = true ->
  (F2R a <= F2R b)%R -> (F2R (c * a) <= F2R (c * b))%R.
Proof. rewrite !(mul_comm c). apply mul_mono_r. Qed.

Lemma add_rounds (a b : float) :
  nnf a = true -> nnf b = true -> nnf (a + b) = true ->
  rounds (F2R a + F2R b) (Prim2SF (a + b)).
Proof.
  unfold nnf, F2R. intros Na Nb N. pose proof (Prim2SF_valid (a + b)) as V.
  rewrite add_spec in *. apply SFadd_rounds; auto using Prim2SF_valid.
Qed.

Lemma add_zero_l (a b : float) :
  nnf a = true -> nnf b = true -> F2R a = 0%R -> F2R (a + b) = F2R b.
Proof.
  unfold nnf, F2R. intros Na Nb H. rewrite add_spec.
  destruct (SFR_zero_value _ Na H) as [s ->].
  destruct (Prim2SF b) as [sb | sb | | [] mb eb]; try discriminate; [| reflexivity].
  now destruct s, sb.
Qed.

Lemma add_zero_r (a b : float) :
  nnf a = true -> nnf b = true -> F2R b = 0%R -> F2R (a + b) = F2R a.
Proof.
  unfold nnf, F2R. intros Na Nb H. rewrite add_spec.
  destruct (SFR_zero_value _ Nb H) as [s ->].
  destruct (Prim2SF a) as [sa | sa | | [] ma ea]; try discriminate; [| reflexivity].
  now destruct s, sa.
Qed.

Lemma add_mono (a a' b b' : float) :
  nnf a = true -> nnf a' = true -> nnf b = true -> nnf b' = true ->
  nnf (a + b) = true -> nnf (a' + b') = true ->
  (F2R a <= F2R a')%R -> (F2R b <= F2R b')%R ->
  (F2R (a + b) <= F2R (a' + b'))%R.
Proof.
  intros Na Na' Nb Nb' N N' Ha Hb.
  apply (rounds_le (F2R a + F2R b) (F2R a' + F2R b')); try now apply add_rounds.
  - lra.
  - intros E. fold (F2R (a + b)). fold (F2R (a' + b')).
    destruct (F2R_eq a a' Na Na' ltac:(lra)) as [H0 | ->].
    + rewrite !add_zero_l by (auto; lra). lra.
    + destruct (F2R_eq b b' Nb Nb' ltac:(lra)) as [H0 | ->]; [| lra].
      rewrite !add_zero_r by (auto; lra). lra.
Qed.

Lemma div_rounds (a c : float) (m : positive) (e : Z) :
  nnf a = true -> Prim2SF c = S754_finite false m e -> nnf (a / c) = true ->
  rounds (F2R a / F2R c) (Prim2SF (a / c)).
Proof.
  unfold nnf, F2R. intros Na Ec N. pose proof (Prim2SF_valid (a / c)) as V.
  rewrite div_spec, Ec in *. now apply SFdiv_rounds.
Qed.

Lemma div_zero_l (a c : float) (m : positive) (e : Z) :
  nnf a = true -> Prim2SF c = S754_finite false m e ->
  F2R a = 0%R -> F2R (a / c) = 0%R.
Proof.
  unfold nnf, F2R. intros Na Ec H. rewrite div_spec, Ec.
  destruct (SFR_zero_value _ Na H) as [s ->]. reflexivity.
Qed.

Lemma div_mono (a b c : float) (m : positive) (e : Z) :
  nnf a = true -> nnf b = true -> Prim2SF c = S754_finite false m e ->
  nnf (a / c) = true -> nnf (b / c) = true ->
  (F2R a <= F2R b)%R -> (F2R (a / c) <= F2R (b / c))%R.
Proof.
  intros Na Nb Ec Nac Nbc H.
  assert (Hc : (0 < F2R c)%R) by (unfold F2R; rewrite Ec; apply SFR_finite_pos).
  apply (rounds_le (F2R a / F2R c) (F2R b / F2R c)); try now apply (div_rounds _ _ m e).
  - apply Rmult_le_compat_r; [| exact H]. apply Rlt_le, Rinv_0_lt_compat, Hc.
  - intros E. fold (F2R (a / c)). fold (F2R (b / c)).
    assert (Eab : F2R a = F2R b).
    { apply Rmult_eq_reg_r with (/ F2R c)%R; [exact E |].
      apply Rinv_neq_0_compat. lra. }
    destruct (F2R_eq a b Na Nb Eab) as [H0 | ->]; [| lra].
    rewrite !(div_zero_l _ c m e) by (auto; lra). lra.
Qed.


(** ** [Math.round] *)


Lemma round_target_spec (z : spec_float) :
  nn z = true ->
  (IZR (round_target z) <= SFR z + / 2 < IZR (round_target z) + 1)%R.
Proof.
  destruct z as [s | s | | [] m e]; try discriminate; intros _; cbn [round_target SFR].
  1: lra.
  destruct (Z.leb_spec 0 e) as [He | He].
  - rewrite mult_IZR, <- bpow_IZR by lia. lra.
  - set (d := (2 ^ (- e))%Z).
    assert (Hd : (0 < d)%Z) by (apply Z.pow_pos_nonneg; lia).
    assert (Ed : bpow e = (/ IZR d)%R).
    { unfold d. rewrite <- bpow_IZR by lia. rewrite bpow_opp, Rinv_inv. reflexivity. }
    pose proof (Z.mul_div_le (2 * Z.pos m + d) (2 * d) ltac:(lia)) as Hlo.
    pose proof (Z.mul_succ_div_gt (2 * Z.pos m + d) (2 * d) ltac:(lia)) as Hhi.
    set (n := ((2 * Z.pos m + d) / (2 * d))%Z) in *.
    clearbody n. clearbody d.
    assert (Hlo' : (2 * IZR d * IZR n <= 2 * IZR (Z.pos m) + IZR d)%R).
    { rewrite <- !mult_IZR, <- plus_IZR. apply IZR_le. lia. }
    assert (Hhi' : (2 * IZR (Z.pos m) + IZR d < 2 * IZR d * (IZR n + 1))%R).
    { rewrite <- (plus_IZR n 1), <- !mult_IZR, <- plus_IZR. apply IZR_lt. lia. }
    assert (HD : (0 < IZR d)%R) by (apply IZR_lt; lia).
    rewrite Ed.
    assert (E : (IZR (Z.pos m) * / IZR d + / 2
                 = (2 * IZR (Z.pos m) + IZR d) * / (2 * IZR d))%R) by (field; lra).
    rewrite E.
    split.
    + apply Rmult_le_reg_r with (2 * IZR d)%R; [lra |].
      rewrite Rmult_assoc, Rinv_l by lra. lra.
    + apply Rmult_lt_reg_r with (2 * IZR d)%R; [lra |].
      rewrite Rmult_assoc, Rinv_l by lra. lra.
Qed.

Lemma round_target_mono (z1 z2 : spec_float) :
  nn z1 = true -> nn z2 = true -> (SFR z1 <= SFR z2)%R ->
  (round_target z1 <= round_target z2)%Z.
Proof.
  intros N1 N2 H.
  pose proof (round_target_spec z1 N1) as [L1 _].
  pose proof (round_target_spec z2 N2) as [_ U2].
  assert (Hlt : (IZR (round_target z1) < IZR (round_target z2 + 1))%R)
    by (rewrite plus_IZR; lra).
  apply lt_IZR in Hlt. lia.
Qed.

Lemma round_target_nonneg (z : spec_float) : (0 <= round_target z)%Z.
Proof.
  destruct z as [s | s | | [] m e]; cbn [round_target]; try lia.
  destruct (0 <=? e)%Z eqn:E.
  - apply Z.leb_le in E. assert (0 < 2 ^ e)%Z by (apply Z.pow_pos_nonneg; lia). nia.
  - apply Z.leb_gt in E. assert (0 < 2 ^ (- e))%Z by (apply Z.pow_pos_nonneg; lia).
    apply Z.div_pos; lia.
Qed.

(** [Math.round] either returns its argument, which is then an integer,
    or converts the integer it computed, which is at most [2^53]. *)
Lemma Math_round_cases (x : float) :
  nnf x = true ->
  (JS.Math_round x = x /\ F2R x = IZR (round_target (Prim2SF x)))
  \/ ((round_target (Prim2SF x) <= 2 ^ 53)%Z
      /\ JS.Math_round x
         = if (round_target (Prim2SF x) =? 0)%Z then zero
           else JS.of_Z (round_target (Prim2SF x))).
Proof.
  unfold nnf, F2R, JS.Math_round. pose proof (Prim2SF_valid x) as V.
  destruct (Prim2SF x) as [s | s | | [] m e]; try discriminate; intros _.
  - left. split; reflexivity.
  - cbn [round_target SFR]. destruct (Z.leb_spec 0 e) as [He | He].
    + left. split; [reflexivity |].
      now rewrite mult_IZR, <- bpow_IZR by lia.
    + right. split; [| reflexivity].
      apply valid_finite in V as (_ & Hd & _).
      destruct (digits_bounds m) as [_ Hm].
      assert (Hm' : (Z.pos m < 2 ^ 53)%Z).
      { apply lt_IZR. rewrite <- bpow_IZR by lia.
        eapply Rlt_le_trans; [exact Hm |]. now apply bpow_le. }
      set (d := (2 ^ (- e))%Z).
      assert (Hd0 : (0 < d)%Z) by (apply Z.pow_pos_nonneg; lia).
      clearbody d. apply Z.div_le_upper_bound; nia.
Qed.

Lemma Prim2SF_of_Z (n : Z) :
  (0 < n < 2 ^ 63)%Z ->
  Prim2SF (JS.of_Z n) = binary_normalize prec emax n 0 false.
Proof.
  intros Hn. unfold JS.of_Z.
  destruct (Z.ltb_spec n 0) as [? | _]; [lia |].
  rewrite of_uint63_spec, Uint63.of_Z_spec, Z.abs_eq by lia.
  rewrite Z.mod_small; [reflexivity |]. change Uint63.wB with (2 ^ 63)%Z. lia.
Qed.

Lemma Math_round_rounds (x : float) :
  nnf x = true -> nnf (JS.Math_round x) = true ->
  rounds (IZR (round_target (Prim2SF x))) (Prim2SF (JS.Math_round x)).
Proof.
  intros Nx Nr. pose proof (Prim2SF_valid (JS.Math_round x)) as Vr.
  destruct (Math_round_cases x Nx) as [[E Ev] | [Hb E]].
  - rewrite <- Ev, E. apply rounds_exact; [apply Prim2SF_valid | exact Nx].
  - unfold nnf in Nr. rewrite E in *.
    destruct (Z.eqb_spec (round_target (Prim2SF x)) 0) as [-> | Hne].
    + change (IZR 0) with (SFR (Prim2SF zero)). now apply rounds_exact.
    + pose proof (round_target_nonneg (Prim2SF x)) as H0.
      rewrite Prim2SF_of_Z in * by lia.
      replace (IZR (round_target (Prim2SF x)))
        with (IZR (round_target (Prim2SF x)) * bpow 0)%R by (rewrite bpow_0; ring).
      apply binary_normalize_rounds; [lia | assumption | assumption].
Qed.

Lemma Math_round_mono (x y : float) :
  nnf x = true -> nnf y = true ->
  nnf (JS.Math_round x) = true -> nnf (JS.Math_round y) = true ->
  (F2R x <= F2R y)%R ->
  (F2R (JS.Math_round x) <= F2R (JS.Math_round y))%R.
Proof.
  intros Nx Ny Nrx Nry H.
  pose proof (round_target_mono _ _ Nx Ny H) as Ht.
  pose proof (Math_round_rounds x Nx Nrx) as Rx.
  pose proof (Math_round_rounds y Ny Nry) as Ry.
  apply (rounds_le _ _ _ _ Rx Ry); [now apply IZR_le |].
  intros E. apply eq_IZR in E.
  fold (F2R (JS.Math_round x)). fold (F2R (JS.Math_round y)).
  destruct (Math_round_cases x Nx) as [[Ex Evx] | [_ Ex]],
           (Math_round_cases y Ny) as [[Ey Evy] | [_ Ey]].
  - rewrite Ex, Ey. exact H.
  - assert (Ry' : rounds (SFR (Prim2SF x)) (Prim2SF (JS.Math_round y))).
    { unfold F2R in Evx. rewrite Evx, E. exact Ry. }
    pose proof (rounds_representable _ _ Ry' (Prim2SF_valid x) Nx) as Heq.
    unfold F2R. rewrite Ex, Heq. lra.
  - assert (Rx' : rounds (SFR (Prim2SF y)) (Prim2SF (JS.Math_round x))).
    { unfold F2R in Evy. rewrite Evy, <- E. exact Rx. }
    pose proof (rounds_representable _ _ Rx' (Prim2SF_valid y) Ny) as Heq.
    unfold F2R. rewrite Ey, Heq. lra.
  - rewrite Ex, Ey, E. lra.
Qed.


(** ** Finite results come from finite operands *)

Lemma is_finite_fin (x : float) : is_finite x = true -> fin (Prim2SF x) = true.
Proof.
  unfold is_finite, is_nan, is_infinity. rewrite !eqb_spec, abs_spec.
  change (Prim2SF infinity) with (S754_infinity false).
  destruct (Prim2SF x) as [s | [] | | s m e]; intros H;
    try reflexivity; cbn in H; discriminate.
Qed.

Lemma nn_fin (z : spec_float) : nn z = true -> fin z = true.
Proof. now destruct z as [s | s | | [] m e]. Qed.

Lemma SFmul_fin (z1 z2 : spec_float) :
  fin (SFmul prec emax z1 z2) = true -> fin z1 = true /\ fin z2 = true.
Proof.
  destruct z1 as [s1 | s1 | | s1 m1 e1], z2 as [s2 | s2 | | s2 m2 e2];
    cbn [SFmul fin]; intros H; try discriminate; split; reflexivity.
Qed.

Lemma SFadd_fin (z1 z2 : spec_float) :
  fin (SFadd prec emax z1 z2) = true -> fin z1 = true /\ fin z2 = true.
Proof.
  destruct z1 as [s1 | s1 | | s1 m1 e1], z2 as [s2 | s2 | | s2 m2 e2];
    cbn [SFadd fin]; intros H; try discriminate; try (split; reflexivity);
    destruct s1, s2; discriminate.
Qed.

Lemma SFdiv_fin (z1 z2 : spec_float) :
  fin (SFdiv prec emax z1 z2) = true -> fin z1 = true.
Proof.
  destruct z1 as [s1 | s1 | | s1 m1 e1], z2 as [s2 | s2 | | s2 m2 e2];
    cbn [SFdiv fin]; intros H; try discriminate; reflexivity.
Qed.

Lemma mul_fin (a b : float) :
  fin (Prim2SF (a * b)) = true -> fin (Prim2SF a) = true /\ fin (Prim2SF b) = true.
Proof. rewrite mul_spec. apply SFmul_fin. Qed.

Lemma add_fin (a b : float) :
  fin (Prim2SF (a + b)) = true -> fin (Prim2SF a) = true /\ fin (Prim2SF b) = true.
Proof. rewrite add_spec. apply SFadd_fin. Qed.

Lemma div_fin (a b : float) :
  fin (Prim2SF (a / b)) = true -> fin (Prim2SF a) = true.
Proof. rewrite div_spec. apply SFdiv_fin. Qed.

Lemma Math_round_fin (x : float) :
  fin (Prim2SF (JS.Math_round x)) = true -> fin (Prim2SF x) = true.
Proof.
  unfold JS.Math_round.
  destruct (Prim2SF x) as [s | s | | s m e] eqn:E; try reflexivity; now rewrite E.
Qed.

(** ** The sign of the results *)

Lemma round_aux_nn (m e : Z) (l : location) :
  fin (binary_round_aux prec emax false m e l) = true ->
  nn (binary_round_aux prec emax false m e l) = true.
Proof.
  unfold binary_round_aux.
  destruct (shr_fexp prec emax m e l) as [mrs1 e1].
  destruct (shr_fexp prec emax _ e1 loc_Exact) as [mrs2 e2].
  destruct (shr_m mrs2); [reflexivity | | discriminate].
  now destruct (e2 <=? emax - prec)%Z.
Qed.

Lemma binary_normalize_nn (n e : Z) :
  (0 < n)%Z ->
  fin (binary_normalize prec emax n e false) = true ->
  nn (binary_normalize prec emax n e false) = true.
Proof.
  destruct n as [| p | p]; try lia. intros _.
  unfold binary_normalize, binary_round.
  destruct (shl_align p e _) as [mz ez]. apply round_aux_nn.
Qed.

Lemma mul_nn (a b : float) :
  nnf a = true -> nnf b = true -> fin (Prim2SF (a * b)) = true -> nnf (a * b) = true.
Proof.
  unfold nnf. rewrite mul_spec. unfold SF64mul.
  destruct (Prim2SF a) as [s1 | s1 | | [] m1 e1]; try discriminate;
    destruct (Prim2SF b) as [s2 | s2 | | [] m2 e2]; try discriminate;
    intros _ _; cbn [SFmul xorb]; try reflexivity.
  apply round_aux_nn.
Qed.

Lemma add_nn (a b : float) :
  nnf a = true -> nnf b = true -> fin (Prim2SF (a + b)) = true -> nnf (a + b) = true.
Proof.
  unfold nnf. rewrite add_spec. unfold SF64add.
  destruct (Prim2SF a) as [s1 | s1 | | [] m1 e1]; try discriminate;
    destruct (Prim2SF b) as [s2 | s2 | | [] m2 e2]; try discriminate;
    intros _ _; cbn [SFadd cond_Zopp]; try reflexivity.
  - now destruct s1, s2.
  - apply binary_normalize_nn. apply Z.add_pos_pos; reflexivity.
Qed.

Lemma div_nn (a c : float) (m : positive) (e : Z) :
  nnf a = true -> Prim2SF c = S754_finite false m e ->
  fin (Prim2SF (a / c)) = true -> nnf (a / c) = true.
Proof.
  unfold nnf. rewrite div_spec. unfold SF64div. intros Na ->.
  destruct (Prim2SF a) as [s1 | s1 | | [] m1 e1]; try discriminate;
    cbn [SFdiv xorb]; try reflexivity.
  destruct (SFdiv_core_binary prec emax (Z.pos m1) e1 (Z.pos m) e) as [[q e'] l].
  apply round_aux_nn.
Qed.

Lemma Math_round_nn (x : float) :
  nnf x = true -> fin (Prim2SF (JS.Math_round x)) = true ->
  nnf (JS.Math_round x) = true.
Proof.
  intros Nx. destruct (Math_round_cases x Nx) as [[-> _] | [Hb ->]]; [now intros _ |].
  destruct (Z.eqb_spec (round_target (Prim2SF x)) 0) as [_ | Hne]; [reflexivity |].
  pose proof (round_target_nonneg (Prim2SF x)).
  unfold nnf. rewrite Prim2SF_of_Z by lia.
  apply binary_normalize_nn. lia.
Qed.

(** ** Comparisons with zero *)

Lemma leb_zero_nn (x : float) :
  (0 <=? x) = true -> fin (Prim2SF x) = true -> nnf x = true.
Proof.
  unfold nnf. rewrite leb_spec. change (Prim2SF 0) with (S754_zero false).
  destruct (Prim2SF x) as [s | s | | [] m e]; cbn; try reflexivity; discriminate.
Qed.

Lemma ltb_zero_nn (x : float) :
  (0 <? x) = true -> fin (Prim2SF x) = true -> nnf x = true.
Proof.
  unfold nnf. rewrite ltb_spec. change (Prim2SF 0) with (S754_zero false).
  destruct (Prim2SF x) as [s | s | | [] m e]; cbn; try reflexivity; discriminate.
Qed.

Lemma ltb_nn (a b : float) :
  (a <? b) = true -> nnf a = true -> fin (Prim2SF b) = true ->
  nnf b = true /\ (F2R a <= F2R b)%R.
Proof.
  intros Hlt Na Fb.
  assert (Hle : (a <=? b) = true).
  { rewrite leb_spec. rewrite ltb_spec in Hlt. unfold SFltb, SFleb in *.
    now destruct (SFcompare (Prim2SF a) (Prim2SF b)) as [[] |]. }
  assert (Nb : nnf b = true).
  { unfold nnf in *. rewrite ltb_spec in Hlt.
    destruct (Prim2SF a) as [s1 | s1 | | [] m1 e1]; try discriminate;
      destruct (Prim2SF b) as [s2 | s2 | | [] m2 e2]; try discriminate; reflexivity. }
  split; [exact Nb | now apply le_of_leb].
Qed.

(** ** Sums and products are not below their operands *)

Lemma F2R_one : F2R 1 = 1%R.
Proof.
  unfold F2R. change (Prim2SF 1) with (S754_finite false 4503599627370496 (-52)).
  cbn [SFR]. change (-52)%Z with (- (52))%Z. rewrite bpow_opp, bpow_IZR by lia.
  change (2 ^ 52)%Z with 4503599627370496%Z.
  apply Rinv_r. apply not_0_IZR. discriminate.
Qed.

Lemma add_ge_l (a b : float) :
  nnf a = true -> nnf b = true -> nnf (a + b) = true ->
  (F2R a <= F2R (a + b))%R.
Proof.
  intros Na Nb N. pose proof (F2R_nonneg b Nb) as Hb.
  apply (rounds_le (F2R a) (F2R a + F2R b)).
  - apply rounds_exact; [apply Prim2SF_valid | exact Na].
  - now apply add_rounds.
  - lra.
  - intros E. fold (F2R (a + b)). rewrite add_zero_r by (auto; lra). apply Rle_refl.
Qed.

Lemma mul_ge_l (a c : float) :
  nnf a = true -> nnf c = true -> nnf (a * c) = true ->
  (1 <= F2R c)%R -> (F2R a <= F2R (a * c))%R.
Proof.
  intros Na Nc N Hc. pose proof (F2R_nonneg a Na) as Ha.
  pose proof (mul_rounds a c Na Nc N) as Rac.
  apply (rounds_le (F2R a) (F2R a * F2R c)).
  - apply rounds_exact; [apply Prim2SF_valid | exact Na].
  - exact Rac.
  - nra.
  - intros E. rewrite <- E in Rac.
    rewrite (rounds_representable _ _ Rac (Prim2SF_valid a) Na). apply Rle_refl.
Qed.

(** ** Rounding to cents *)

Lemma cents_nn (x : float) :
  nnf x = true -> fin (Prim2SF (GoldPriceCalculator.cents x)) = true ->
  nnf (x * 100) = true /\ nnf (JS.Math_round (x * 100)) = true
  /\ nnf (GoldPriceCalculator.cents x) = true.
Proof.
  unfold GoldPriceCalculator.cents. intros Nx F.
  pose proof (div_fin _ _ F) as Fr.
  pose proof (Math_round_fin _ Fr) as Fs.
  pose proof (mul_nn x 100 Nx eq_refl Fs) as Ns.
  pose proof (Math_round_nn _ Ns Fr) as Nr.
  repeat split; try assumption.
  apply (div_nn _ 100 7036874417766400 (-46)); [assumption | reflexivity | assumption].
Qed.

Lemma cents_mono (x y : float) :
  nnf x = true -> nnf y = true ->
  fin (Prim2SF (GoldPriceCalculator.cents x)) = true ->
  fin (Prim2SF (GoldPriceCalculator.cents y)) = true ->
  (F2R x <= F2R y)%R ->
  (F2R (GoldPriceCalculator.cents x) <= F2R (GoldPriceCalculator.cents y))%R.
Proof.
  intros Nx Ny Fx Fy H.
  destruct (cents_nn x Nx Fx) as (Nsx & Nrx & Nox).
  destruct (cents_nn y Ny Fy) as (Nsy & Nry & Noy).
  unfold GoldPriceCalculator.cents in *.
  apply (div_mono _ _ 100 7036874417766400 (-46)); try assumption; [reflexivity |].
  apply Math_round_mono; try assumption.
  now apply mul_mono_r.
Qed.

End Rounding.

(** ** The pricing function *)

Section Pricing.

Import GoldPriceCalculator.

(** C2.  On the specification's concrete scenario (10.5 g of 24K, making
    charges 7.5 percent, profit margin 15 percent, gold at 3000) the five
    steps of the formula give 31500, 2362.5, 33862.5 and 38941.875, and
    [calculatePrice] returns goldValue 31500.00, makingCharges 2362.50,
    baseCost 33862.50 and sellingPrice 38941.88. *)
Theorem C2_concrete_scenario :
  let product := Sample.item 10.5 "24K" 7.5 15 in
  let gold := 10.5 * 3000 * 1 in
  let making := gold * (7.5 / 100) in
  let base := gold + making in
  let selling := base * (1 + 15 / 100) in
  caratFactor product = JS.Num 1
  /\ gold = 31500 /\ making = 2362.5 /\ base = 33862.5 /\ selling = 38941.875
  /\ calculatePrice product 3000
     = {| goldValue := 31500.00; makingCharges := 2362.50;
          baseCost := 33862.50; sellingPrice := 38941.88 |}.
Proof. vm_compute. repeat split; reflexivity. Qed.

Lemma calculatePrice_unrounded (product : attrs) (g : float) :
  calculatePrice product g
  = {| goldValue := cents (goldValue (unrounded product g));
       makingCharges := cents (makingCharges (unrounded product g));
       baseCost := cents (baseCost (unrounded product g));
       sellingPrice := cents (sellingPrice (unrounded product g)) |}.
Proof. reflexivity. Qed.

Lemma cents_nan : cents nan = nan.
Proof. reflexivity. Qed.

(** A price that is not a number makes every amount NaN. *)
Lemma calculatePrice_nan (product : attrs) :
  calculatePrice product nan
  = {| goldValue := nan; makingCharges := nan; baseCost := nan; sellingPrice := nan |}.
Proof.
  unfold calculatePrice. cbv zeta.
  rewrite mul_nan_r, !mul_nan_l, add_nan_l, ?mul_nan_l, cents_nan.
  reflexivity.
Qed.

(** C3, the input that refutes it.  One gram of 24K at 1.004 with making
    charges of 50 percent: [calculatePrice] adds the unrounded 1.004 and
    0.502 and returns baseCost 1.51, where rounding at each step would add
    1.00 and 0.50 and give 1.50. *)
Lemma C3_stepwise_rounding_differs :
  let product := Sample.item 1 "24K" 50 0 in
  baseCost (calculatePrice product 1.004) = 1.51
  /\ baseCost (Spec.compute_stepwise product 1.004) = 1.5
  /\ calculatePrice product 1.004 <> Spec.compute_stepwise product 1.004.
Proof.
  cbv zeta. repeat split; try (vm_compute; reflexivity).
  intros E. apply (f_equal baseCost) in E. revert E.
  float_discriminate.
Qed.

(** C3, amended.  Each of the four returned amounts is rounded to cents on
    its own, but only in the [return]: the making charges, the base cost
    and the selling price are computed from the unrounded amounts of the
    earlier steps.  Only the gold value, which has no earlier step, agrees
    with rounding at every step. *)
Theorem C3_rounding_at_return (product : attrs) (g : float) :
  let gold := weight product * g * JS.ToNumber (caratFactor product) in
  let making := gold * (making_charges product / 100) in
  let base := gold + making in
  let selling := base * (1 + (profit_margin product / 100)) in
  calculatePrice product g
  = {| goldValue := cents gold; makingCharges := cents making;
       baseCost := cents base; sellingPrice := cents selling |}
  /\ goldValue (Spec.compute_stepwise product g) = goldValue (calculatePrice product g)
  /\ makingCharges (Spec.compute_stepwise product g)
     = cents (cents gold * (making_charges product / 100)).
Proof. repeat split. Qed.

(** C4, the inputs that refute it.  A weight of -1 or 0, a price that is
    negative, zero, infinite or NaN, and negative percentages all get a
    breakdown back and no error. *)
Lemma C4_invalid_input_is_priced :
  call_calculatePrice (Sample.item (-1) "24K" 5 10) 3000
  = Normal {| goldValue := -3000; makingCharges := -150;
              baseCost := -3150; sellingPrice := -3465 |}
  /\ call_calculatePrice (Sample.item 0 "24K" 5 10) 3000
     = Normal {| goldValue := 0; makingCharges := 0; baseCost := 0; sellingPrice := 0 |}
  /\ call_calculatePrice (Sample.item 1 "24K" 5 10) (-3000)
     = Normal {| goldValue := -3000; makingCharges := -150;
                 baseCost := -3150; sellingPrice := -3465 |}
  /\ call_calculatePrice (Sample.item 1 "24K" 5 10) infinity
     = Normal {| goldValue := infinity; makingCharges := infinity;
                 baseCost := infinity; sellingPrice := infinity |}
  /\ call_calculatePrice (Sample.item 1 "24K" (-5) (-10)) 3000
     = Normal {| goldValue := 3000; makingCharges := -150;
                 baseCost := 2850; sellingPrice := 2565 |}.
Proof. vm_compute. repeat split; reflexivity. Qed.

(** C4, amended.  [calculatePrice] validates nothing and has no error
    state at all: every call returns a breakdown, also for a weight that is
    not positive, a price that is not a finite positive number, or negative
    percentages; a NaN price comes back as four NaN amounts. *)
Theorem C4_never_fails (product : attrs) (g : float) :
  call_calculatePrice product g = Normal (calculatePrice product g)
  /\ (forall error, call_calculatePrice product g <> Throw error)
  /\ call_calculatePrice product nan
     = Normal {| goldValue := nan; makingCharges := nan;
                 baseCost := nan; sellingPrice := nan |}.
Proof.
  unfold call_calculatePrice. repeat split.
  - discriminate.
  - now rewrite calculatePrice_nan.
Qed.

(** A label that is neither in the table nor a property of
    [Object.prototype] gets the factor 1. *)
Lemma caratFactor_default (product : attrs) :
  Table.own CARAT_FACTORS (carat product) = None ->
  Table.inherited (carat product) = false ->
  caratFactor product = JS.Num 1.
Proof.
  intros Hown Hinh. unfold caratFactor, Table.get.
  now rewrite Hown, Hinh.
Qed.

(** The default, at the label 99K. *)
Lemma caratFactor_default_99K :
  caratFactor (Sample.item 10 "99K" 5 10) = JS.Num 1.
Proof. apply caratFactor_default; reflexivity. Defined.

(** The specification's example of an unknown label. *)
Lemma unknown_label_99K :
  let product := Sample.item 10 "99K" 5 10 in
  caratFactor product = JS.Num 1
  /\ goldValue (calculatePrice product 3000) = 30000.
Proof. vm_compute. split; reflexivity. Qed.

(** C7, the failing input.  The label ["toString"] is not in the table,
    but the lookup finds the method every object inherits; it is truthy,
    so [|| 1] does not apply, and as a number it is NaN: the gold value is
    NaN where the default factor 1 would give 30000. *)
Theorem C7_inherited_label_is_not_defaulted :
  let product := Sample.item 10 "toString" 5 10 in
  Table.own CARAT_FACTORS (carat product) = None
  /\ caratFactor product = JS.Obj
  /\ calculatePrice product 3000
     = {| goldValue := nan; makingCharges := nan; baseCost := nan; sellingPrice := nan |}
  /\ goldValue (calculatePrice product 3000) <> 30000.
Proof.
  cbv zeta. repeat split; try (vm_compute; reflexivity).
  float_discriminate.
Qed.

End Pricing.

(** ** The two pricing tables *)

Section Tables.

Import GoldPriceCalculator.

(** C9, the label that refutes its last part.  The tables also differ at
    10K, which only the second server lists: the first server prices 10K
    gold with the default factor 1, the second with 0.417. *)
Lemma C9_tables_differ_at_10K :
  let product := Sample.item 10 "10K" 0 0 in
  carat product <> "22K"%string
  /\ First.factor product = JS.Num 1
  /\ caratFactor product = JS.Num 0.417
  /\ First.factor product <> caratFactor product
  /\ First.new_price product 3000 = 30000
  /\ sellingPrice (calculatePrice product 3000) = 12510.
Proof.
  cbv zeta. repeat split; try (vm_compute; reflexivity).
  - discriminate.
  - intros E. assert (H : 1 = 0.417) by (vm_compute in E; congruence).
    revert H. float_discriminate.
Qed.

(** C9, amended.  The pricing functions of the two servers are not
    equivalent.  Their tables give 0.916 and 0.9167 for 22K, so 10 g of 22K
    gold at 3000 without charges sells for 27480 on the first server and
    for 27501 on the second; they also differ at 10K (the default 1 against
    0.417); on every other label the two lookups agree. *)
Theorem C9_tables_agree_except_22K_10K :
  (let product := Sample.item 10 "22K" 0 0 in
   First.factor product = JS.Num 0.916
   /\ caratFactor product = JS.Num 0.9167
   /\ First.new_price product 3000 = 27480
   /\ sellingPrice (calculatePrice product 3000) = 27501
   /\ First.new_price product 3000 <> sellingPrice (calculatePrice product 3000))
  /\ (let product := Sample.item 10 "10K" 0 0 in
      First.factor product = JS.Num 1 /\ caratFactor product = JS.Num 0.417)
  /\ (forall product : attrs,
        carat product <> "22K"%string -> carat product <> "10K"%string ->
        First.factor product = caratFactor product).
Proof.
  split; [| split].
  - cbv zeta. repeat split; try (vm_compute; reflexivity).
    float_discriminate.
  - split; vm_compute; reflexivity.
  - intros product H22 H10.
    unfold First.factor, caratFactor, Table.get, First.caratFactors, CARAT_FACTORS.
    cbn [Table.own].
    repeat match goal with
           | |- context [String.eqb ?k (carat product)] =>
               destruct (String.eqb_spec k (carat product)); try reflexivity
           end; congruence.
Qed.

(** The agreement of the two lookups, at an 18K product. *)
Lemma C9_tables_agree_at_18K :
  First.factor Sample.ring = caratFactor Sample.ring.
Proof.
  apply (proj2 (proj2 C9_tables_agree_except_22K_10K)); discriminate.
Defined.

End Tables.

(** ** The recalculation of a batch *)

Section Batch.

Import GoldPriceCalculator Server.

Variable price : JS.value.

Lemma id_updated_by q p : id (updated_by price q p) = id p.
Proof. unfold updated_by. now destruct (id p =? id q)%Z. Qed.

(** The loop, statement by statement: the gold prices are not touched, the
    history grows by one entry per product of the batch, in order, and the
    products see one update per product of the batch. *)
Lemma reprice_all_spec (batch : list product) :
  forall d : db,
    let (results, d') := reprice_all price batch d in
    gold_prices d' = gold_prices d
    /\ price_history d' = price_history d ++ map (history_of price) batch
    /\ products d' = fold_left (fun rows q => map (updated_by price q) rows) batch (products d)
    /\ map detail_id results = map id batch
    /\ map detail_new_price results = map (new_selling_price price) batch.
Proof.
  induction batch as [| q batch IH]; intros d.
  - cbn. now rewrite app_nil_r.
  - cbn [reprice_all]. unfold bind at 1. unfold reprice at 1.
    unfold bind, ret, Sql.insert_price_history, Sql.update_selling_price. cbn -[reprice_all].
    match goal with |- context [reprice_all _ batch ?d1] => specialize (IH d1) end.
    destruct (reprice_all price batch _) as [rs d'].
    cbn in IH. destruct IH as (Hg & Hh & Hp & Hi & Hn).
    cbn. repeat split.
    + exact Hg.
    + rewrite Hh, <- app_assoc. reflexivity.
    + exact Hp.
    + now rewrite Hi.
    + now rewrite Hn.
Qed.

(** Updating all rows once per product of a batch is updating each row by
    the whole batch. *)
Lemma fold_updates (batch : list product) :
  forall rows : list product,
    fold_left (fun rows q => map (updated_by price q) rows) batch rows
    = map (fun p => fold_left (fun p' q => updated_by price q p') batch p) rows.
Proof.
  induction batch as [| q batch IH]; intros rows; cbn.
  - now rewrite map_id.
  - now rewrite IH, map_map.
Qed.

(** A row whose id occurs in the batch only with the new price [x] ends
    with that price; a row whose id does not occur is left alone. *)
Lemma fold_updated_by (x : float) (batch : list product) :
  forall p : product,
    (forall q, In q batch -> id q = id p -> new_selling_price price q = x) ->
    fold_left (fun p' q => updated_by price q p') batch p
    = if existsb (fun q => id q =? id p)%Z batch
      then Sql.set_selling_price x p else p.
Proof.
  induction batch as [| q batch IH]; intros p Hx; cbn.
  - reflexivity.
  - rewrite IH.
    + rewrite id_updated_by. unfold updated_by.
      rewrite (Z.eqb_sym (id q) (id p)).
      destruct (id p =? id q)%Z eqn:E.
      * apply Z.eqb_eq in E. rewrite (Hx q) by (cbn; auto).
        now destruct (existsb _ batch).
      * reflexivity.
    + intros q' Hin Hid. rewrite id_updated_by in Hid. apply Hx; cbn; auto.
Qed.

(** With [id] a key, two rows of the table with the same id are the same
    row. *)
Lemma same_id_same_row (rows : list product) :
  NoDup (map id rows) ->
  forall p q, In p rows -> In q rows -> id p = id q -> p = q.
Proof.
  induction rows as [| r rows IH]; cbn; intros Hnd p q Hp Hq E.
  - contradiction.
  - inversion Hnd as [| ? ? Hnotin Hnd']; subst.
    destruct Hp as [-> | Hp], Hq as [-> | Hq]; auto.
    + exfalso. apply Hnotin. rewrite E. now apply in_map.
    + exfalso. apply Hnotin. rewrite <- E. now apply in_map.
Qed.

(** The batch of the active rows updates exactly the active rows, each to
    its own new price. *)
Lemma update_active_rows (rows : list product) :
  NoDup (map id rows) ->
  fold_left (fun rows' q => map (updated_by price q) rows') (filter is_active rows) rows
  = map (fun p => if is_active p
                  then Sql.set_selling_price (new_selling_price price p) p
                  else p) rows.
Proof.
  intros Hnd. rewrite fold_updates. apply map_ext_in. intros p Hp.
  rewrite (fold_updated_by (new_selling_price price p)).
  - destruct (is_active p) eqn:Ha.
    + replace (existsb _ _) with true; [reflexivity |].
      symmetry. apply existsb_exists. exists p. split.
      * apply filter_In; auto.
      * apply Z.eqb_refl.
    + replace (existsb _ _) with false; [reflexivity |].
      symmetry. apply not_true_is_false. intros H.
      apply existsb_exists in H as (q & Hq & E).
      apply filter_In in Hq as [Hq Hqa]. apply Z.eqb_eq in E.
      rewrite (same_id_same_row rows Hnd q p Hq Hp E) in Hqa. congruence.
  - intros q Hq E. apply filter_In in Hq as [Hq _].
    now rewrite (same_id_same_row rows Hnd q p Hq Hp E).
Qed.

(** The handler on a price that passes its check. *)
Lemma post_gold_price_accepted (carat : option string) (d : db) :
  JS.ToBoolean price = true ->
  JS.isNaN price = false ->
  let (r, d') := post_gold_price price carat d in
  gold_prices d'
  = gold_prices d ++ [{| price_per_gram := JS.parseFloat price;
                         gold_carat := match carat with Some c => c | None => "24K"%string end |}]
  /\ price_history d'
     = price_history d ++ map (history_of price) (filter is_active (products d))
  /\ products d'
     = fold_left (fun rows q => map (updated_by price q) rows)
         (filter is_active (products d)) (products d)
  /\ exists details,
       r = Json 200 (GoldPriceUpdated true
                       (Z.of_nat (List.length (filter is_active (products d)))) details)
       /\ map detail_id details = map id (filter is_active (products d))
       /\ map detail_new_price details
          = map (new_selling_price price) (filter is_active (products d)).
Proof.
  intros Ht Hn. unfold post_gold_price. rewrite Ht, Hn. cbn [negb orb].
  unfold bind at 1. unfold Sql.insert_gold_price at 1.
  unfold bind at 1. unfold Sql.select_active_products at 1. cbn [products].
  unfold bind at 1.
  match goal with |- context [reprice_all _ ?b ?d1] =>
    pose proof (reprice_all_spec b d1) as H end.
  destruct (reprice_all _ _ _) as [rs d']. cbn in H.
  destruct H as (Hg & Hh & Hp & Hi & Hnew).
  unfold ret. repeat split; try assumption.
  exists rs. repeat split; try assumption.
  rewrite <- (length_map detail_id rs), Hi, length_map. reflexivity.
Qed.

End Batch.

(** ** The handlers *)

Section Handlers.

Import GoldPriceCalculator Server.

(** C5.  With [id] the key of [products], a request whose price passes the
    check and whose values the columns hold (the gold price and the carat
    in [gold_prices], the old prices, the new prices and the gold price in
    [price_history], all DECIMAL(10,2)) stores the gold price, stores for
    every active product the row with the recomputed selling price and
    nothing else changed, leaves every inactive product as it was, appends
    one history entry per active product, in their order, and reports as
    many updates as there are active products, with their new prices. *)
Theorem C5_active_products_repriced (d : db) (v : JS.value) (c : option string) :
  NoDup (map id (products d)) ->
  JS.ToBoolean v = true ->
  JS.isNaN v = false ->
  Sql.fits_gold_prices
    {| price_per_gram := JS.parseFloat v;
       gold_carat := match c with Some l => l | None => "24K"%string end |} = true ->
  forallb
    (fun p => Sql.fits_price_history
                {| product_id := id p;
                   old_price := selling_price p;
                   new_price := sellingPrice (calculatePrice p (JS.parseFloat v));
                   gold_price_per_gram := JS.ToNumber v |})
    (filter is_active (products d)) = true ->
  let (r, d') := post_gold_price v c d in
  products d'
  = map (fun p => if is_active p
                  then {| id := id p; name := name p; description := description p;
                          pricing := pricing p;
                          selling_price :=
                            sellingPrice (calculatePrice p (JS.parseFloat v));
                          category := category p;
                          stock_quantity := stock_quantity p;
                          is_active := true |}
                  else p) (products d)
  /\ price_history d'
     = price_history d
       ++ map (fun p => {| product_id := id p;
                           old_price := selling_price p;
                           new_price := sellingPrice (calculatePrice p (JS.parseFloat v));
                           gold_price_per_gram := JS.ToNumber v |})
              (filter is_active (products d))
  /\ gold_prices d'
     = gold_prices d
       ++ [{| price_per_gram := JS.parseFloat v;
              gold_carat := match c with Some l => l | None => "24K"%string end |}]
  /\ exists details,
       r = Json 200 (GoldPriceUpdated true
                       (Z.of_nat (List.length (filter is_active (products d)))) details)
       /\ map detail_id details = map id (filter is_active (products d))
       /\ map detail_new_price details
          = map (fun p : product => sellingPrice (calculatePrice p (JS.parseFloat v)))
                (filter is_active (products d)).
Proof.
  intros Hnd Ht Hn _ _.
  pose proof (post_gold_price_accepted v c d Ht Hn) as H.
  destruct (post_gold_price v c d) as [r d'].
  destruct H as (Hg & Hh & Hp & details & Hr & Hi & Hnew).
  split; [| split; [| split]].
  - rewrite Hp, update_active_rows by assumption.
    apply map_ext. intros p. destruct (is_active p) eqn:E; [| reflexivity].
    unfold Sql.set_selling_price, new_selling_price. now rewrite E.
  - exact Hh.
  - exact Hg.
  - now exists details.
Qed.

(** C5 on the shop of four active products and one inactive one, with gold
    at 3100: four updates and four history entries; the necklace goes from
    38941.88 to 40239.94, the gold bar from 0 to 3580.5, and the inactive
    ring, product 3, keeps its 10395. *)
Lemma C5_shop_of_five :
  let (r, d') := post_gold_price (JS.Num 3100) None Sample.shop in
  map (fun p => (id p, selling_price p, is_active p)) (products d')
  = [ (1%Z, 40239.94, true); (2%Z, 27403.76, true); (3%Z, 10395, false);
      (4%Z, 17284.05, true); (5%Z, 3580.5, true) ]
  /\ price_history d'
     = [ {| product_id := 1; old_price := 38941.88; new_price := 40239.94;
            gold_price_per_gram := 3100 |};
         {| product_id := 2; old_price := 26519.76; new_price := 27403.76;
            gold_price_per_gram := 3100 |};
         {| product_id := 4; old_price := 16726.5; new_price := 17284.05;
            gold_price_per_gram := 3100 |};
         {| product_id := 5; old_price := 0; new_price := 3580.5;
            gold_price_per_gram := 3100 |} ]
  /\ gold_prices d'
     = [ {| price_per_gram := 3000; gold_carat := "24K" |};
         {| price_per_gram := 3100; gold_carat := "24K" |} ]
  /\ exists details,
       r = Json 200 (GoldPriceUpdated true 4 details)
       /\ map detail_id details = [1; 2; 4; 5]%Z
       /\ map detail_new_price details = [40239.94; 27403.76; 17284.05; 3580.5].
Proof.
  assert (Hnd : NoDup (map id (products Sample.shop)))
    by (repeat (constructor; [cbn; intuition discriminate |]); constructor).
  pose proof (C5_active_products_repriced Sample.shop (JS.Num 3100) None
                Hnd eq_refl eq_refl eq_refl eq_refl) as H.
  destruct (post_gold_price (JS.Num 3100) None Sample.shop) as [r d'].
  destruct H as (Hp & Hh & Hg & details & Hr & Hi & Hnew).
  rewrite Hp, Hh, Hg. repeat split.
  exists details. rewrite Hr, Hi, Hnew. repeat split.
Defined.







(** C10.  [GET /api/products/:id] answers 404 when every product with the
    given id is inactive, which covers an id that no product has; a product
    it returns is a row of the table with that id and is active; the store
    is not changed. *)
Theorem C10_inactive_product_is_not_found (d : db) (pid : Z) :
  (forall p, In p (products d) -> id p = pid -> is_active p = false) ->
  get_product pid d = (Json 404 (ProductError "Product not found"), d)
  /\ forall (d0 : db) (row : product),
       fst (get_product pid d0) = Json 200 (ProductRow row) ->
       In row (products d0) /\ id row = pid /\ is_active row = true.
Proof.
  intros Hin. split.
  - unfold get_product, bind, Sql.select_active_product.
    replace (filter _ (products d)) with (@nil product); [reflexivity |].
    symmetry. induction (products d) as [| p rows IH]; [reflexivity |].
    cbn. destruct (id p =? pid)%Z eqn:E.
    + apply Z.eqb_eq in E. rewrite (Hin p) by (cbn; auto). cbn.
      apply IH. intros q Hq. apply Hin. now right.
    + cbn. apply IH. intros q Hq. apply Hin. now right.
  - intros d0 row. unfold get_product, bind, Sql.select_active_product.
    destruct (filter _ (products d0)) as [| r rows] eqn:F; cbn; [discriminate |].
    intros H. injection H as ->.
    assert (Hr : In row (filter (fun p => (id p =? pid)%Z && is_active p) (products d0)))
      by (rewrite F; now left).
    apply filter_In in Hr as [Hr Hb]. apply andb_true_iff in Hb as [Hb1 Hb2].
    apply Z.eqb_eq in Hb1. auto.
Qed.

(** C10 on the sample shop: the ring, product 3, is in the table but
    inactive, and asking for it gives 404. *)
Lemma C10_inactive_ring :
  get_product 3 Sample.shop
  = (Json 404 (ProductError "Product not found"), Sample.shop).
Proof.
  apply (C10_inactive_product_is_not_found Sample.shop 3).
  intros p Hp E. cbn in Hp.
  repeat (destruct Hp as [<- | Hp]; [first [reflexivity | discriminate E] |]).
  contradiction.
Defined.

(** ** Applying the same gold price twice *)

Lemma post_gold_price_products (d : db) (v : JS.value) (c : option string) :
  NoDup (map id (products d)) ->
  JS.ToBoolean v = true -> JS.isNaN v = false ->
  products (snd (post_gold_price v c d))
  = map (fun p => if is_active p
                  then Sql.set_selling_price (new_selling_price v p) p
                  else p) (products d).
Proof.
  intros Hnd Ht Hn.
  pose proof (post_gold_price_accepted v c d Ht Hn) as H.
  destruct (post_gold_price v c d) as [r d']. cbn [snd].
  destruct H as (_ & _ & Hp & _). rewrite Hp. now apply update_active_rows.
Qed.

(** Applying a gold price a second time leaves every product as the first
    application left it (only the history and the gold prices grow). *)
Theorem post_gold_price_twice (d : db) (v : JS.value) (c : option string) :
  NoDup (map id (products d)) ->
  JS.ToBoolean v = true -> JS.isNaN v = false ->
  let once := snd (post_gold_price v c d) in
  let twice := snd (post_gold_price v c once) in
  products twice = products once.
Proof.
  intros Hnd Ht Hn once twice. unfold twice, once.
  pose proof (post_gold_price_products d v c Hnd Ht Hn) as H1.
  rewrite post_gold_price_products; try assumption.
  - rewrite H1, map_map. apply map_ext. intros p.
    destruct (is_active p) eqn:E; cbn; rewrite E; reflexivity.
  - rewrite H1, map_map.
    erewrite map_ext; [exact Hnd |].
    intros p. cbn. now destruct (is_active p).
Qed.

(** The sample shop, with gold set to 3100 twice. *)
Lemma post_gold_price_twice_shop :
  products (snd (post_gold_price (JS.Num 3100) None
                   (snd (post_gold_price (JS.Num 3100) None Sample.shop))))
  = products (snd (post_gold_price (JS.Num 3100) None Sample.shop)).
Proof.
  apply (post_gold_price_twice Sample.shop (JS.Num 3100) None).
  - repeat (constructor; [cbn; intuition discriminate |]). constructor.
  - reflexivity.
  - reflexivity.
Defined.

End Handlers.

(** ** The selling price as a function of the gold price *)

Section Monotonicity.

Import GoldPriceCalculator.

(** C8, the pair of prices that refutes it.  One gram of 24K with charges
    of 5 and 10 percent sells for 3465 at 3000 and, the amounts being
    rounded to cents, still for 3465 at 3000.001. *)
Lemma C8_rounding_collapses_prices :
  let product := Sample.item 1 "24K" 5 10 in
  (0 <? weight product) = true
  /\ (3000 <? 3000.001) = true
  /\ sellingPrice (calculatePrice product 3000) = 3465
  /\ sellingPrice (calculatePrice product 3000.001) = 3465
  /\ (sellingPrice (calculatePrice product 3000)
      <? sellingPrice (calculatePrice product 3000.001)) = false.
Proof. vm_compute. repeat split; reflexivity. Qed.

Import Binary64.

Lemma Prim2SF_100 : Prim2SF 100 = S754_finite false 7036874417766400 (-46).
Proof. reflexivity. Qed.

(** The purity factor, when it is a number, is positive. *)
Lemma caratFactor_nn (product : attrs) :
  fin (Prim2SF (JS.ToNumber (caratFactor product))) = true ->
  nnf (JS.ToNumber (caratFactor product)) = true.
Proof.
  unfold caratFactor, Table.get, CARAT_FACTORS. cbn [Table.own].
  repeat match goal with
         | |- context [String.eqb ?k (carat product)] =>
             destruct (String.eqb k (carat product))
         end;
    try destruct (Table.inherited (carat product));
    intros H; try (vm_compute; reflexivity); discriminate H.
Qed.

(** When the selling price computed for a non-negative gold price is
    finite, every amount on the way to it is zero or positive and finite. *)
Lemma amounts_nn (product : attrs) (g : float) :
  (0 <? weight product) = true ->
  (0 <=? making_charges product) = true ->
  (0 <=? profit_margin product) = true ->
  (fin (Prim2SF g) = true -> nnf g = true) ->
  is_finite (sellingPrice (calculatePrice product g)) = true ->
  let f := JS.ToNumber (caratFactor product) in
  let c1 := making_charges product / 100 in
  let c2 := 1 + profit_margin product / 100 in
  let gold := weight product * g * f in
  let base := gold + gold * c1 in
  nnf g = true /\ nnf (weight product) = true /\ nnf f = true
  /\ nnf c1 = true /\ nnf c2 = true
  /\ nnf (weight product * g) = true /\ nnf gold = true
  /\ nnf (gold * c1) = true /\ nnf base = true
  /\ nnf (base * c2) = true /\ nnf (base * c2 * 100) = true
  /\ nnf (JS.Math_round (base * c2 * 100)) = true
  /\ nnf (JS.Math_round (base * c2 * 100) / 100) = true.
Proof.
  intros Hw Hm Hp Hg Hfin f c1 c2 gold base.
  apply is_finite_fin in Hfin.
  change (sellingPrice (calculatePrice product g))
    with (JS.Math_round (base * c2 * 100) / 100) in Hfin.
  pose proof (div_fin _ _ Hfin) as Fr.
  pose proof (Math_round_fin _ Fr) as Fs.
  destruct (mul_fin _ _ Fs) as [Fsp _].
  destruct (mul_fin _ _ Fsp) as [Fbase Fc2].
  destruct (add_fin _ _ Fbase) as [Fgold Fmk].
  destruct (mul_fin _ _ Fgold) as [Ft Ff].
  destruct (mul_fin _ _ Ft) as [Fw Fg].
  destruct (mul_fin _ _ Fmk) as [_ Fc1].
  pose proof (div_fin _ _ Fc1) as Fmc.
  destruct (add_fin _ _ Fc2) as [_ Fc3].
  pose proof (div_fin _ _ Fc3) as Fpm.
  pose proof (Hg Fg) as Ng.
  pose proof (ltb_zero_nn _ Hw Fw) as Nw.
  pose proof (caratFactor_nn product Ff) as Nf.
  pose proof (div_nn _ _ _ _ (leb_zero_nn _ Hm Fmc) Prim2SF_100 Fc1) as Nc1.
  pose proof (div_nn _ _ _ _ (leb_zero_nn _ Hp Fpm) Prim2SF_100 Fc3) as Nc3.
  pose proof (add_nn 1 _ eq_refl Nc3 Fc2) as Nc2.
  pose proof (mul_nn _ _ Nw Ng Ft) as Nt.
  pose proof (mul_nn _ _ Nt Nf Fgold) as Ngold.
  pose proof (mul_nn _ _ Ngold Nc1 Fmk) as Nmk.
  pose proof (add_nn _ _ Ngold Nmk Fbase) as Nbase.
  pose proof (mul_nn _ _ Nbase Nc2 Fsp) as Nsp.
  pose proof (mul_nn _ 100 Nsp eq_refl Fs) as Ns.
  pose proof (Math_round_nn _ Ns Fr) as Nr.
  pose proof (div_nn _ _ _ _ Nr Prim2SF_100 Hfin) as Nout.
  repeat split; assumption.
Qed.

(** Why the amended statement asks for non-negative charges and finite
    prices.  With making charges of -200 percent the base cost is minus the
    gold value, and the selling price falls from -3000 to -3100 when gold
    rises from 3000 to 3100.  With 10 g and gold at 1e308 the gold value
    overflows to Infinity, the making charges [Infinity * 0] are NaN, and so
    is the selling price, which compares with nothing. *)
Lemma monotonicity_needs_its_hypotheses :
  sellingPrice (calculatePrice (Sample.item 1 "24K" (-200) 0) 3000) = -3000
  /\ sellingPrice (calculatePrice (Sample.item 1 "24K" (-200) 0) 3100) = -3100
  /\ sellingPrice (calculatePrice (Sample.item 10 "24K" 0 0) 1e308) = nan
  /\ sellingPrice (calculatePrice (Sample.item 10 "24K" 0 0) 1.5e308) = nan
  /\ (nan <=? nan) = false.
Proof. vm_compute. repeat split; reflexivity. Qed.

(** C8, amended.  For a product of positive weight with non-negative making
    charges and profit margin, and two gold prices [0 <= G1 < G2] whose
    selling prices are finite numbers, the selling price at [G2] is greater
    than or equal to the selling price at [G1].  It need not be greater:
    every amount is rounded, the last one to cents. *)
Theorem C8_selling_price_is_monotone (product : attrs) (G1 G2 : float) :
  (0 <? weight product) = true ->
  (0 <=? making_charges product) = true ->
  (0 <=? profit_margin product) = true ->
  (0 <=? G1) = true ->
  (G1 <? G2) = true ->
  is_finite (sellingPrice (calculatePrice product G1)) = true ->
  is_finite (sellingPrice (calculatePrice product G2)) = true ->
  (sellingPrice (calculatePrice product G1)
   <=? sellingPrice (calculatePrice product G2)) = true.
Proof.
  intros Hw Hm Hp H1 H12 F1 F2.
  destruct (amounts_nn product G1 Hw Hm Hp (leb_zero_nn _ H1) F1)
    as (Ng1 & Nw & Nf & Nc1 & Nc2 & Nt1 & Ngold1 & Nmk1 & Nbase1 & Nsp1 & Ns1 & Nr1 & No1).
  destruct (amounts_nn product G2 Hw Hm Hp
              (fun F => proj1 (ltb_nn _ _ H12 Ng1 F)) F2)
    as (Ng2 & _ & _ & _ & _ & Nt2 & Ngold2 & Nmk2 & Nbase2 & Nsp2 & Ns2 & Nr2 & No2).
  destruct (ltb_nn _ _ H12 Ng1 (nn_fin _ Ng2)) as [_ Hg].
  set (f := JS.ToNumber (caratFactor product)) in *.
  set (c1 := making_charges product / 100) in *.
  set (c2 := 1 + profit_margin product / 100) in *.
  pose proof (mul_mono_l _ _ _ Ng1 Ng2 Nw Nt1 Nt2 Hg) as Ht.
  pose proof (mul_mono_r _ _ _ Nt1 Nt2 Nf Ngold1 Ngold2 Ht) as Hgold.
  pose proof (mul_mono_r _ _ _ Ngold1 Ngold2 Nc1 Nmk1 Nmk2 Hgold) as Hmk.
  pose proof (add_mono _ _ _ _ Ngold1 Ngold2 Nmk1 Nmk2 Nbase1 Nbase2 Hgold Hmk) as Hbase.
  pose proof (mul_mono_r _ _ _ Nbase1 Nbase2 Nc2 Nsp1 Nsp2 Hbase) as Hsp.
  pose proof (mul_mono_r _ _ 100 Nsp1 Nsp2 eq_refl Ns1 Ns2 Hsp) as Hs.
  pose proof (Math_round_mono _ _ Ns1 Ns2 Nr1 Nr2 Hs) as Hr.
  pose proof (div_mono _ _ _ _ _ Nr1 Nr2 Prim2SF_100 No1 No2 Hr) as Ho.
  apply leb_of_le; assumption.
Qed.

(** C8 amended, at the pair of prices that refutes the strict claim. *)
Lemma C8_at_3000_and_3000_001 :
  (sellingPrice (calculatePrice (Sample.item 1 "24K" 5 10) 3000)
   <=? sellingPrice (calculatePrice (Sample.item 1 "24K" 5 10) 3000.001)) = true.
Proof.
  apply (C8_selling_price_is_monotone (Sample.item 1 "24K" 5 10) 3000 3000.001);
    reflexivity.
Defined.

(** The breakdown is ordered.  For a product of positive weight with
    non-negative making charges and profit margin and a positive gold
    price, as long as the amounts are finite numbers:
    [sellingPrice >= baseCost >= goldValue >= 0]. *)
Theorem amounts_are_ordered (product : attrs) (g : float) :
  (0 <? weight product) = true ->
  (0 <=? making_charges product) = true ->
  (0 <=? profit_margin product) = true ->
  (0 <? g) = true ->
  is_finite (goldValue (calculatePrice product g)) = true ->
  is_finite (baseCost (calculatePrice product g)) = true ->
  is_finite (sellingPrice (calculatePrice product g)) = true ->
  (0 <=? goldValue (calculatePrice product g)) = true
  /\ (goldValue (calculatePrice product g) <=? baseCost (calculatePrice product g)) = true
  /\ (baseCost (calculatePrice product g) <=? sellingPrice (calculatePrice product g)) = true.
Proof.
  intros Hw Hm Hp Hg Fgold Fbase Fsell.
  destruct (amounts_nn product g Hw Hm Hp (ltb_zero_nn _ Hg) Fsell)
    as (Ng & Nw & Nf & Nc1 & Nc2 & Nt & Ngold & Nmk & Nbase & Nsp & _).
  apply is_finite_fin in Fgold, Fbase, Fsell.
  set (f := JS.ToNumber (caratFactor product)) in *.
  set (c1 := making_charges product / 100) in *.
  set (c3 := profit_margin product / 100) in *.
  set (gold := weight product * g * f) in *.
  set (base := gold + gold * c1) in *.
  change (goldValue (calculatePrice product g)) with (cents gold) in *.
  change (baseCost (calculatePrice product g)) with (cents base) in *.
  change (sellingPrice (calculatePrice product g)) with (cents (base * (1 + c3))) in *.
  assert (Nc3 : nnf c3 = true).
  { destruct (add_fin _ _ (nn_fin _ Nc2)) as [_ Fc3].
    apply (div_nn _ 100 7036874417766400 (-46)); [| reflexivity | exact Fc3].
    apply leb_zero_nn; [exact Hp | exact (div_fin _ _ Fc3)]. }
  assert (Hc2 : (1 <= F2R (1 + c3))%R).
  { rewrite <- F2R_one at 1. now apply add_ge_l. }
  pose proof (add_ge_l gold (gold * c1) Ngold Nmk Nbase) as H1.
  pose proof (mul_ge_l base (1 + c3) Nbase Nc2 Nsp Hc2) as H2.
  destruct (cents_nn gold Ngold Fgold) as (_ & _ & Ncg).
  destruct (cents_nn base Nbase Fbase) as (_ & _ & Ncb).
  destruct (cents_nn _ Nsp Fsell) as (_ & _ & Ncs).
  repeat split.
  - apply leb_of_le; [reflexivity | exact Ncg |].
    change (F2R 0) with 0%R. now apply F2R_nonneg.
  - apply leb_of_le; try assumption. now apply cents_mono.
  - apply leb_of_le; try assumption. now apply cents_mono.
Qed.

(** The ordering, on the specification's concrete scenario. *)
Lemma amounts_are_ordered_necklace :
  (0 <=? goldValue (calculatePrice Sample.necklace 3000)) = true
  /\ (goldValue (calculatePrice Sample.necklace 3000)
      <=? baseCost (calculatePrice Sample.necklace 3000)) = true
  /\ (baseCost (calculatePrice Sample.necklace 3000)
      <=? sellingPrice (calculatePrice Sample.necklace 3000)) = true.
Proof.
  apply (amounts_are_ordered Sample.necklace 3000); reflexivity.
Defined.

End Monotonicity.

(** ** Reading the gold price back *)

Section GoldPrice.

Import GoldPriceCalculator Server.

Lemma rev_snoc_firstn {A : Type} (l : list A) (a : A) :
  firstn 1 (rev (l ++ [a])) = [a].
Proof. now rewrite rev_app_distr. Qed.

(** After a request that sets the gold price, [GET /api/gold-price] answers
    with that price (as [parseFloat] reads it) and the carat label given
    with it, ['24K'] when none was given. *)
Theorem gold_price_is_read_back (d : db) (v : JS.value) (c : option string) :
  JS.ToBoolean v = true ->
  JS.isNaN v = false ->
  fst (get_gold_price (snd (post_gold_price v c d)))
  = Json 200 {| price_per_gram := JS.parseFloat v;
                gold_carat := match c with Some l => l | None => "24K"%string end |}.
Proof.
  intros Ht Hn.
  pose proof (post_gold_price_accepted v c d Ht Hn) as H.
  destruct (post_gold_price v c d) as [r d']. cbn [snd].
  destruct H as (Hg & _).
  unfold get_gold_price, bind, Sql.select_latest_gold_price.
  rewrite Hg, rev_snoc_firstn. reflexivity.
Qed.

(** The sample shop, after gold is set to 3100 for 21K. *)
Lemma gold_price_is_read_back_shop :
  fst (get_gold_price (snd (post_gold_price (JS.Num 3100) (Some "21K"%string) Sample.shop)))
  = Json 200 {| price_per_gram := 3100; gold_carat := "21K" |}.
Proof.
  apply (gold_price_is_read_back Sample.shop (JS.Num 3100) (Some "21K"%string));
    reflexivity.
Defined.

End GoldPrice.

(** ** Adding a product *)

Section NewProduct.

Import GoldPriceCalculator Server.

(** The id given to a new row is above every id of the table. *)
Lemma next_id_above (rows : list product) (p : product) :
  In p rows -> (id p < Sql.next_id rows)%Z.
Proof.
  unfold Sql.next_id.
  induction rows as [| q rows IH]; cbn [In map fold_right]; [contradiction |].
  intros [-> | H]; [lia |]. specialize (IH H). lia.
Qed.

Lemma next_id_fresh (rows : list product) :
  ~ In (Sql.next_id rows) (map id rows).
Proof.
  intros H. apply in_map_iff in H as (p & E & Hp).
  apply next_id_above in Hp. lia.
Qed.


(** The handler on a body that passes its check. *)
Lemma post_product_accepted (b : Post.body) (d : db) :
  JS.nonempty (Post.name b) = true ->
  JS.ToBoolean (JS.field (Post.weight b)) = true ->
  JS.nonempty (Post.carat b) = true ->
  let row :=
    {| id := Sql.next_id (products d);
       name := JS.text (Post.name b);
       description := JS.or_text (Post.description b) EmptyString;
       pricing := {| weight := JS.ToNumber (JS.field (Post.weight b));
                     carat := JS.text (Post.carat b);
                     making_charges := JS.or_number (Post.making_charges b) 5;
                     profit_margin := JS.or_number (Post.profit_margin b) 10 |};
       selling_price :=
         sellingPrice
           (calculatePrice
              {| weight := JS.ToNumber (JS.field (Post.weight b));
                 carat := JS.text (Post.carat b);
                 making_charges := JS.or_number (Post.making_charges b) 5;
                 profit_margin := JS.or_number (Post.profit_margin b) 10 |}
              (price_or (firstn 1 (rev (gold_prices d))) 3000));
       category := JS.or_text (Post.category b) "Uncategorized";
       stock_quantity := match Post.stock_quantity b with Some n => n | None => 0%Z end;
       is_active := true |} in
  post_product b d
  = (Json 200 (ProductAdded true (id row) (selling_price row)
                 (calculatePrice row (price_or (firstn 1 (rev (gold_prices d))) 3000))),
     {| gold_prices := gold_prices d;
        products := products d ++ [row];
        price_history := price_history d |}).
Proof.
  intros Hn Hw Hc row. unfold post_product. rewrite Hn, Hw, Hc. reflexivity.
Qed.

(** [POST /api/products] checks three fields and nothing else.  A body
    whose name or carat label is missing or empty, or whose weight is
    missing, zero or NaN, is answered with 400 and stores nothing.  Every
    other body is answered with 200 and adds one product, whatever its
    weight, charges and label are, as long as the columns of [products]
    hold the values of the row to insert. *)
Theorem post_product_checks_three_fields (b : Post.body) (d : db) :
  let checked :=
    match Post.name b, Post.weight b, Post.carat b with
    | Some (String _ _), Some w, Some (String _ _) => negb (is_zero w || is_nan w)
    | _, _, _ => false
    end in
  (checked = true -> Sql.fits_products (added_row b d) = true) ->
  if checked
  then status (fst (post_product b d)) = 200%Z
       /\ List.length (products (snd (post_product b d)))
          = S (List.length (products d))
       /\ firstn (List.length (products d)) (products (snd (post_product b d)))
          = products d
  else post_product b d
       = (Json 400 (ProductRejected "Name, weight, and carat are required"), d).
Proof.
  intros checked _.
  assert (E : checked
              = JS.nonempty (Post.name b)
                && JS.ToBoolean (JS.field (Post.weight b))
                && JS.nonempty (Post.carat b)).
  { subst checked. destruct (Post.name b) as [[| ch n] |]; try reflexivity;
    destruct (Post.weight b) as [w |]; try reflexivity;
    destruct (Post.carat b) as [[| ch' c] |]; cbn;
    rewrite ?andb_false_r, ?andb_true_r; reflexivity. }
  rewrite E. clear E checked.
  destruct (JS.nonempty (Post.name b)) eqn:Hn; cbn [andb].
  - destruct (JS.ToBoolean (JS.field (Post.weight b))) eqn:Hw; cbn [andb].
    + destruct (JS.nonempty (Post.carat b)) eqn:Hc.
      * rewrite (post_product_accepted b d Hn Hw Hc). cbn [fst snd status products].
        rewrite length_app. cbn [List.length].
        split; [reflexivity | split; [lia |]].
        rewrite firstn_app, Nat.sub_diag, firstn_all. cbn. apply app_nil_r.
      * unfold post_product. now rewrite Hn, Hw, Hc.
    + unfold post_product. now rewrite Hn, Hw.
  - unfold post_product. now rewrite Hn.
Qed.

(** The check on the sample shop: the bangle is added as a sixth product,
    and the same body with a weight of 0 is answered with 400. *)
Lemma post_product_checks_the_bangle :
  (status (fst (post_product Sample.bangle Sample.shop)) = 200%Z
   /\ List.length (products (snd (post_product Sample.bangle Sample.shop))) = 6%nat
   /\ firstn 5 (products (snd (post_product Sample.bangle Sample.shop)))
      = products Sample.shop)
  /\ post_product
       {| Post.name := Some "Bangle"%string; Post.weight := Some 0;
          Post.carat := Some "21K"%string; Post.making_charges := None;
          Post.profit_margin := Some 0; Post.category := None;
          Post.description := None; Post.stock_quantity := None |}
       Sample.shop
     = (Json 400 (ProductRejected "Name, weight, and carat are required"),
        Sample.shop).
Proof.
  split.
  - exact (post_product_checks_three_fields Sample.bangle Sample.shop
             (fun _ => eq_refl)).
  - exact (post_product_checks_three_fields
             {| Post.name := Some "Bangle"%string; Post.weight := Some 0;
                Post.carat := Some "21K"%string; Post.making_charges := None;
                Post.profit_margin := Some 0; Post.category := None;
                Post.description := None; Post.stock_quantity := None |}
             Sample.shop (fun H => False_ind _ (Bool.diff_false_true H))).
Defined.

(** A body that passes the check, for a row that the columns of
    [products] hold, is stored as one new, active row with an id that no
    row had.  The row holds the name, the weight and the label given, the
    making charges and the profit margin given or, when they are missing,
    zero or NaN, 5 and 10, and the selling price of that very row at the
    newest stored gold price (3000 when none is stored), which is also the
    price reported.  The gold prices and the price history are not
    touched. *)
Theorem new_product_is_priced_as_stored (b : Post.body) (d : db) :
  JS.nonempty (Post.name b) = true ->
  JS.ToBoolean (JS.field (Post.weight b)) = true ->
  JS.nonempty (Post.carat b) = true ->
  Sql.fits_products (added_row b d) = true ->
  let goldPrice :=
    match rev (gold_prices d) with
    | newest :: _ => price_per_gram newest
    | [] => 3000
    end in
  let (r, d') := post_product b d in
  exists row : product,
    products d' = products d ++ [row]
    /\ gold_prices d' = gold_prices d
    /\ price_history d' = price_history d
    /\ ~ In (id row) (map id (products d))
    /\ is_active row = true
    /\ Post.name b = Some (name row)
    /\ Post.weight b = Some (weight row)
    /\ Post.carat b = Some (carat row)
    /\ making_charges row
       = match Post.making_charges b with
         | Some x => if is_zero x || is_nan x then 5 else x
         | None => 5
         end
    /\ profit_margin row
       = match Post.profit_margin b with
         | Some x => if is_zero x || is_nan x then 10 else x
         | None => 10
         end
    /\ description row
       = match Post.description b with Some s => s | None => EmptyString end
    /\ category row
       = match Post.category b with
         | Some (String ch s) => String ch s
         | _ => "Uncategorized"%string
         end
    /\ stock_quantity row
       = match Post.stock_quantity b with Some n => n | None => 0%Z end
    /\ Sql.fits_products row = true
    /\ selling_price row = sellingPrice (calculatePrice row goldPrice)
    /\ r = Json 200 (ProductAdded true (id row) (selling_price row)
                       (calculatePrice row goldPrice)).
Proof.
  intros Hn Hw Hc Hfits goldPrice.
  assert (Eg : price_or (firstn 1 (rev (gold_prices d))) 3000 = goldPrice).
  { subst goldPrice. unfold price_or. now destruct (rev (gold_prices d)). }
  rewrite (post_product_accepted b d Hn Hw Hc). rewrite Eg.
  unfold added_row, Sql.select_latest_gold_price in Hfits. cbn [fst] in Hfits.
  rewrite Eg in Hfits.
  eexists. split; [reflexivity |]. cbn [gold_prices price_history].
  repeat match goal with |- _ /\ _ => split end; try reflexivity.
  - apply next_id_fresh.
  - destruct (Post.name b) as [[| ch n] |]; try discriminate Hn. reflexivity.
  - destruct (Post.weight b) as [w |]; try discriminate Hw. reflexivity.
  - destruct (Post.carat b) as [[| ch c] |]; try discriminate Hc. reflexivity.
  - cbn [making_charges pricing]. unfold JS.or_number, JS.or_else.
    destruct (Post.making_charges b) as [x |];
      cbn [JS.field JS.ToBoolean JS.ToNumber negb]; [| reflexivity].
    now destruct (is_zero x || is_nan x).
  - cbn [profit_margin pricing]. unfold JS.or_number, JS.or_else.
    destruct (Post.profit_margin b) as [x |];
      cbn [JS.field JS.ToBoolean JS.ToNumber negb]; [| reflexivity].
    now destruct (is_zero x || is_nan x).
  - cbn. now destruct (Post.description b) as [[| ch s] |].
  - exact Hfits.
Qed.

(** A bangle of 12 g of 21K with no charges given and a profit margin of
    0, added to the sample shop: it is stored as product 6 with charges of
    5 and 10 percent and the price 36382.5 that these give at 3000. *)
Lemma new_product_is_priced_as_stored_bangle :
  (let (r, d') := post_product Sample.bangle Sample.shop in
   exists row : product,
     products d' = products Sample.shop ++ [row]
     /\ gold_prices d' = gold_prices Sample.shop
     /\ price_history d' = price_history Sample.shop
     /\ ~ In (id row) (map id (products Sample.shop))
     /\ is_active row = true
     /\ Some "Bangle"%string = Some (name row)
     /\ Some 12 = Some (weight row)
     /\ Some "21K"%string = Some (carat row)
     /\ making_charges row = 5
     /\ profit_margin row = 10
     /\ description row = EmptyString
     /\ category row = "Uncategorized"%string
     /\ stock_quantity row = 0%Z
     /\ Sql.fits_products row = true
     /\ selling_price row = sellingPrice (calculatePrice row 3000)
     /\ r = Json 200 (ProductAdded true (id row) (selling_price row)
                        (calculatePrice row 3000)))
  /\ post_product Sample.bangle Sample.shop
     = (Json 200
          (ProductAdded true 6 36382.5
             {| goldValue := 31500; makingCharges := 1575; baseCost := 33075;
                sellingPrice := 36382.5 |}),
        {| gold_prices := gold_prices Sample.shop;
           products :=
             products Sample.shop
             ++ [ {| id := 6; name := "Bangle"; description := EmptyString;
                     pricing := Sample.item 12 "21K" 5 10;
                     selling_price := 36382.5; category := "Uncategorized";
                     stock_quantity := 0; is_active := true |} ];
           price_history := [] |}).
Proof.
  split.
  - exact (new_product_is_priced_as_stored Sample.bangle Sample.shop
             eq_refl eq_refl eq_refl eq_refl).
  - reflexivity.
Defined.




End NewProduct.

(** ** Updating a product *)

Section UpdateProduct.

Import GoldPriceCalculator Server.

Lemma filter_none {A : Type} (f : A -> bool) (l : list A) :
  (forall x, In x l -> f x = false) -> filter f l = [].
Proof.
  induction l as [| a l IH]; intros H; cbn; [reflexivity |].
  rewrite (H a) by (cbn; auto). apply IH. intros x Hx. apply H. now right.
Qed.

(** With [id] a key, the row with a given id is the only one selected by
    that id. *)
Lemma select_by_key (rows : list product) (p : product) :
  NoDup (map id rows) -> In p rows ->
  filter (fun q => (id q =? id p)%Z) rows = [p].
Proof.
  induction rows as [| r rows IH]; cbn [In map filter]; [contradiction |].
  intros Hnd Hp. inversion Hnd as [| ? ? Hnotin Hnd']; subst.
  destruct Hp as [-> | Hp].
  - rewrite Z.eqb_refl. f_equal. apply filter_none.
    intros q Hq. apply Z.eqb_neq. intros E. apply Hnotin. rewrite <- E.
    now apply in_map.
  - destruct (id r =? id p)%Z eqn:E.
    + apply Z.eqb_eq in E. exfalso. apply Hnotin. rewrite E. now apply in_map.
    + now apply IH.
Qed.

(** The handler on the id of a product [p], the first row selected. *)
Lemma put_product_found (pid : Z) (b : Put.body) (d : db)
    (p : product) (others : list product) :
  filter (fun q => (id q =? pid)%Z) (products d) = p :: others ->
  let goldPrice := price_or (firstn 1 (rev (gold_prices d))) 3000 in
  let price := if recalculates b
               then sellingPrice (calculatePrice (priced_as b p) goldPrice)
               else selling_price p in
  put_product pid b d
  = (if Put.complete b
     then Json 200 (ProductUpdated true price)
     else Json 500 UpdateFailed,
     {| gold_prices := gold_prices d;
        products :=
          if Put.complete b
          then map (fun q => if (id q =? pid)%Z
                             then Sql.set_columns (JS.known (Put.name b))
                                    (JS.known (Put.description b))
                                    (JS.known (Put.weight b)) (JS.known (Put.carat b))
                                    (JS.known (Put.making_charges b))
                                    (JS.known (Put.profit_margin b)) price
                                    (JS.known (Put.category b))
                                    (JS.known (Put.stock_quantity b))
                                    (JS.known (Put.is_active b)) q
                             else q) (products d)
          else products d;
        price_history :=
          if recalculates b
          then price_history d
               ++ [{| product_id := id p; old_price := selling_price p;
                      new_price := price; gold_price_per_gram := goldPrice |}]
          else price_history d |}).
Proof.
  intros F goldPrice price. unfold put_product.
  unfold bind at 1. unfold Sql.select_product at 1. rewrite F.
  subst price goldPrice. destruct d as [g rows h].
  destruct (recalculates b), (Put.complete b); reflexivity.
Qed.

(** A row to which the update writes nothing new is the row it was. *)
Lemma set_columns_nothing (p : product) :
  Sql.set_columns None None None None None None (selling_price p) None None None p = p.
Proof. destruct p as [i n ds [w c mc pm] sp cat st a]. reflexivity. Qed.

Lemma id_set_columns n ds w c mc pm price cat stock active (p : product) :
  id (Sql.set_columns n ds w c mc pm price cat stock active p) = id p.
Proof. reflexivity. Qed.

(** The rows the update applies to, when [id] is a key: the one row [p]. *)
Lemma update_by_key (rows : list product) (p : product) (f : product -> product) :
  NoDup (map id rows) -> In p rows ->
  map (fun q => if (id q =? id p)%Z then f q else q) rows
  = map (fun q => if (id q =? id p)%Z then f p else q) rows.
Proof.
  intros Hnd Hp. apply map_ext_in. intros q Hq.
  destruct (id q =? id p)%Z eqn:E; [| reflexivity].
  apply Z.eqb_eq in E. now rewrite (same_id_same_row rows Hnd q p Hq Hp E).
Qed.

Lemma or_number_given (x y : float) :
  JS.ToBoolean (JS.Num x) = true -> JS.or_number (Some x) y = x.
Proof. intros H. unfold JS.or_number, JS.or_else. cbn [JS.field]. now rewrite H. Qed.

(** What [COALESCE] keeps of a field, and what [||] keeps of a field
    that is left out, [null], or a number other than 0 and NaN, or a text
    that is not empty. *)
Lemma coalesce_known {A : Type} (x : JS.given A) (y : A) :
  Sql.coalesce (JS.known x) y = match x with JS.Given a => a | _ => y end.
Proof. now destruct x. Qed.

Lemma or_number_known (x : JS.given float) (y : float) :
  (forall a, x = JS.Given a -> JS.ToBoolean (JS.Num a) = true) ->
  JS.or_number (JS.known x) y = match x with JS.Given a => a | _ => y end.
Proof.
  intros H. destruct x as [| | a]; try reflexivity.
  now apply or_number_given, H.
Qed.

Lemma or_text_known (x : JS.given string) (y : string) :
  x <> JS.Given EmptyString ->
  JS.or_text (JS.known x) y = match x with JS.Given a => a | _ => y end.
Proof. intros H. destruct x as [| | [| c s]]; try reflexivity. congruence. Qed.

(** The gold price the handlers price with: the newest stored one, 3000
    when none is stored. *)
Lemma price_or_newest (d : db) :
  price_or (firstn 1 (rev (gold_prices d))) 3000
  = match rev (gold_prices d) with
    | newest :: _ => price_per_gram newest
    | [] => 3000
    end.
Proof. unfold price_or. now destruct (rev (gold_prices d)). Qed.

(** [PUT /api/products/:id] on an id that no product has: 404, and nothing
    is written.  Inactive products count as products here. *)
Theorem put_product_unknown_id (pid : Z) (b : Put.body) (d : db) :
  (forall p, In p (products d) -> id p <> pid) ->
  put_product pid b d = (Json 404 (ProductMissing "Product not found"), d).
Proof.
  intros H. unfold put_product, bind, Sql.select_product.
  rewrite filter_none; [reflexivity |].
  intros p Hp. apply Z.eqb_neq. now apply H.
Qed.

(** Product 9 of the sample shop. *)
Lemma put_product_unknown_id_shop :
  put_product 9 (Sample.reweigh 2 None) Sample.shop
  = (Json 404 (ProductMissing "Product not found"), Sample.shop).
Proof.
  apply (put_product_unknown_id 9 (Sample.reweigh 2 None) Sample.shop).
  intros p Hp E. cbn in Hp.
  repeat (destruct Hp as [<- | Hp]; [discriminate E |]). contradiction.
Defined.

(** An update that gives [null] for every column changes nothing: with
    [id] a key, the store after it is the store before it, no history
    entry is written, and the price reported is the price the product
    has. *)
Theorem put_nothing_changes_nothing (d : db) (p : product) :
  NoDup (map id (products d)) ->
  In p (products d) ->
  put_product (id p) Sample.nothing d
  = (Json 200 (ProductUpdated true (selling_price p)), d).
Proof.
  intros Hnd Hp.
  rewrite (put_product_found (id p) _ d p [] (select_by_key _ p Hnd Hp)).
  change (Put.complete Sample.nothing) with true.
  change (recalculates Sample.nothing) with false.
  cbn [Sample.nothing Put.weight Put.carat Put.making_charges
       Put.profit_margin Put.name Put.description Put.category
       Put.stock_quantity Put.is_active JS.known].
  f_equal. destruct d as [g rows h]. cbn [gold_prices products price_history] in *.
  f_equal. rewrite (update_by_key rows p _ Hnd Hp), set_columns_nothing.
  transitivity (map (fun q : product => q) rows); [| apply map_id].
  apply map_ext_in. intros q Hq.
  destruct (id q =? id p)%Z eqn:E; [| reflexivity].
  apply Z.eqb_eq in E. symmetry. exact (same_id_same_row rows Hnd q p Hq Hp E).
Qed.

(** The necklace of the sample shop, product 1. *)
Lemma put_nothing_changes_nothing_necklace :
  put_product 1 Sample.nothing Sample.shop
  = (Json 200 (ProductUpdated true 38941.88), Sample.shop).
Proof.
  apply (put_nothing_changes_nothing Sample.shop
           (Sample.row 1 "24K Gold Necklace" Sample.necklace 38941.88 true)).
  - repeat (constructor; [cbn; intuition discriminate |]). constructor.
  - cbn. auto.
Defined.

(** An update that recomputes the price keeps the row consistent.  The
    body leaves no field out (each is a value or [null]), every pricing
    column it gives is a value other than 0, NaN and the empty label, and
    the columns of [products] and [price_history] hold the values to
    write.  Then, with [id] a key, the row is stored with the values given,
    and its other columns as they were, at the selling price which that
    very row has at the newest stored gold price (3000 when none is
    stored); one history entry records the old price, the new price and
    that gold price; no other row changes, and the answer is 200 with the
    new price. *)
Theorem updated_product_is_priced_as_stored
    (pid : Z) (b : Put.body) (d : db) (p : product) :
  NoDup (map id (products d)) ->
  In p (products d) ->
  id p = pid ->
  Put.complete b = true ->
  recalculates b = true ->
  (forall w, Put.weight b = JS.Given w -> JS.ToBoolean (JS.Num w) = true) ->
  Put.carat b <> JS.Given EmptyString ->
  (forall x, Put.making_charges b = JS.Given x -> JS.ToBoolean (JS.Num x) = true) ->
  (forall x, Put.profit_margin b = JS.Given x -> JS.ToBoolean (JS.Num x) = true) ->
  let goldPrice :=
    match rev (gold_prices d) with
    | newest :: _ => price_per_gram newest
    | [] => 3000
    end in
  let a :=
    {| weight := match Put.weight b with JS.Given w => w | _ => weight p end;
       carat := match Put.carat b with JS.Given c => c | _ => carat p end;
       making_charges :=
         match Put.making_charges b with JS.Given x => x | _ => making_charges p end;
       profit_margin :=
         match Put.profit_margin b with JS.Given x => x | _ => profit_margin p end |} in
  let row :=
    {| id := pid;
       name := match Put.name b with JS.Given n => n | _ => name p end;
       description :=
         match Put.description b with JS.Given s => s | _ => description p end;
       pricing := a;
       selling_price := sellingPrice (calculatePrice a goldPrice);
       category := match Put.category b with JS.Given c => c | _ => category p end;
       stock_quantity :=
         match Put.stock_quantity b with JS.Given n => n | _ => stock_quantity p end;
       is_active :=
         match Put.is_active b with JS.Given f => f | _ => is_active p end |} in
  let entry :=
    {| product_id := pid; old_price := selling_price p;
       new_price := sellingPrice (calculatePrice a goldPrice);
       gold_price_per_gram := goldPrice |} in
  Sql.fits_products row = true ->
  Sql.fits_price_history entry = true ->
  put_product pid b d
  = (Json 200 (ProductUpdated true (sellingPrice (calculatePrice a goldPrice))),
     {| gold_prices := gold_prices d;
        products := map (fun q => if (id q =? pid)%Z then row else q) (products d);
        price_history := price_history d ++ [entry] |})
  /\ selling_price row = sellingPrice (calculatePrice row goldPrice).
Proof.
  intros Hnd Hp Hid Hcomplete Hr Hw Hc Hmc Hpm goldPrice a row entry _ _.
  split; [| reflexivity]. subst pid.
  rewrite (put_product_found (id p) b d p [] (select_by_key _ p Hnd Hp)).
  rewrite Hcomplete, Hr, price_or_newest. fold goldPrice.
  assert (Ea : priced_as b p = a).
  { unfold priced_as. subst a.
    now rewrite !or_number_known, or_text_known by assumption. }
  rewrite Ea. fold entry. f_equal. f_equal.
  rewrite (update_by_key (products d) p _ Hnd Hp).
  apply map_ext. intros q. destruct (id q =? id p)%Z; [| reflexivity].
  unfold Sql.set_columns. rewrite !coalesce_known. reflexivity.
Qed.

(** The necklace of the sample shop, reweighed to 12 g: it is stored with
    12 g and the price 44505, which the history records after the
    38941.88 it had.  The body [{ weight: 12 }], which leaves the other
    fields out, is answered with 500: the history entry has been written,
    the row is as it was. *)
Lemma updated_product_is_priced_as_stored_necklace :
  put_product 1 (Sample.reweigh 12 None) Sample.shop
  = (Json 200 (ProductUpdated true 44505),
     {| gold_prices := gold_prices Sample.shop;
        products :=
          [ Sample.row 1 "24K Gold Necklace" (Sample.item 12 "24K" 7.5 15.0) 44505 true;
            Sample.row 2 "22K Gold Bracelet" Sample.bracelet 26519.76 true;
            Sample.row 3 "18K Gold Ring" Sample.ring 10395 false;
            Sample.row 4 "21K Gold Earrings" Sample.earrings 16726.5 true;
            Sample.row 5 "Gold Bar" (Sample.item 1 "24K" 5 10) 0 true ];
        price_history :=
          [ {| product_id := 1; old_price := 38941.88; new_price := 44505;
               gold_price_per_gram := 3000 |} ] |})
  /\ sellingPrice (calculatePrice (Sample.item 12 "24K" 7.5 15.0) 3000) = 44505
  /\ put_product 1 (Sample.only_weight 12) Sample.shop
     = (Json 500 UpdateFailed,
        {| gold_prices := gold_prices Sample.shop;
           products := products Sample.shop;
           price_history :=
             [ {| product_id := 1; old_price := 38941.88; new_price := 44505;
                  gold_price_per_gram := 3000 |} ] |}).
Proof.
  assert (Hnd : NoDup (map id (products Sample.shop)))
    by (repeat (constructor; [cbn; intuition discriminate |]); constructor).
  assert (Hp : In (Sample.row 1 "24K Gold Necklace" Sample.necklace 38941.88 true)
                  (products Sample.shop)) by (cbn; auto).
  pose proof (updated_product_is_priced_as_stored 1 (Sample.reweigh 12 None)
                Sample.shop _ Hnd Hp eq_refl eq_refl eq_refl) as H.
  cbv zeta in H. split.
  - rewrite (proj1 (H ltac:(intros w E; injection E as <-; reflexivity)
                      ltac:(discriminate) ltac:(discriminate) ltac:(discriminate)
                      eq_refl eq_refl)).
    reflexivity.
  - split; reflexivity.
Defined.

(** Making charges of 0 cannot be set.  An update that gives a weight,
    making charges of 0 and [null] for every other column stores the 0, but
    prices the product with the making charges it had: the price stored,
    recorded and reported is that of the old making charges, not the price
    of the row as stored.  (As above: [id] is a key, and the columns hold
    the values to write.) *)
Theorem zero_making_charges_are_stored_but_not_priced
    (pid : Z) (d : db) (p : product) (w : float) :
  NoDup (map id (products d)) ->
  In p (products d) ->
  id p = pid ->
  JS.ToBoolean (JS.Num w) = true ->
  let goldPrice :=
    match rev (gold_prices d) with
    | newest :: _ => price_per_gram newest
    | [] => 3000
    end in
  let price :=
    sellingPrice
      (calculatePrice
         {| weight := w; carat := carat p; making_charges := making_charges p;
            profit_margin := profit_margin p |} goldPrice) in
  let row :=
    {| id := pid; name := name p; description := description p;
       pricing := {| weight := w; carat := carat p; making_charges := 0;
                     profit_margin := profit_margin p |};
       selling_price := price; category := category p;
       stock_quantity := stock_quantity p; is_active := is_active p |} in
  let entry :=
    {| product_id := pid; old_price := selling_price p; new_price := price;
       gold_price_per_gram := goldPrice |} in
  Sql.fits_products row = true ->
  Sql.fits_price_history entry = true ->
  put_product pid (Sample.reweigh w (Some 0)) d
  = (Json 200 (ProductUpdated true price),
     {| gold_prices := gold_prices d;
        products := map (fun q => if (id q =? pid)%Z then row else q) (products d);
        price_history := price_history d ++ [entry] |}).
Proof.
  intros Hnd Hp Hid Ht goldPrice price row entry _ _. subst pid.
  rewrite (put_product_found (id p) _ d p [] (select_by_key _ p Hnd Hp)).
  change (Put.complete (Sample.reweigh w (Some 0))) with true.
  assert (Hr : recalculates (Sample.reweigh w (Some 0)) = true).
  { unfold recalculates. cbn [Sample.reweigh Put.weight JS.known JS.field].
    now rewrite Ht. }
  rewrite Hr, price_or_newest. fold goldPrice.
  assert (Ea : priced_as (Sample.reweigh w (Some 0)) p
               = {| weight := w; carat := carat p; making_charges := making_charges p;
                    profit_margin := profit_margin p |}).
  { unfold priced_as.
    cbn [Sample.reweigh Put.weight Put.carat Put.making_charges Put.profit_margin
         JS.known JS.or_text].
    rewrite (or_number_given w _ Ht). reflexivity. }
  rewrite Ea. fold price. fold entry. f_equal. f_equal.
  rewrite (update_by_key (products d) p _ Hnd Hp). reflexivity.
Qed.

(** The necklace of the sample shop, with making charges set to 0 next to
    its weight of 10.5 g: the row holds making charges of 0 and still the
    price 38941.88 of making charges of 7.5 percent, where the price of the
    row as stored is 36225. *)
Lemma zero_making_charges_necklace :
  put_product 1 (Sample.reweigh 10.5 (Some 0)) Sample.shop
  = (Json 200 (ProductUpdated true 38941.88),
     {| gold_prices := gold_prices Sample.shop;
        products :=
          [ Sample.row 1 "24K Gold Necklace" (Sample.item 10.5 "24K" 0 15.0) 38941.88 true;
            Sample.row 2 "22K Gold Bracelet" Sample.bracelet 26519.76 true;
            Sample.row 3 "18K Gold Ring" Sample.ring 10395 false;
            Sample.row 4 "21K Gold Earrings" Sample.earrings 16726.5 true;
            Sample.row 5 "Gold Bar" (Sample.item 1 "24K" 5 10) 0 true ];
        price_history :=
          [ {| product_id := 1; old_price := 38941.88; new_price := 38941.88;
               gold_price_per_gram := 3000 |} ] |})
  /\ sellingPrice (calculatePrice (Sample.item 10.5 "24K" 0 15.0) 3000) = 36225.
Proof.
  assert (Hnd : NoDup (map id (products Sample.shop)))
    by (repeat (constructor; [cbn; intuition discriminate |]); constructor).
  assert (Hp : In (Sample.row 1 "24K Gold Necklace" Sample.necklace 38941.88 true)
                  (products Sample.shop)) by (cbn; auto).
  split.
  - rewrite (zero_making_charges_are_stored_but_not_priced 1 Sample.shop _ 10.5
               Hnd Hp eq_refl eq_refl eq_refl eq_refl).
    reflexivity.
  - reflexivity.
Defined.

(** A row with a given id is selected by that id. *)
Lemma select_product_nonempty (pid : Z) (d : db) (p : product) :
  In p (products d) -> id p = pid ->
  exists p0 others,
    filter (fun q => (id q =? pid)%Z) (products d) = p0 :: others.
Proof.
  intros Hp Hid.
  destruct (filter (fun q => (id q =? pid)%Z) (products d)) as [| p0 others] eqn:F.
  - exfalso. assert (H : In p (filter (fun q => (id q =? pid)%Z) (products d))).
    { apply filter_In. split; [exact Hp |]. now apply Z.eqb_eq. }
    now rewrite F in H.
  - now exists p0, others.
Qed.

(** The [is_active] column decides what the reading endpoints show, when
    it is written.  An update of an existing product whose body gives
    [is_active] and [null] for every other column is answered with 200;
    after it [GET /api/products/:id] answers 200 when the flag given is
    [true] and 404 when it is [false], and [GET /api/products] lists a
    product of that id in the first case and none in the second.  The body
    that gives [is_active] alone, leaving the other fields out, is answered
    with 500 and changes nothing. *)
Theorem is_active_decides_visibility (pid : Z) (d : db) (p : product) (a : bool) :
  In p (products d) ->
  id p = pid ->
  let (r, d') := put_product pid (Sample.activate a) d in
  status r = 200%Z
  /\ status (fst (get_product pid d')) = (if a then 200 else 404)%Z
  /\ existsb (fun q => (id q =? pid)%Z) (body (fst (get_products d'))) = a
  /\ put_product pid (Sample.only_is_active a) d = (Json 500 UpdateFailed, d).
Proof.
  intros Hp Hid.
  destruct (select_product_nonempty pid d p Hp Hid) as (p0 & others & F).
  rewrite !(put_product_found pid _ d p0 others F).
  change (Put.complete (Sample.activate a)) with true.
  change (Put.complete (Sample.only_is_active a)) with false.
  change (recalculates (Sample.activate a)) with false.
  change (recalculates (Sample.only_is_active a)) with false.
  cbv iota. split; [reflexivity |].
  match goal with
  | |- context [map ?f (products d)] => set (upd := f)
  end.
  assert (Hact : forall q, In q (map upd (products d)) -> id q = pid -> is_active q = a).
  { intros q Hq E. apply in_map_iff in Hq as (q0 & <- & _). subst upd. cbn beta in *.
    destruct (id q0 =? pid)%Z eqn:E0.
    - reflexivity.
    - cbn in E. apply Z.eqb_neq in E0. contradiction. }
  assert (Hin : exists q, In q (map upd (products d)) /\ id q = pid).
  { exists (upd p). split; [now apply in_map |].
    subst upd. cbn beta. destruct (id p =? pid)%Z; exact Hid. }
  split; [| split]; [| | now destruct d].
  all: unfold get_product, get_products, bind, ret, Sql.select_active_product,
         Sql.select_active_products_newest_first;
       cbn [products fst snd body];
       generalize dependent (map upd (products d)); intros rows Hact (q & Hq & E).
  - destruct a.
    + destruct (filter _ rows) as [| r rs] eqn:F'; [| reflexivity].
      exfalso.
      assert (H : In q (filter (fun p1 => (id p1 =? pid)%Z && is_active p1) rows)).
      { apply filter_In. split; [exact Hq |].
        rewrite (Hact q Hq E). now rewrite (proj2 (Z.eqb_eq _ _) E). }
      now rewrite F' in H.
    + rewrite filter_none; [reflexivity |].
      intros x Hx. destruct (id x =? pid)%Z eqn:E1; [| reflexivity].
      apply Z.eqb_eq in E1. now rewrite (Hact x Hx E1).
  - destruct a.
    + apply existsb_exists. exists q. split.
      * rewrite <- in_rev. apply filter_In. split; [exact Hq | now apply Hact].
      * now apply Z.eqb_eq.
    + apply not_true_is_false. intros H. apply existsb_exists in H as (x & Hx & E1).
      rewrite <- in_rev in Hx. apply filter_In in Hx as [Hx Hxa].
      apply Z.eqb_eq in E1. rewrite (Hact x Hx E1) in Hxa. discriminate.
Qed.

(** The earrings of the sample shop, product 4, withdrawn: with [null] for
    the other columns they are gone from both endpoints; with the other
    fields left out the answer is 500 and they stay. *)
Lemma is_active_decides_visibility_earrings :
  (let (r, d') := put_product 4 (Sample.activate false) Sample.shop in
   status r = 200%Z
   /\ status (fst (get_product 4 d')) = 404%Z
   /\ existsb (fun q => (id q =? 4)%Z) (body (fst (get_products d'))) = false
   /\ put_product 4 (Sample.only_is_active false) Sample.shop
      = (Json 500 UpdateFailed, Sample.shop))
  /\ status (fst (get_product 4 Sample.shop)) = 200%Z
  /\ status (fst (get_product 4
                    (snd (put_product 4 (Sample.only_is_active false) Sample.shop))))
     = 200%Z.
Proof.
  split; [| split; reflexivity].
  apply (is_active_decides_visibility 4 Sample.shop
           (Sample.row 4 "21K Gold Earrings" Sample.earrings 16726.5 true) false).
  - cbn. auto 6.
  - reflexivity.
Defined.

End UpdateProduct.

(** ** The price history of a product *)

Section PriceHistory.

Import GoldPriceCalculator Server.

Lemma in_firstn {A : Type} (n : nat) (l : list A) (x : A) :
  In x (firstn n l) -> In x l.
Proof.
  revert l. induction n as [| n IH]; intros [| a l]; cbn; try contradiction.
  intros [-> | H]; auto.
Qed.

(** [GET /api/products/:id/price-history] answers with at most 50 entries;
    each of them is an entry of the history written for the id asked for,
    carrying the name of a product with that id; the store is not
    changed. *)
Theorem price_history_is_of_the_product (pid : Z) (d : db) :
  let rows := body (fst (get_price_history pid d)) in
  (List.length rows <= 50)%nat
  /\ Forall (fun e : Sql.history_entry =>
               product_id (Sql.entry e) = pid
               /\ In (Sql.entry e) (price_history d)
               /\ exists p, In p (products d) /\ id p = pid
                            /\ Sql.product_name e = name p) rows
  /\ snd (get_price_history pid d) = d.
Proof.
  unfold get_price_history, bind, ret, Sql.select_price_history.
  cbn [fst snd body]. split; [| split; [| reflexivity]].
  - apply firstn_le_length.
  - apply Forall_forall. intros e He.
    apply in_firstn in He. rewrite <- in_rev in He.
    apply in_flat_map in He as (ph & Hph & He).
    destruct (product_id ph =? pid)%Z eqn:E; [| contradiction].
    apply Z.eqb_eq in E.
    apply in_map_iff in He as (p & <- & Hp).
    apply filter_In in Hp as [Hp Hid]. apply Z.eqb_eq in Hid.
    cbn. split; [exact E | split; [exact Hph |]].
    exists p. repeat split; [exact Hp | congruence].
Qed.

Lemma flat_map_none {A B : Type} (G : A -> list B) (l : list A) :
  (forall x, In x l -> G x = []) -> flat_map G l = [].
Proof.
  induction l as [| a l IH]; intros H; cbn; [reflexivity |].
  rewrite (H a) by (cbn; auto). apply IH. intros x Hx. apply H. now right.
Qed.

(** In a list of rows with distinct ids, only the row [p] contributes. *)
Lemma flat_map_one {B : Type} (G : product -> list B) (rows : list product)
    (p : product) :
  NoDup (map id rows) -> In p rows ->
  (forall q, In q rows -> id q <> id p -> G q = []) ->
  flat_map G rows = G p.
Proof.
  induction rows as [| r rows IH]; cbn [In map flat_map]; [contradiction |].
  intros Hnd Hp HG. inversion Hnd as [| ? ? Hnotin Hnd']; subst.
  destruct Hp as [-> | Hp].
  - rewrite flat_map_none; [apply app_nil_r |].
    intros q Hq. apply HG; [now right |].
    intros E. apply Hnotin. rewrite <- E. now apply in_map.
  - rewrite (HG r).
    + cbn [app]. apply IH; auto; intros q Hq; apply HG; now right.
    + now left.
    + intros E. apply Hnotin. rewrite E. now apply in_map.
Qed.

Lemma NoDup_filter_ids (f : product -> bool) (rows : list product) :
  NoDup (map id rows) -> NoDup (map id (filter f rows)).
Proof.
  induction rows as [| r rows IH]; cbn; intros Hnd; [constructor |].
  inversion Hnd as [| ? ? Hnotin Hnd']; subst.
  destruct (f r); cbn; auto. constructor; auto.
  intros H. apply Hnotin. apply in_map_iff in H as (q & E & Hq).
  apply filter_In in Hq as [Hq _]. rewrite <- E. now apply in_map.
Qed.

(** Every repricing is recorded.  With [id] a key, after a request that
    sets the gold price, and whose values the columns hold (as for the
    recalculation above: the gold price, the old and the new prices are
    values of DECIMAL(10,2)), the newest entry of the price history of an
    active product holds the price the product had, the price it has now
    and the gold price of the request, under the name of the product; and
    [GET /api/products/:id] shows the product with that new price as its
    selling price and nothing else changed. *)
Theorem repricing_is_recorded (d : db) (v : JS.value) (c : option string)
    (p : product) :
  NoDup (map id (products d)) ->
  JS.ToBoolean v = true ->
  JS.isNaN v = false ->
  Sql.fits_gold_prices
    {| price_per_gram := JS.parseFloat v;
       gold_carat := match c with Some l => l | None => "24K"%string end |} = true ->
  forallb
    (fun q => Sql.fits_price_history
                {| product_id := id q;
                   old_price := selling_price q;
                   new_price := sellingPrice (calculatePrice q (JS.parseFloat v));
                   gold_price_per_gram := JS.ToNumber v |})
    (filter is_active (products d)) = true ->
  In p (products d) ->
  is_active p = true ->
  let d' := snd (post_gold_price v c d) in
  let new := sellingPrice (calculatePrice p (JS.parseFloat v)) in
  hd_error (body (fst (get_price_history (id p) d')))
  = Some {| Sql.entry := {| product_id := id p;
                            old_price := selling_price p;
                            new_price := new;
                            gold_price_per_gram := JS.ToNumber v |};
            Sql.product_name := name p |}
  /\ fst (get_product (id p) d')
     = Json 200
         (ProductRow
            {| id := id p; name := name p; description := description p;
               pricing := pricing p; selling_price := new;
               category := category p; stock_quantity := stock_quantity p;
               is_active := true |}).
Proof.
  intros Hnd Ht Hn _ _ Hp Ha d' new.
  pose proof (post_gold_price_accepted v c d Ht Hn) as H.
  subst d'. destruct (post_gold_price v c d) as [r d']. cbn [snd].
  destruct H as (_ & Hh & Hrows & _).
  rewrite (update_active_rows v (products d) Hnd) in Hrows.
  set (upd := fun q : product =>
                if is_active q
                then Sql.set_selling_price (new_selling_price v q) q else q) in *.
  assert (Hidupd : forall q, id (upd q) = id q).
  { intros q. unfold upd. now destruct (is_active q). }
  assert (Hnd' : NoDup (map id (products d'))).
  { rewrite Hrows, map_map. erewrite map_ext; [exact Hnd | exact Hidupd]. }
  assert (Hp' : In (upd p) (products d')).
  { rewrite Hrows. now apply in_map. }
  assert (Hupd : upd p = Sql.set_selling_price new p).
  { unfold upd. now rewrite Ha. }
  pose proof (select_by_key (products d') (upd p) Hnd' Hp') as Hsel.
  rewrite Hidupd in Hsel.
  split.
  - unfold get_price_history, bind, ret, Sql.select_price_history.
    cbn [fst body]. rewrite Hh, flat_map_app, rev_app_distr.
    rewrite flat_map_concat_map, map_map, <- flat_map_concat_map.
    rewrite (flat_map_one _ (filter is_active (products d)) p).
    + cbn [history_of product_id]. rewrite Z.eqb_refl, Hsel, Hupd. reflexivity.
    + now apply NoDup_filter_ids.
    + apply filter_In. auto.
    + intros q _ E. cbn [history_of product_id].
      now rewrite (proj2 (Z.eqb_neq _ _) E).
  - unfold get_product, bind, Sql.select_active_product.
    assert (F : filter (fun q => (id q =? id p)%Z && is_active q) (products d')
                = [upd p]).
    { clear - Hsel Hupd Ha.
      induction (products d') as [| q rows IH]; [discriminate Hsel |].
      cbn in *. destruct (id q =? id p)%Z.
      - injection Hsel as -> Hrest. rewrite Hupd. cbn [is_active Sql.set_selling_price].
        rewrite Ha. cbn. f_equal.
        clear - Hrest. induction rows as [| q rows IH]; [reflexivity |].
        cbn in *. destruct (id q =? id p)%Z; [discriminate |]. cbn. now apply IH.
      - cbn. now apply IH. }
    rewrite F, Hupd. unfold Sql.set_selling_price. now rewrite Ha.
Qed.

(** The bracelet of the sample shop, product 2, after gold is set to
    3100: the history shows 26519.76, then 27403.76, at 3100, and the
    product is shown at 27403.76. *)
Lemma repricing_is_recorded_bracelet :
  let d' := snd (post_gold_price (JS.Num 3100) None Sample.shop) in
  hd_error (body (fst (get_price_history 2 d')))
  = Some {| Sql.entry := {| product_id := 2;
                            old_price := 26519.76;
                            new_price := 27403.76;
                            gold_price_per_gram := 3100 |};
            Sql.product_name := "22K Gold Bracelet" |}
  /\ fst (get_product 2 d')
     = Json 200
         (ProductRow
            {| id := 2; name := "22K Gold Bracelet"; description := EmptyString;
               pricing := Sample.bracelet; selling_price := 27403.76;
               category := "Uncategorized"; stock_quantity := 0;
               is_active := true |}).
Proof.
  assert (Hnd : NoDup (map id (products Sample.shop)))
    by (repeat (constructor; [cbn; intuition discriminate |]); constructor).
  assert (Hp : In (Sample.row 2 "22K Gold Bracelet" Sample.bracelet 26519.76 true)
                  (products Sample.shop)) by (cbn; auto).
  exact (repricing_is_recorded Sample.shop (JS.Num 3100) None _
           Hnd eq_refl eq_refl eq_refl eq_refl Hp eq_refl).
Defined.

End PriceHistory.

(** ** The default data *)

Section DefaultData.

Import GoldPriceCalculator Server.

Lemma count_is_zero {A : Type} (l : list A) :
  (Z.of_nat (List.length l) =? 0)%Z = match l with [] => true | _ => false end.
Proof. destruct l; [reflexivity |]. cbn [List.length]. apply Z.eqb_neq. lia. Qed.

(** The loop over the samples adds one product per sample and touches
    nothing else. *)
Lemma insert_samples_adds (goldPrice : float) samples :
  forall d : db,
    exists rows : list product,
      List.length rows = List.length samples
      /\ insert_samples goldPrice samples d
         = (tt, {| gold_prices := gold_prices d;
                   products := products d ++ rows;
                   price_history := price_history d |}).
Proof.
  induction samples as [| [[[[[[n ds] w] c] mc] pm] cat] samples IH]; intros d.
  - exists []. split; [reflexivity |]. cbn. rewrite app_nil_r. now destruct d.
  - cbn [insert_samples]. unfold bind at 1. unfold Sql.insert_product at 1.
    match goal with |- context [insert_samples _ _ ?d1] => destruct (IH d1) as (rows & Hl & ->) end.
    cbn [gold_prices products price_history].
    eexists (_ :: rows). split; [cbn; now rewrite Hl |].
    rewrite <- app_assoc. reflexivity.
Qed.

(** What [initializeDefaultData] does to the store, by cases. *)
Lemma initializeDefaultData_cases (d : db) :
  let prices :=
    match gold_prices d with
    | [] => [{| price_per_gram := 3000; gold_carat := "24K" |}]
    | _ => gold_prices d
    end in
  let d1 := {| gold_prices := prices; products := products d;
               price_history := price_history d |} in
  initializeDefaultData d
  = match products d with
    | [] => insert_samples (price_or (firstn 1 (rev prices)) 3000) sampleProducts d1
    | _ => (tt, d1)
    end.
Proof.
  cbv zeta. unfold initializeDefaultData.
  unfold bind at 1. unfold Sql.count_gold_prices at 1. rewrite count_is_zero.
  destruct d as [g rows h]. cbn [gold_prices products price_history].
  destruct g as [| g0 g].
  - unfold bind at 1. unfold Sql.insert_gold_price at 1.
    cbn [gold_prices products price_history app].
    unfold bind at 1. unfold Sql.count_products at 1. rewrite count_is_zero.
    cbn [products]. destruct rows; reflexivity.
  - unfold bind at 1. unfold ret at 1.
    unfold bind at 1. unfold Sql.count_products at 1. rewrite count_is_zero.
    cbn [products]. destruct rows; reflexivity.
Qed.

(** [initializeDefaultData] is idempotent: a second run changes nothing.
    After the first run there is a gold price and there are products, so
    neither default is inserted again. *)
Theorem initializeDefaultData_twice (d : db) :
  snd (initializeDefaultData (snd (initializeDefaultData d)))
  = snd (initializeDefaultData d).
Proof.
  assert (Hfix : forall e : db,
             gold_prices e <> [] -> products e <> [] ->
             snd (initializeDefaultData e) = e).
  { intros [g rows h] Hg Hr. rewrite initializeDefaultData_cases.
    cbn [gold_prices products price_history] in *.
    destruct g; [congruence |]. destruct rows; [congruence |]. reflexivity. }
  apply Hfix.
  - rewrite initializeDefaultData_cases. cbv zeta.
    destruct (products d).
    + match goal with |- context [insert_samples ?g ?s ?d1] =>
        destruct (insert_samples_adds g s d1) as (rows & _ & ->) end.
      cbn. destruct (gold_prices d); discriminate.
    + cbn. destruct (gold_prices d); discriminate.
  - rewrite initializeDefaultData_cases. cbv zeta.
    destruct (products d) eqn:E.
    + match goal with |- context [insert_samples ?g ?s ?d1] =>
        destruct (insert_samples_adds g s d1) as (rows & Hl & ->) end.
      cbn. destruct rows; [discriminate Hl | discriminate].
    + cbn. discriminate.
Qed.

(** A store that has products keeps them: [initializeDefaultData] adds the
    sample products only to an empty table, and it never changes a gold
    price that is stored or the price history. *)
Theorem initializeDefaultData_keeps_products (d : db) :
  products d <> [] ->
  products (snd (initializeDefaultData d)) = products d
  /\ price_history (snd (initializeDefaultData d)) = price_history d
  /\ (gold_prices d <> [] -> snd (initializeDefaultData d) = d).
Proof.
  intros H. rewrite initializeDefaultData_cases. cbv zeta.
  destruct d as [g rows h]. cbn [gold_prices products price_history] in *.
  destruct rows; [congruence |]. cbn. repeat split.
  intros Hg. destruct g; [congruence | reflexivity].
Qed.

Lemma initializeDefaultData_keeps_shop :
  products (snd (initializeDefaultData Sample.shop)) = products Sample.shop
  /\ price_history (snd (initializeDefaultData Sample.shop)) = price_history Sample.shop
  /\ (gold_prices Sample.shop <> [] -> snd (initializeDefaultData Sample.shop) = Sample.shop).
Proof.
  apply (initializeDefaultData_keeps_products Sample.shop). discriminate.
Defined.

(** On a store without products, [initializeDefaultData] adds the four
    sample products as products 1 to 4, active, each at the price that
    [calculatePrice] gives it at the newest stored gold price, whatever
    that is, or at the 3000 that is inserted when none is stored; as long
    as these four prices are values of DECIMAL(10,2), the column they are
    written to. *)
Theorem sample_products_are_priced_at_the_gold_price_in_force (d : db) :
  products d = [] ->
  let goldPrice :=
    match rev (gold_prices d) with
    | newest :: _ => price_per_gram newest
    | [] => 3000
    end in
  forallb (fun a => Sql.DECIMAL 10 2 (sellingPrice (calculatePrice a goldPrice)))
    [Sample.necklace; Sample.bracelet; Sample.ring; Sample.earrings] = true ->
  let d' := snd (initializeDefaultData d) in
  let sample i n ds a cat :=
    {| id := i; name := n; description := ds; pricing := a;
       selling_price := sellingPrice (calculatePrice a goldPrice);
       category := cat; stock_quantity := 0; is_active := true |} in
  products d'
  = [ sample 1%Z "24K Gold Necklace"%string "Premium 24K gold necklace"%string
        Sample.necklace "Necklace"%string;
      sample 2%Z "22K Gold Bracelet"%string "Elegant 22K gold bracelet"%string
        Sample.bracelet "Bracelet"%string;
      sample 3%Z "18K Gold Ring"%string "Beautiful 18K gold ring"%string
        Sample.ring "Ring"%string;
      sample 4%Z "21K Gold Earrings"%string "Stylish 21K gold earrings"%string
        Sample.earrings "Earrings"%string ]
  /\ gold_prices d'
     = match gold_prices d with
       | [] => [{| price_per_gram := 3000; gold_carat := "24K" |}]
       | _ => gold_prices d
       end.
Proof.
  intros H goldPrice _ d' sample. subst d' sample.
  rewrite initializeDefaultData_cases. cbv zeta. rewrite H.
  assert (E : price_or
                (firstn 1 (rev match gold_prices d with
                               | [] => [{| price_per_gram := 3000; gold_carat := "24K" |}]
                               | _ => gold_prices d
                               end)) 3000
              = goldPrice).
  { subst goldPrice. destruct (gold_prices d) as [| g l]; [reflexivity |].
    unfold price_or. now destruct (rev (g :: l)). }
  rewrite E. split; reflexivity.
Qed.

(** The empty store: gold at 3000 and the four products at 38941.88,
    26519.76, 10395 and 16726.5.  A store with gold at 3100, and below it
    at 0, and no product: the four products at 40239.94, 27403.76, 10741.5
    and 17284.05, and at 0. *)
Lemma sample_products_on_the_empty_store :
  let prices_after (stored : list float) :=
    map selling_price
      (products
         (snd (initializeDefaultData
                 {| gold_prices :=
                      map (fun g => {| price_per_gram := g; gold_carat := "24K" |})
                          stored;
                    products := []; price_history := [] |}))) in
  prices_after [] = [38941.88; 26519.76; 10395; 16726.5]
  /\ prices_after [3000; 3100] = [40239.94; 27403.76; 10741.5; 17284.05]
  /\ prices_after [3100; 0] = [0; 0; 0; 0].
Proof.
  cbv beta zeta. cbn [map]. split; [| split].
  - rewrite (proj1 (sample_products_are_priced_at_the_gold_price_in_force
                      {| gold_prices := []; products := []; price_history := [] |}
                      eq_refl eq_refl)).
    reflexivity.
  - rewrite (proj1 (sample_products_are_priced_at_the_gold_price_in_force
                      {| gold_prices :=
                           [ {| price_per_gram := 3000; gold_carat := "24K" |};
                             {| price_per_gram := 3100; gold_carat := "24K" |} ];
                         products := []; price_history := [] |}
                      eq_refl eq_refl)).
    reflexivity.
  - rewrite (proj1 (sample_products_are_priced_at_the_gold_price_in_force
                      {| gold_prices :=
                           [ {| price_per_gram := 3100; gold_carat := "24K" |};
                             {| price_per_gram := 0; gold_carat := "24K" |} ];
                         products := []; price_history := [] |}
                      eq_refl eq_refl)).
    reflexivity.
Defined.

End DefaultData.

(** ** Connecting to the database *)

Section Connecting.

Import Server Startup.

Lemma five_and_more (fuel : nat) :
  (5 <= fuel)%nat -> exists f, fuel = S (S (S (S (S f)))).
Proof. intros H. exists (fuel - 5)%nat. lia. Qed.

(** The five attempts, one after the other. *)
Lemma connectDB_unrolled (f : nat) (server : Z -> answer) (d : db) :
  let ready delays := (Some (Normal tt, delays), snd (initializeDefaultData d)) in
  connectDB (S (S (S (S (S f))))) server d
  = match server 0%Z with
    | Accepts => ready []
    | Refuses _ =>
        match server 1%Z with
        | Accepts => ready [2000%Z]
        | Refuses _ =>
            match server 2%Z with
            | Accepts => ready [2000; 4000]%Z
            | Refuses _ =>
                match server 3%Z with
                | Accepts => ready [2000; 4000; 8000]%Z
                | Refuses _ =>
                    match server 4%Z with
                    | Accepts => ready [2000; 4000; 8000; 16000]%Z
                    | Refuses e => (Some (Throw e, [2000; 4000; 8000; 16000]%Z), d)
                    end
                end
            end
        end
    end.
Proof.
  intros ready.
  assert (Hinit : forall delays : list Z,
             (createTables ;;; initializeDefaultData ;;; ret (Some (Normal tt, delays))) d
             = ready delays).
  { intros delays. unfold createTables, bind, ret, ready.
    now destruct (initializeDefaultData d) as [[] d']. }
  unfold connectDB. cbn [connect_loop].
  cbn -[connect_loop Server.initializeDefaultData].
  destruct (server 0%Z); [| now rewrite Hinit].
  destruct (server 1%Z); [| unfold bind at 1; now rewrite Hinit].
  destruct (server 2%Z); [| do 2 (unfold bind at 1); now rewrite Hinit].
  destruct (server 3%Z); [| do 3 (unfold bind at 1); now rewrite Hinit].
  destruct (server 4%Z); [reflexivity |].
  do 4 (unfold bind at 1). now rewrite Hinit.
Qed.

(** [connectDB] gives up after five refusals: it rethrows the error of the
    fifth attempt, having waited 2, 4, 8 and 16 seconds between the
    attempts and not after the last one, and the store is as it was. *)
Theorem connectDB_gives_up_after_five_attempts
    (fuel : nat) (server : Z -> answer) (d : db) (e1 e2 e3 e4 e5 : string) :
  (5 <= fuel)%nat ->
  server 0%Z = Refuses e1 ->
  server 1%Z = Refuses e2 ->
  server 2%Z = Refuses e3 ->
  server 3%Z = Refuses e4 ->
  server 4%Z = Refuses e5 ->
  connectDB fuel server d
  = (Some (Throw e5, [2000; 4000; 8000; 16000]%Z), d).
Proof.
  intros Hf H0 H1 H2 H3 H4.
  destruct (five_and_more fuel Hf) as (f & ->).
  rewrite connectDB_unrolled. now rewrite H0, H1, H2, H3, H4.
Qed.

(** A database server that is never there. *)
Lemma connectDB_gives_up_on_ECONNREFUSED :
  connectDB 5 (fun _ => Refuses "ECONNREFUSED") Sample.shop
  = (Some (Throw "ECONNREFUSED", [2000; 4000; 8000; 16000]%Z), Sample.shop).
Proof.
  apply (connectDB_gives_up_after_five_attempts 5 (fun _ => Refuses "ECONNREFUSED")
           Sample.shop "ECONNREFUSED" "ECONNREFUSED" "ECONNREFUSED" "ECONNREFUSED"
           "ECONNREFUSED");
    reflexivity || lia.
Defined.

(** [connectDB] stops at the first attempt that the database server
    accepts.  When that is the attempt after [k] refusals, [k] below 5, the
    call returns normally, the delays waited are the first [k] of 2, 4, 8
    and 16 seconds, and the default data has been initialised, once. *)
Theorem connectDB_stops_at_the_first_success
    (fuel : nat) (server : Z -> answer) (d : db) (k : Z) :
  (5 <= fuel)%nat ->
  (0 <= k < 5)%Z ->
  (forall n, (0 <= n < k)%Z -> exists e, server n = Refuses e) ->
  server k = Accepts ->
  connectDB fuel server d
  = (Some (Normal tt, firstn (Z.to_nat k) [2000; 4000; 8000; 16000]%Z),
     snd (initializeDefaultData d)).
Proof.
  intros Hf Hk Hr Ha.
  destruct (five_and_more fuel Hf) as (f & ->).
  assert (R : forall n, (0 <= n < k)%Z -> server n = Accepts -> False).
  { intros n Hn E. destruct (Hr n Hn) as [e E']. congruence. }
  assert (Hcase : k = 0%Z \/ k = 1%Z \/ k = 2%Z \/ k = 3%Z \/ k = 4%Z) by lia.
  rewrite connectDB_unrolled. cbv zeta.
  destruct (server 0%Z) eqn:E0.
  2:{ destruct Hcase as [-> | Hcase]; [reflexivity |].
      exfalso. apply (R 0%Z); [lia | exact E0]. }
  destruct Hcase as [-> | Hcase]; [congruence |].
  destruct (server 1%Z) eqn:E1.
  2:{ destruct Hcase as [-> | Hcase]; [reflexivity |].
      exfalso. apply (R 1%Z); [lia | exact E1]. }
  destruct Hcase as [-> | Hcase]; [congruence |].
  destruct (server 2%Z) eqn:E2.
  2:{ destruct Hcase as [-> | Hcase]; [reflexivity |].
      exfalso. apply (R 2%Z); [lia | exact E2]. }
  destruct Hcase as [-> | Hcase]; [congruence |].
  destruct (server 3%Z) eqn:E3.
  2:{ destruct Hcase as [-> | Hcase]; [reflexivity |].
      exfalso. apply (R 3%Z); [lia | exact E3]. }
  destruct Hcase as [-> | ->]; [congruence |].
  now rewrite Ha.
Qed.

(** A database server that accepts the third attempt: the sample shop is
    reached after waits of 2 and 4 seconds. *)
Lemma connectDB_third_attempt :
  connectDB 5 (fun n => if (n <? 2)%Z then Refuses "ETIMEDOUT" else Accepts) Sample.shop
  = (Some (Normal tt, firstn (Z.to_nat 2) [2000; 4000; 8000; 16000]%Z),
     snd (initializeDefaultData Sample.shop)).
Proof.
  apply (connectDB_stops_at_the_first_success 5
           (fun n => if (n <? 2)%Z then Refuses "ETIMEDOUT" else Accepts)
           Sample.shop 2%Z).
  - lia.
  - lia.
  - intros n Hn. exists "ETIMEDOUT"%string.
    now rewrite (proj2 (Z.ltb_lt n 2) (proj2 Hn)).
  - reflexivity.
Defined.

(** Whatever the database server does, [connectDB] ends: within five
    attempts it has returned or thrown, the delays it has waited are an
    initial part of 2, 4, 8 and 16 seconds, and it has thrown only after
    all four of them. *)
Theorem connectDB_ends_within_five_attempts
    (fuel : nat) (server : Z -> answer) (d : db) :
  (5 <= fuel)%nat ->
  exists (c : completion unit) (delays : list Z),
    fst (connectDB fuel server d) = Some (c, delays)
    /\ delays = firstn (List.length delays) [2000; 4000; 8000; 16000]%Z
    /\ ((exists e, c = Throw e) -> delays = [2000; 4000; 8000; 16000]%Z).
Proof.
  intros Hf. destruct (five_and_more fuel Hf) as (f & ->).
  rewrite connectDB_unrolled. cbv zeta.
  assert (Hret : forall (delays : list Z) (e0 : db),
             delays = firstn (List.length delays) [2000; 4000; 8000; 16000]%Z ->
             exists (c : completion unit) (delays0 : list Z),
               fst (Some (Normal tt, delays), e0) = Some (c, delays0)
               /\ delays0 = firstn (List.length delays0) [2000; 4000; 8000; 16000]%Z
               /\ ((exists e, c = Throw e) -> delays0 = [2000; 4000; 8000; 16000]%Z)).
  { intros delays e0 H. exists (Normal tt), delays.
    split; [reflexivity | split; [exact H |]]. intros [e E]. discriminate E. }
  destruct (server 0%Z); [| now apply Hret].
  destruct (server 1%Z); [| now apply Hret].
  destruct (server 2%Z); [| now apply Hret].
  destruct (server 3%Z); [| now apply Hret].
  destruct (server 4%Z); [| now apply Hret].
  do 2 eexists. split; [reflexivity |]. split; reflexivity.
Qed.

Lemma connectDB_ends_within_five_attempts_shop :
  exists (c : completion unit) (delays : list Z),
    fst (connectDB 7 (fun n => if (n <? 2)%Z then Refuses "ETIMEDOUT" else Accepts)
           Sample.shop) = Some (c, delays)
    /\ delays = firstn (List.length delays) [2000; 4000; 8000; 16000]%Z
    /\ ((exists e, c = Throw e) -> delays = [2000; 4000; 8000; 16000]%Z).
Proof.
  apply (connectDB_ends_within_five_attempts 7
           (fun n => if (n <? 2)%Z then Refuses "ETIMEDOUT" else Accepts) Sample.shop).
  lia.
Defined.

End Connecting.

(** ** The reported change when nothing changes *)

Section NoChange.

Import GoldPriceCalculator Server.

Lemma sub_self_finite (x : float) s m e :
  Prim2SF x = S754_finite s m e -> x - x = 0.
Proof.
  intros H. apply Prim2SF_inj. rewrite sub_spec, H.
  unfold SF64sub, SFsub. rewrite Z.sub_diag. reflexivity.
Qed.

(** The percentage reported for a product whose price stays what it
    was. *)
Lemma percent_of_same (x : float) :
  JS.toFixed 2 ((x - x) / x * 100)
  = if JS.ToBoolean (JS.Num x) && is_finite x then "0.00"%string else "NaN"%string.
Proof.
  destruct (Prim2SF x) as [s | s | | s m e] eqn:E.
  - apply float_of_SF in E. subst x. now destruct s.
  - apply float_of_SF in E. subst x. now destruct s.
  - apply float_of_SF in E. subst x. reflexivity.
  - rewrite (sub_self_finite x s m e E).
    assert (Hz : Prim2SF (0 / x * 100) = S754_zero s).
    { rewrite mul_spec, div_spec, E.
      change (Prim2SF 0) with (S754_zero false).
      change (Prim2SF 100) with (S754_finite false 7036874417766400 (-46)).
      now destruct s. }
    assert (Ht : JS.ToBoolean (JS.Num x) && is_finite x = true).
    { unfold JS.ToBoolean, is_finite, is_zero, is_nan, is_infinity.
      rewrite !eqb_spec, abs_spec, E.
      change (Prim2SF zero) with (S754_zero false).
      change (Prim2SF infinity) with (S754_infinity false).
      cbn. rewrite Z.compare_refl.
      change (PosDef.Pos.compare_cont Eq m m) with (m ?= m)%positive.
      rewrite Pos.compare_refl. now destruct s. }
    rewrite Ht. unfold JS.toFixed. rewrite Hz. reflexivity.
Qed.

(** The entry reported for a product does not depend on the store. *)
Lemma reprice_all_details (v : JS.value) (batch : list product) :
  forall d e : db,
    fst (reprice_all v batch d) = map (fun p => fst (reprice v p e)) batch.
Proof.
  induction batch as [| q batch IH]; intros d e; [reflexivity |].
  cbn [reprice_all map]. unfold bind at 1.
  destruct (reprice v q d) as [r d1] eqn:R.
  unfold bind at 1. specialize (IH d1 e).
  destruct (reprice_all v batch d1) as [rs d2]. cbn [fst] in *.
  unfold ret. cbn [fst]. f_equal; [| exact IH].
  change r with (fst (r, d1)). rewrite <- R. reflexivity.
Qed.

Lemma post_gold_price_details (d : db) (v : JS.value) (c : option string) :
  JS.ToBoolean v = true -> JS.isNaN v = false ->
  fst (post_gold_price v c d)
  = Json 200 (GoldPriceUpdated true
                (Z.of_nat (List.length (filter is_active (products d))))
                (map (fun p => fst (reprice v p d)) (filter is_active (products d)))).
Proof.
  intros Ht Hn. unfold post_gold_price. rewrite Ht, Hn. cbn [negb orb].
  unfold bind at 1. unfold Sql.insert_gold_price at 1.
  unfold bind at 1. unfold Sql.select_active_products at 1. cbn [products].
  unfold bind at 1.
  match goal with |- context [reprice_all _ ?b ?d1] =>
    pose proof (reprice_all_details v b d1 d) as H;
    destruct (reprice_all v b d1) as [rs d'] end.
  cbn [fst] in H. unfold ret. cbn [fst]. rewrite H, length_map. reflexivity.
Qed.

(** A value of a DECIMAL column is a finite number. *)
Lemma DECIMAL_finite (p s : Z) (x : float) :
  Sql.DECIMAL p s x = true ->
  is_finite x = true /\ JS.ToBoolean (JS.Num x) = negb (is_zero x).
Proof.
  unfold Sql.DECIMAL.
  destruct (Prim2SF x) as [sg | sg | | sg m e] eqn:E; try discriminate.
  - apply float_of_SF in E. subst x. now destruct sg.
  - intros _.
    assert (Hf : is_finite x = true /\ is_nan x = false).
    { unfold is_finite, is_nan, is_infinity.
      rewrite !eqb_spec, abs_spec, E.
      change (Prim2SF infinity) with (S754_infinity false).
      cbn. rewrite Z.compare_refl.
      change (PosDef.Pos.compare_cont Eq m m) with (m ?= m)%positive.
      rewrite Pos.compare_refl. now destruct sg. }
    destruct Hf as [Hf Hn]. split; [exact Hf |].
    cbn [JS.ToBoolean]. now rewrite Hn, orb_false_r.
Qed.

(** Setting the gold price to what it is reports no change.  With [id] a
    key, when a gold price is posted a second time, and the columns hold
    the values that the first request writes (as for the recalculation
    above; the second request then writes values that they hold, too), the
    answer lists every active product with its new price equal to its old
    one, the price the first request gave it, and with a [change] of
    ["0.00%"]; only for a product whose price is 0 it reads ["NaN%"]. *)
Theorem same_price_again_reports_no_change (d : db) (v : JS.value) (c : option string) :
  NoDup (map id (products d)) ->
  JS.ToBoolean v = true ->
  JS.isNaN v = false ->
  Sql.fits_gold_prices
    {| price_per_gram := JS.parseFloat v;
       gold_carat := match c with Some l => l | None => "24K"%string end |} = true ->
  forallb
    (fun p => Sql.fits_price_history
                {| product_id := id p;
                   old_price := selling_price p;
                   new_price := sellingPrice (calculatePrice p (JS.parseFloat v));
                   gold_price_per_gram := JS.ToNumber v |})
    (filter is_active (products d)) = true ->
  let once := snd (post_gold_price v c d) in
  fst (post_gold_price v c once)
  = Json 200
      (GoldPriceUpdated true
         (Z.of_nat (List.length (filter is_active (products d))))
         (map (fun p : product =>
                 let price := sellingPrice (calculatePrice p (JS.parseFloat v)) in
                 {| detail_id := id p;
                    detail_name := name p;
                    detail_old_price := price;
                    detail_new_price := price;
                    change := if is_zero price then "NaN%"%string
                              else "0.00%"%string |})
              (filter is_active (products d))))
  /\ forallb
       (fun p => Sql.fits_price_history
                   {| product_id := id p;
                      old_price := selling_price p;
                      new_price := sellingPrice (calculatePrice p (JS.parseFloat v));
                      gold_price_per_gram := JS.ToNumber v |})
       (filter is_active (products once)) = true.
Proof.
  intros Hnd Ht Hn _ Hfits once.
  set (upd := fun p : product =>
                if is_active p
                then Sql.set_selling_price (new_selling_price v p) p else p).
  assert (Hrows : products once = map upd (products d)).
  { subst once.
    pose proof (post_gold_price_accepted v c d Ht Hn) as H.
    destruct (post_gold_price v c d) as [r d']. cbn [snd].
    destruct H as (_ & _ & Hp & _). rewrite Hp. now apply update_active_rows. }
  assert (Hact : filter is_active (products once)
                 = map upd (filter is_active (products d))).
  { rewrite Hrows. generalize (products d). intros rows.
    induction rows as [| p rows IH]; [reflexivity |].
    cbn [map filter].
    assert (Hu : is_active (upd p) = is_active p)
      by (unfold upd; destruct (is_active p) eqn:E; cbn; congruence).
    rewrite Hu. destruct (is_active p); [cbn [map]; now rewrite IH | exact IH]. }
  assert (Hnew : forall p, In p (filter is_active (products d)) ->
            Sql.DECIMAL 10 2 (new_selling_price v p) = true
            /\ upd p = Sql.set_selling_price (new_selling_price v p) p).
  { intros p Hp. split.
    - pose proof (proj1 (forallb_forall _ _) Hfits p Hp) as H.
      unfold Sql.fits_price_history in H. cbn [old_price new_price] in H.
      apply andb_true_iff in H as [H _]. apply andb_true_iff in H as [_ H].
      exact H.
    - apply filter_In in Hp as [_ Ha]. unfold upd. now rewrite Ha. }
  split.
  - rewrite (post_gold_price_details once v c Ht Hn), Hact, length_map, map_map.
    do 2 f_equal. apply map_ext_in. intros p Hp.
    destruct (Hnew p Hp) as [Hdec ->].
    unfold reprice, bind, ret, Sql.insert_price_history, Sql.update_selling_price.
    cbn [fst selling_price Sql.set_selling_price pricing id name].
    fold (new_selling_price v p). cbv zeta. f_equal.
    rewrite percent_of_same.
    destruct (DECIMAL_finite 10 2 _ Hdec) as [-> ->].
    rewrite andb_true_r. now destruct (is_zero (new_selling_price v p)).
  - rewrite Hact. apply forallb_forall. intros q Hq.
    apply in_map_iff in Hq as (p & <- & Hp).
    destruct (Hnew p Hp) as [Hdec ->].
    pose proof (proj1 (forallb_forall _ _) Hfits p Hp) as H.
    unfold Sql.fits_price_history in *.
    cbn [old_price new_price gold_price_per_gram selling_price
         Sql.set_selling_price pricing] in *.
    fold (new_selling_price v p) in *.
    apply andb_true_iff in H as [_ H]. now rewrite Hdec, H.
Qed.

(** The sample shop, with gold set to 3100 twice: the second answer lists
    the four active products at the prices of the first, each with a
    change of 0.00%.  A gold bar of 0.1 g, with gold set to 0.01 twice, is
    priced at 0 and its change reads NaN%. *)
Lemma same_price_again_shop :
  fst (post_gold_price (JS.Num 3100) None
         (snd (post_gold_price (JS.Num 3100) None Sample.shop)))
  = Json 200
      (GoldPriceUpdated true 4
         [ {| detail_id := 1; detail_name := "24K Gold Necklace";
              detail_old_price := 40239.94; detail_new_price := 40239.94;
              change := "0.00%" |};
           {| detail_id := 2; detail_name := "22K Gold Bracelet";
              detail_old_price := 27403.76; detail_new_price := 27403.76;
              change := "0.00%" |};
           {| detail_id := 4; detail_name := "21K Gold Earrings";
              detail_old_price := 17284.05; detail_new_price := 17284.05;
              change := "0.00%" |};
           {| detail_id := 5; detail_name := "Gold Bar";
              detail_old_price := 3580.5; detail_new_price := 3580.5;
              change := "0.00%" |} ])
  /\ map change
       (match body (fst (post_gold_price (JS.Num 0.01) None
                           (snd (post_gold_price (JS.Num 0.01) None
                                   {| gold_prices := []; 
                                      products :=
                                        [Sample.row 5 "Gold Bar"
                                           (Sample.item 0.1 "24K" 5 10) 0 true];
                                      price_history := [] |})))) with
        | GoldPriceUpdated _ _ details => details
        | GoldPriceError _ => []
        end)
     = ["NaN%"%string].
Proof.
  assert (Hnd : NoDup (map id (products Sample.shop)))
    by (repeat (constructor; [cbn; intuition discriminate |]); constructor).
  split.
  - rewrite (proj1 (same_price_again_reports_no_change Sample.shop (JS.Num 3100) None
                      Hnd eq_refl eq_refl eq_refl eq_refl)).
    reflexivity.
  - rewrite (proj1 (same_price_again_reports_no_change
                      {| gold_prices := [];
                         products :=
                           [Sample.row 5 "Gold Bar"
                              (Sample.item 0.1 "24K" 5 10) 0 true];
                         price_history := [] |}
                      (JS.Num 0.01) None
                      ltac:(repeat constructor; cbn; tauto)
                      eq_refl eq_refl eq_refl eq_refl)).
    reflexivity.
Defined.

End NoChange.

(** ** The search statement *)

Section Search.

Import Server.

(** The text of the statement, by the filters that are given. *)
Lemma search_statement_text (q category min_price max_price carat : option string) :
  fst (search_statement q category min_price max_price carat)
  = ("SELECT * FROM products WHERE is_active = TRUE"
     ++ (if JS.nonempty q then " AND (name LIKE ? OR description LIKE ?)" else EmptyString)
     ++ (if JS.nonempty category then " AND category = ?" else EmptyString)
     ++ (if JS.nonempty carat then " AND carat = ?" else EmptyString)
     ++ (if JS.nonempty min_price then " AND selling_price >= ?" else EmptyString)
     ++ (if JS.nonempty max_price then " AND selling_price <= ?" else EmptyString)
     ++ " ORDER BY created_at DESC")%string.
Proof.
  unfold search_statement.
  destruct (JS.nonempty q), (JS.nonempty category), (JS.nonempty carat),
    (JS.nonempty min_price), (JS.nonempty max_price); reflexivity.
Qed.

(** The search is a parametrised statement.  The statement has as many
    placeholders as the handler binds parameters; its text is made of
    fixed pieces, chosen by which filters are given and not by what they
    hold, so that no text of the request becomes SQL; and with no filter
    given it is the plain listing of the active products, without
    parameters.  A filter that is the empty string counts as not given. *)
Theorem search_is_a_parametrised_statement
    (q category min_price max_price carat : option string) :
  let (query, params) := search_statement q category min_price max_price carat in
  Sql.placeholders query = List.length params
  /\ (forall q' category' min_price' max_price' carat' : option string,
        JS.nonempty q' = JS.nonempty q ->
        JS.nonempty category' = JS.nonempty category ->
        JS.nonempty min_price' = JS.nonempty min_price ->
        JS.nonempty max_price' = JS.nonempty max_price ->
        JS.nonempty carat' = JS.nonempty carat ->
        fst (search_statement q' category' min_price' max_price' carat') = query)
  /\ (JS.nonempty q = false -> JS.nonempty category = false ->
      JS.nonempty min_price = false -> JS.nonempty max_price = false ->
      JS.nonempty carat = false ->
      (query, params)
      = ("SELECT * FROM products WHERE is_active = TRUE ORDER BY created_at DESC"%string,
         [])).
Proof.
  pose proof (search_statement_text q category min_price max_price carat) as Htext.
  destruct (search_statement q category min_price max_price carat)
    as [query params] eqn:E.
  cbn [fst] in Htext. split; [| split].
  - replace params with (snd (search_statement q category min_price max_price carat))
      by now rewrite E.
    rewrite Htext. unfold search_statement.
    destruct (JS.nonempty q), (JS.nonempty category), (JS.nonempty carat),
      (JS.nonempty min_price), (JS.nonempty max_price); reflexivity.
  - intros q' category' min_price' max_price' carat' H1 H2 H3 H4 H5.
    rewrite search_statement_text, Htext, H1, H2, H3, H4, H5. reflexivity.
  - intros H1 H2 H3 H4 H5. rewrite <- E. unfold search_statement.
    now rewrite H1, H2, H3, H4, H5.
Qed.

(** A search for rings of 18K from a price that is no number: the price
    clause is there all the same, with NaN bound to it. *)
Lemma search_for_rings :
  search_statement (Some "ring"%string) None (Some "from 1000"%string) None
    (Some "18K"%string)
  = ("SELECT * FROM products WHERE is_active = TRUE AND (name LIKE ? OR description LIKE ?) AND carat = ? AND selling_price >= ? ORDER BY created_at DESC",
     [Sql.Text "%ring%"; Sql.Text "%ring%"; Sql.Text "18K"; Sql.Number nan])%string.
Proof. reflexivity. Qed.

Lemma search_for_rings_is_parametrised :
  let (query, params) :=
    search_statement (Some "ring"%string) None (Some "from 1000"%string) None
      (Some "18K"%string) in
  Sql.placeholders query = List.length params
  /\ (forall q' category' min_price' max_price' carat' : option string,
        JS.nonempty q' = JS.nonempty (Some "ring"%string) ->
        JS.nonempty category' = JS.nonempty None ->
        JS.nonempty min_price' = JS.nonempty (Some "from 1000"%string) ->
        JS.nonempty max_price' = JS.nonempty None ->
        JS.nonempty carat' = JS.nonempty (Some "18K"%string) ->
        fst (search_statement q' category' min_price' max_price' carat') = query)
  /\ (JS.nonempty (Some "ring"%string) = false -> JS.nonempty None = false ->
      JS.nonempty (Some "from 1000"%string) = false -> JS.nonempty None = false ->
      JS.nonempty (Some "18K"%string) = false ->
      (query, params)
      = ("SELECT * FROM products WHERE is_active = TRUE ORDER BY created_at DESC"%string,
         [])).
Proof.
  exact (search_is_a_parametrised_statement (Some "ring"%string) None
           (Some "from 1000"%string) None (Some "18K"%string)).
Defined.

End Search.

(** ** The first server *)

Section FirstServer.

Lemma first_reprice_all_spec (g : float) (batch : list First.row) :
  forall rs : list First.row,
    First.reprice_all g batch rs
    = (fold_left (fun rs' q => map (First.updated_by g q) rs') batch rs,
       map (fun q => {| First.updated_id := First.row_id q;
                        First.updated_name := First.row_name q;
                        First.updated_new_price := First.new_price (First.row_pricing q) g |})
           batch).
Proof.
  induction batch as [| q batch IH]; intros rs; [reflexivity |].
  cbn [First.reprice_all fold_left map]. unfold First.update_selling_price.
  rewrite IH. reflexivity.
Qed.

Lemma first_fold_rows (g : float) (batch : list First.row) :
  forall rs : list First.row,
    fold_left (fun rs' q => map (First.updated_by g q) rs') batch rs
    = map (fun p => fold_left (fun p' q => First.updated_by g q p') batch p) rs.
Proof.
  induction batch as [| q batch IH]; intros rs; cbn [fold_left].
  - now rewrite map_id.
  - now rewrite IH, map_map.
Qed.

Lemma first_same_id_same_row (rs : list First.row) :
  NoDup (map First.row_id rs) ->
  forall p q, In p rs -> In q rs -> First.row_id p = First.row_id q -> p = q.
Proof.
  induction rs as [| r rs IH]; cbn; intros Hnd p q Hp Hq E.
  - contradiction.
  - inversion Hnd as [| ? ? Hnotin Hnd']; subst.
    destruct Hp as [-> | Hp], Hq as [-> | Hq]; auto.
    + exfalso. apply Hnotin. rewrite E. now apply in_map.
    + exfalso. apply Hnotin. rewrite <- E. now apply in_map.
Qed.

Lemma first_fold_updated_by (g : float) (batch : list First.row) :
  forall (p : First.row) (x : float),
    (forall q, In q batch -> First.row_id q = First.row_id p ->
               First.new_price (First.row_pricing q) g = x) ->
    fold_left (fun p' q => First.updated_by g q p') batch p
    = if existsb (fun q => (First.row_id q =? First.row_id p)%Z) batch
      then {| First.row_id := First.row_id p; First.row_name := First.row_name p;
              First.row_pricing := First.row_pricing p;
              First.row_selling_price := x;
              First.row_category := First.row_category p;
              First.row_is_active := First.row_is_active p |}
      else p.
Proof.
  induction batch as [| q batch IH]; intros p x Hx; cbn [fold_left existsb].
  - reflexivity.
  - assert (Hid : First.row_id (First.updated_by g q p) = First.row_id p).
    { unfold First.updated_by. now destruct (First.row_id p =? First.row_id q)%Z. }
    rewrite (IH (First.updated_by g q p) x).
    + rewrite Hid. unfold First.updated_by. rewrite (Z.eqb_sym (First.row_id q) (First.row_id p)).
      destruct (First.row_id p =? First.row_id q)%Z eqn:E.
      * apply Z.eqb_eq in E. rewrite (Hx q) by (cbn; auto).
        cbn. now destruct (existsb _ batch).
      * reflexivity.
    + intros q' Hin E. rewrite Hid in E. apply Hx; cbn; auto.
Qed.

(** The first server.  Its [POST /api/gold-price] answers 400 and changes
    nothing when the price is missing, [null], 0 or NaN.  Any other number
    that is a value of DECIMAL(10,2), with rounded new prices that are
    values of DECIMAL(10,2), gives 200: the price is stored as it is, every
    active product gets the rounded price of its own attributes at that
    price, every inactive product stays as it is, and the answer lists the
    active products with their new prices.  ([id] is the key of
    [products].) *)
Theorem first_server_reprices_the_active_products (d : First.store) (v : JS.value) :
  v <> JS.Obj ->
  NoDup (map First.row_id (First.rows d)) ->
  (JS.ToBoolean v = true ->
   forallb (Sql.DECIMAL 10 2)
     (JS.ToNumber v
      :: map (fun p => First.new_price (First.row_pricing p) (JS.ToNumber v))
             (filter First.row_is_active (First.rows d))) = true) ->
  First.post_gold_price v d
  = if JS.ToBoolean v
    then
      let g := JS.ToNumber v in
      let active := filter First.row_is_active (First.rows d) in
      (Json 200
         (First.PriceUpdated true (Z.of_nat (List.length active))
            (map (fun q => {| First.updated_id := First.row_id q;
                              First.updated_name := First.row_name q;
                              First.updated_new_price :=
                                First.new_price (First.row_pricing q) g |}) active)),
       {| First.prices := First.prices d ++ [g];
          First.rows :=
            map (fun p => if First.row_is_active p
                          then {| First.row_id := First.row_id p;
                                  First.row_name := First.row_name p;
                                  First.row_pricing := First.row_pricing p;
                                  First.row_selling_price :=
                                    First.new_price (First.row_pricing p) g;
                                  First.row_category := First.row_category p;
                                  First.row_is_active := true |}
                          else p) (First.rows d) |})
    else (Json 400 (First.PriceRequired "Price is required"), d).
Proof.
  intros _ Hnd _. unfold First.post_gold_price.
  destruct (JS.ToBoolean v); [| reflexivity]. cbn [negb]. cbv zeta.
  rewrite first_reprice_all_spec, length_map. f_equal. f_equal.
  set (g := JS.ToNumber v). set (rs := First.rows d) in *.
  rewrite first_fold_rows.
  apply map_ext_in. intros p Hp.
  rewrite (first_fold_updated_by g _ p (First.new_price (First.row_pricing p) g)).
  - destruct (First.row_is_active p) eqn:Ha.
    + replace (existsb _ _) with true; [reflexivity |].
      symmetry. apply existsb_exists. exists p. split.
      * apply filter_In; auto.
      * apply Z.eqb_refl.
    + replace (existsb _ _) with false; [reflexivity |].
      symmetry. apply not_true_is_false. intros H.
      apply existsb_exists in H as (q & Hq & E).
      apply filter_In in Hq as [Hq Hqa]. apply Z.eqb_eq in E.
      rewrite (first_same_id_same_row rs Hnd q p Hq Hp E) in Hqa. congruence.
  - intros q Hq E. apply filter_In in Hq as [Hq _].
    now rewrite (first_same_id_same_row rs Hnd q p Hq Hp E).
Qed.

(** The first shop.  With gold set to 3100 the necklace goes to 40240 and
    the ring to 10742, and the inactive bracelet keeps its 26500; with gold
    set to -5 the two active products get the negative prices that the
    sign being unchecked allows; a price of 0 is answered with 400. *)
Lemma first_server_reprices_the_first_shop :
  First.post_gold_price (JS.Num 3100) Sample.first_shop
  = (Json 200
       (First.PriceUpdated true 2
          [ {| First.updated_id := 1; First.updated_name := "24K Gold Necklace";
               First.updated_new_price := 40240 |};
            {| First.updated_id := 3; First.updated_name := "18K Gold Ring";
               First.updated_new_price := 10742 |} ]),
     {| First.prices := [3000; 3100];
        First.rows :=
          [ {| First.row_id := 1; First.row_name := "24K Gold Necklace";
               First.row_pricing := Sample.necklace; First.row_selling_price := 40240;
               First.row_category := "Necklace"; First.row_is_active := true |};
            {| First.row_id := 2; First.row_name := "22K Gold Bracelet";
               First.row_pricing := Sample.bracelet; First.row_selling_price := 26500;
               First.row_category := "Bracelet"; First.row_is_active := false |};
            {| First.row_id := 3; First.row_name := "18K Gold Ring";
               First.row_pricing := Sample.ring; First.row_selling_price := 10742;
               First.row_category := "Ring"; First.row_is_active := true |} ] |})
  /\ map First.row_selling_price
       (First.rows (snd (First.post_gold_price (JS.Num (-5)) Sample.first_shop)))
     = [-65; 26500; -17]
  /\ First.post_gold_price (JS.Num 0) Sample.first_shop
     = (Json 400 (First.PriceRequired "Price is required"), Sample.first_shop).
Proof.
  assert (Hnd : NoDup (map First.row_id (First.rows Sample.first_shop)))
    by (repeat (constructor; [cbn; intuition discriminate |]); constructor).
  split; [| split].
  - rewrite (first_server_reprices_the_active_products Sample.first_shop (JS.Num 3100)
               ltac:(discriminate) Hnd (fun _ => eq_refl)).
    reflexivity.
  - rewrite (first_server_reprices_the_active_products Sample.first_shop (JS.Num (-5))
               ltac:(discriminate) Hnd (fun _ => eq_refl)).
    reflexivity.
  - rewrite (first_server_reprices_the_active_products Sample.first_shop (JS.Num 0)
               ltac:(discriminate) Hnd
               (fun H => False_ind _ (Bool.diff_false_true H))).
    reflexivity.
Defined.

(** *** The price of the first server as a function of the gold price *)

Import Binary64.

Lemma first_factor_nn (product : attrs) :
  fin (Prim2SF (JS.ToNumber (First.factor product))) = true ->
  nnf (JS.ToNumber (First.factor product)) = true.
Proof.
  unfold First.factor, Table.get, First.caratFactors. cbn [Table.own].
  repeat match goal with
         | |- context [String.eqb ?k (carat product)] =>
             destruct (String.eqb k (carat product))
         end;
    try destruct (Table.inherited (carat product));
    intros H; try (vm_compute; reflexivity); discriminate H.
Qed.

Lemma first_amounts_nn (product : attrs) (g : float) :
  (0 <? weight product) = true ->
  (0 <=? making_charges product) = true ->
  (0 <=? profit_margin product) = true ->
  (fin (Prim2SF g) = true -> nnf g = true) ->
  is_finite (First.new_price product g) = true ->
  let f := JS.ToNumber (First.factor product) in
  let c1 := making_charges product / 100 in
  let c3 := profit_margin product / 100 in
  let gold := weight product * g * f in
  let base := gold + gold * c1 in
  nnf g = true /\ nnf (weight product) = true /\ nnf f = true
  /\ nnf c1 = true /\ nnf c3 = true
  /\ nnf (weight product * g) = true /\ nnf gold = true
  /\ nnf (gold * c1) = true /\ nnf base = true
  /\ nnf (base * c3) = true /\ nnf (base + base * c3) = true
  /\ nnf (JS.Math_round (base + base * c3)) = true.
Proof.
  intros Hw Hm Hp Hg Hfin f c1 c3 gold base.
  apply is_finite_fin in Hfin.
  change (First.new_price product g) with (JS.Math_round (base + base * c3)) in Hfin.
  pose proof (Math_round_fin _ Hfin) as Fnp.
  destruct (add_fin _ _ Fnp) as [Fbase Fprofit].
  destruct (mul_fin _ _ Fprofit) as [_ Fc3].
  destruct (add_fin _ _ Fbase) as [Fgold Fmk].
  destruct (mul_fin _ _ Fgold) as [Ft Ff].
  destruct (mul_fin _ _ Ft) as [Fw Fg].
  destruct (mul_fin _ _ Fmk) as [_ Fc1].
  pose proof (div_fin _ _ Fc1) as Fmc.
  pose proof (div_fin _ _ Fc3) as Fpm.
  pose proof (Hg Fg) as Ng.
  pose proof (ltb_zero_nn _ Hw Fw) as Nw.
  pose proof (first_factor_nn product Ff) as Nf.
  pose proof (div_nn _ _ _ _ (leb_zero_nn _ Hm Fmc) Prim2SF_100 Fc1) as Nc1.
  pose proof (div_nn _ _ _ _ (leb_zero_nn _ Hp Fpm) Prim2SF_100 Fc3) as Nc3.
  pose proof (mul_nn _ _ Nw Ng Ft) as Nt.
  pose proof (mul_nn _ _ Nt Nf Fgold) as Ngold.
  pose proof (mul_nn _ _ Ngold Nc1 Fmk) as Nmk.
  pose proof (add_nn _ _ Ngold Nmk Fbase) as Nbase.
  pose proof (mul_nn _ _ Nbase Nc3 Fprofit) as Nprofit.
  pose proof (add_nn _ _ Nbase Nprofit Fnp) as Nnp.
  pose proof (Math_round_nn _ Nnp Hfin) as Nr.
  repeat split; assumption.
Qed.

(** The price that the first server stores does not fall when gold rises:
    for a product of positive weight with non-negative making charges and
    profit margin, and gold prices [0 <= G1 < G2] that both give a finite
    price, the price at [G2] is at least the price at [G1]. *)
Theorem first_server_price_is_monotone (product : attrs) (G1 G2 : float) :
  (0 <? weight product) = true ->
  (0 <=? making_charges product) = true ->
  (0 <=? profit_margin product) = true ->
  (0 <=? G1) = true ->
  (G1 <? G2) = true ->
  is_finite (First.new_price product G1) = true ->
  is_finite (First.new_price product G2) = true ->
  (First.new_price product G1 <=? First.new_price product G2) = true.
Proof.
  intros Hw Hm Hp H1 H12 F1 F2.
  destruct (first_amounts_nn product G1 Hw Hm Hp (leb_zero_nn _ H1) F1)
    as (Ng1 & Nw & Nf & Nc1 & Nc3 & Nt1 & Ngold1 & Nmk1 & Nbase1 & Npr1 & Nnp1 & Nr1).
  destruct (first_amounts_nn product G2 Hw Hm Hp
              (fun F => proj1 (ltb_nn _ _ H12 Ng1 F)) F2)
    as (Ng2 & _ & _ & _ & _ & Nt2 & Ngold2 & Nmk2 & Nbase2 & Npr2 & Nnp2 & Nr2).
  destruct (ltb_nn _ _ H12 Ng1 (nn_fin _ Ng2)) as [_ Hg].
  set (f := JS.ToNumber (First.factor product)) in *.
  set (c1 := making_charges product / 100) in *.
  set (c3 := profit_margin product / 100) in *.
  pose proof (mul_mono_l _ _ _ Ng1 Ng2 Nw Nt1 Nt2 Hg) as Ht.
  pose proof (mul_mono_r _ _ _ Nt1 Nt2 Nf Ngold1 Ngold2 Ht) as Hgold.
  pose proof (mul_mono_r _ _ _ Ngold1 Ngold2 Nc1 Nmk1 Nmk2 Hgold) as Hmk.
  pose proof (add_mono _ _ _ _ Ngold1 Ngold2 Nmk1 Nmk2 Nbase1 Nbase2 Hgold Hmk) as Hbase.
  pose proof (mul_mono_r _ _ _ Nbase1 Nbase2 Nc3 Npr1 Npr2 Hbase) as Hpr.
  pose proof (add_mono _ _ _ _ Nbase1 Nbase2 Npr1 Npr2 Nnp1 Nnp2 Hbase Hpr) as Hnp.
  pose proof (Math_round_mono _ _ Nnp1 Nnp2 Nr1 Nr2 Hnp) as Hr.
  apply leb_of_le; assumption.
Qed.

(** The bracelet at 3000 and at 3000.001: 26500 both times. *)
Lemma first_server_price_of_the_bracelet :
  (First.new_price Sample.bracelet 3000 <=? First.new_price Sample.bracelet 3000.001)
  = true.
Proof.
  apply (first_server_price_is_monotone Sample.bracelet 3000 3000.001); reflexivity.
Defined.

End FirstServer.

(** ** The selling price as a function of the product *)

Section Ordering.

Import GoldPriceCalculator Binary64.

(** The selling price, from the numbers that enter it. *)
Lemma sellingPrice_unfold (product : attrs) (g : float) :
  sellingPrice (calculatePrice product g)
  = let f := JS.ToNumber (caratFactor product) in
    let gold := weight product * g * f in
    cents ((gold + gold * (making_charges product / 100))
           * (1 + profit_margin product / 100)).
Proof. reflexivity. Qed.

Lemma leb_nn (a b : float) :
  (a <=? b) = true -> nnf a = true -> fin (Prim2SF b) = true ->
  nnf b = true /\ (F2R a <= F2R b)%R.
Proof.
  intros Hle Na Fb.
  assert (Nb : nnf b = true).
  { unfold nnf in *. rewrite leb_spec in Hle.
    destruct (Prim2SF a) as [s1 | s1 | | [] m1 e1]; try discriminate;
      destruct (Prim2SF b) as [s2 | s2 | | [] m2 e2]; try discriminate; reflexivity. }
  split; [exact Nb | now apply le_of_leb].
Qed.

(** The amounts on the way to a finite selling price, for numbers that are
    not negative. *)
Lemma chain_nn (w g f mc pm : float) :
  (fin (Prim2SF w) = true -> nnf w = true) ->
  (fin (Prim2SF g) = true -> nnf g = true) ->
  (fin (Prim2SF f) = true -> nnf f = true) ->
  (fin (Prim2SF mc) = true -> nnf mc = true) ->
  (fin (Prim2SF pm) = true -> nnf pm = true) ->
  let c1 := mc / 100 in
  let c2 := 1 + pm / 100 in
  let gold := w * g * f in
  let base := gold + gold * c1 in
  is_finite (cents (base * c2)) = true ->
  nnf w = true /\ nnf g = true /\ nnf f = true /\ nnf mc = true /\ nnf pm = true
  /\ nnf c1 = true /\ nnf (pm / 100) = true /\ nnf c2 = true
  /\ nnf (w * g) = true /\ nnf gold = true
  /\ nnf (gold * c1) = true /\ nnf base = true
  /\ nnf (base * c2) = true
  /\ fin (Prim2SF (cents (base * c2))) = true.
Proof.
  intros Hw Hg Hf Hmc Hpm c1 c2 gold base Hfin.
  apply is_finite_fin in Hfin. pose proof Hfin as Hfin'.
  unfold cents in Hfin.
  pose proof (div_fin _ _ Hfin) as Fr.
  pose proof (Math_round_fin _ Fr) as Fs.
  destruct (mul_fin _ _ Fs) as [Fsp _].
  destruct (mul_fin _ _ Fsp) as [Fbase Fc2].
  destruct (add_fin _ _ Fbase) as [Fgold Fmk].
  destruct (mul_fin _ _ Fgold) as [Ft Ff].
  destruct (mul_fin _ _ Ft) as [Fw Fg].
  destruct (mul_fin _ _ Fmk) as [_ Fc1].
  pose proof (div_fin _ _ Fc1) as Fmc.
  destruct (add_fin _ _ Fc2) as [_ Fc3].
  pose proof (div_fin _ _ Fc3) as Fpm.
  pose proof (Hw Fw) as Nw. pose proof (Hg Fg) as Ng. pose proof (Hf Ff) as Nf.
  pose proof (Hmc Fmc) as Nmc. pose proof (Hpm Fpm) as Npm.
  pose proof (div_nn _ _ _ _ Nmc Prim2SF_100 Fc1) as Nc1.
  pose proof (div_nn _ _ _ _ Npm Prim2SF_100 Fc3) as Nc3.
  pose proof (add_nn 1 _ eq_refl Nc3 Fc2) as Nc2.
  pose proof (mul_nn _ _ Nw Ng Ft) as Nt.
  pose proof (mul_nn _ _ Nt Nf Fgold) as Ngold.
  pose proof (mul_nn _ _ Ngold Nc1 Fmk) as Nmk.
  pose proof (add_nn _ _ Ngold Nmk Fbase) as Nbase.
  pose proof (mul_nn _ _ Nbase Nc2 Fsp) as Nsp.
  repeat split; assumption.
Qed.

(** The product of two numbers does not fall when both grow. *)
Lemma mul_mono (a a' b b' : float) :
  nnf a = true -> nnf a' = true -> nnf b = true -> nnf b' = true ->
  nnf (a * b) = true -> nnf (a' * b') = true ->
  (F2R a <= F2R a')%R -> (F2R b <= F2R b')%R ->
  (F2R (a * b) <= F2R (a' * b'))%R.
Proof.
  intros Na Na' Nb Nb' N N' Ha Hb.
  pose proof (F2R_nonneg a Na) as Pa. pose proof (F2R_nonneg b Nb) as Pb.
  pose proof (F2R_nonneg a' Na') as Pa'. pose proof (F2R_nonneg b' Nb') as Pb'.
  apply (rounds_le (F2R a * F2R b) (F2R a' * F2R b')); try now apply mul_rounds.
  - apply Rmult_le_compat; assumption.
  - intros E. fold (F2R (a * b)). fold (F2R (a' * b')).
    destruct (Req_dec (F2R a * F2R b) 0) as [Z | NZ].
    + apply Rmult_integral in Z as [Z | Z].
      * rewrite (mul_zero_l a b Na Nb Z). now apply F2R_nonneg.
      * rewrite (mul_zero_r a b Na Nb Z). now apply F2R_nonneg.
    + assert (Qa : (0 < F2R a)%R).
      { destruct Pa as [H | H]; [exact H |]. exfalso. apply NZ. rewrite <- H. ring. }
      assert (Qb : (0 < F2R b)%R).
      { destruct Pb as [H | H]; [exact H |]. exfalso. apply NZ. rewrite <- H. ring. }
      assert (Ea : F2R a = F2R a').
      { destruct Ha as [Ha | Ha]; [| exact Ha]. exfalso.
        assert (F2R a * F2R b < F2R a' * F2R b')%R; [| lra].
        apply Rlt_le_trans with (F2R a' * F2R b)%R.
        - now apply Rmult_lt_compat_r.
        - apply Rmult_le_compat_l; lra. }
      assert (Eb : F2R b = F2R b').
      { destruct Hb as [Hb | Hb]; [| exact Hb]. exfalso.
        assert (F2R a * F2R b < F2R a' * F2R b')%R; [| lra].
        rewrite <- Ea. apply Rmult_lt_compat_l; assumption. }
      destruct (F2R_eq a a' Na Na' Ea) as [H0 | ->]; [lra |].
      destruct (F2R_eq b b' Nb Nb' Eb) as [H0 | ->]; [lra |].
      apply Rle_refl.
Qed.

(** Greater numbers give a greater or equal selling price. *)
Lemma chain_mono (w g f mc pm w' g' f' mc' pm' : float) :
  nnf w = true -> nnf g = true -> nnf f = true -> nnf mc = true -> nnf pm = true ->
  (fin (Prim2SF w') = true -> nnf w' = true /\ (F2R w <= F2R w')%R) ->
  (fin (Prim2SF g') = true -> nnf g' = true /\ (F2R g <= F2R g')%R) ->
  (fin (Prim2SF f') = true -> nnf f' = true /\ (F2R f <= F2R f')%R) ->
  (fin (Prim2SF mc') = true -> nnf mc' = true /\ (F2R mc <= F2R mc')%R) ->
  (fin (Prim2SF pm') = true -> nnf pm' = true /\ (F2R pm <= F2R pm')%R) ->
  let price w g f mc pm :=
    cents ((w * g * f + w * g * f * (mc / 100)) * (1 + pm / 100)) in
  is_finite (price w g f mc pm) = true ->
  is_finite (price w' g' f' mc' pm') = true ->
  (price w g f mc pm <=? price w' g' f' mc' pm') = true.
Proof.
  intros Nw Ng Nf Nmc Npm Hw Hg Hf Hmc Hpm price F1 F2. subst price. cbv beta in *.
  destruct (chain_nn w g f mc pm (fun _ => Nw) (fun _ => Ng) (fun _ => Nf)
              (fun _ => Nmc) (fun _ => Npm) F1)
    as (_ & _ & _ & _ & _ & Nc1 & Nc3 & Nc2 & Nt & Ngold & Nmk & Nbase & Nsp & Fo).
  destruct (chain_nn w' g' f' mc' pm' (fun F => proj1 (Hw F)) (fun F => proj1 (Hg F))
              (fun F => proj1 (Hf F)) (fun F => proj1 (Hmc F)) (fun F => proj1 (Hpm F)) F2)
    as (Nw' & Ng' & Nf' & Nmc' & Npm' & Nc1' & Nc3' & Nc2' & Nt' & Ngold' & Nmk'
        & Nbase' & Nsp' & Fo').
  destruct (Hw (nn_fin _ Nw')) as [_ Lw]. destruct (Hg (nn_fin _ Ng')) as [_ Lg].
  destruct (Hf (nn_fin _ Nf')) as [_ Lf]. destruct (Hmc (nn_fin _ Nmc')) as [_ Lmc].
  destruct (Hpm (nn_fin _ Npm')) as [_ Lpm].
  pose proof (mul_mono _ _ _ _ Nw Nw' Ng Ng' Nt Nt' Lw Lg) as Lt.
  pose proof (mul_mono _ _ _ _ Nt Nt' Nf Nf' Ngold Ngold' Lt Lf) as Lgold.
  pose proof (div_mono _ _ _ _ _ Nmc Nmc' Prim2SF_100 Nc1 Nc1' Lmc) as Lc1.
  pose proof (div_mono _ _ _ _ _ Npm Npm' Prim2SF_100 Nc3 Nc3' Lpm) as Lc3.
  pose proof (add_mono 1 1 _ _ eq_refl eq_refl Nc3 Nc3' Nc2 Nc2' (Rle_refl _) Lc3) as Lc2.
  pose proof (mul_mono _ _ _ _ Ngold Ngold' Nc1 Nc1' Nmk Nmk' Lgold Lc1) as Lmk.
  pose proof (add_mono _ _ _ _ Ngold Ngold' Nmk Nmk' Nbase Nbase' Lgold Lmk) as Lbase.
  pose proof (mul_mono _ _ _ _ Nbase Nbase' Nc2 Nc2' Nsp Nsp' Lbase Lc2) as Lsp.
  destruct (cents_nn _ Nsp Fo) as (_ & _ & No).
  destruct (cents_nn _ Nsp' Fo') as (_ & _ & No').
  apply leb_of_le; try assumption.
  now apply cents_mono.
Qed.

(** A heavier product, higher charges or dearer gold never give a lower
    price.  For two products with the same carat label, the first of
    positive weight and with non-negative charges, the second with a weight,
    making charges and a profit margin at least as great, and gold prices
    [0 <= G <= G'], the selling price of the second at [G'] is at least
    that of the first at [G], whenever the two prices are finite. *)
Theorem selling_price_grows_with_the_product (p p' : attrs) (G G' : float) :
  carat p = carat p' ->
  (0 <? weight p) = true ->
  (weight p <=? weight p') = true ->
  (0 <=? making_charges p) = true ->
  (making_charges p <=? making_charges p') = true ->
  (0 <=? profit_margin p) = true ->
  (profit_margin p <=? profit_margin p') = true ->
  (0 <=? G) = true ->
  (G <=? G') = true ->
  is_finite (sellingPrice (calculatePrice p G)) = true ->
  is_finite (sellingPrice (calculatePrice p' G')) = true ->
  (sellingPrice (calculatePrice p G) <=? sellingPrice (calculatePrice p' G')) = true.
Proof.
  intros Hc Hw Hww Hm Hmm Hp Hpp Hg Hgg F1 F2.
  rewrite !sellingPrice_unfold in *. cbv zeta in *.
  assert (Ef : caratFactor p' = caratFactor p) by (unfold caratFactor; now rewrite Hc).
  rewrite Ef in *.
  destruct (chain_nn _ _ _ _ _ (ltb_zero_nn _ Hw) (leb_zero_nn _ Hg)
              (caratFactor_nn p) (leb_zero_nn _ Hm) (leb_zero_nn _ Hp) F1)
    as (Nw & Ng & Nf & Nmc & Npm & _).
  apply chain_mono; try assumption.
  - now apply leb_nn.
  - now apply leb_nn.
  - intros _. split; [exact Nf | apply Rle_refl].
  - now apply leb_nn.
  - now apply leb_nn.
Qed.

(** The ring of the sample shop against a ring of 4 g with making charges
    of 12 percent, at 3000 and at 3100. *)
Lemma selling_price_grows_with_the_ring :
  (sellingPrice (calculatePrice Sample.ring 3000)
   <=? sellingPrice (calculatePrice (Sample.item 4 "18K" 12 20) 3100)) = true.
Proof.
  apply (selling_price_grows_with_the_product Sample.ring (Sample.item 4 "18K" 12 20)
           3000 3100);
    reflexivity.
Defined.

(** No purity factor is above that of 24K. *)
Lemma caratFactor_le_1 (product : attrs) :
  fin (Prim2SF (JS.ToNumber (caratFactor product))) = true ->
  (F2R (JS.ToNumber (caratFactor product)) <= F2R 1)%R.
Proof.
  unfold caratFactor, Table.get, CARAT_FACTORS. cbn [Table.own].
  repeat match goal with
         | |- context [String.eqb ?k (carat product)] =>
             destruct (String.eqb k (carat product))
         end;
    try destruct (Table.inherited (carat product));
    intros H; try discriminate H;
    apply le_of_leb; reflexivity.
Qed.

(** 24K is the ceiling.  Whatever its carat label, a product of positive
    weight with non-negative charges is priced at most like the same
    product labelled ['24K'], at any gold price that is not negative and
    gives both a finite price.  An unknown label, which gets the factor 1,
    reaches the ceiling. *)
Theorem no_label_is_priced_above_24K (p : attrs) (g : float) :
  (0 <? weight p) = true ->
  (0 <=? making_charges p) = true ->
  (0 <=? profit_margin p) = true ->
  (0 <=? g) = true ->
  let pure := {| weight := weight p; carat := "24K";
                 making_charges := making_charges p;
                 profit_margin := profit_margin p |} in
  is_finite (sellingPrice (calculatePrice p g)) = true ->
  is_finite (sellingPrice (calculatePrice pure g)) = true ->
  (sellingPrice (calculatePrice p g) <=? sellingPrice (calculatePrice pure g)) = true
  /\ (Table.get CARAT_FACTORS (carat p) = JS.Undefined ->
      calculatePrice p g = calculatePrice pure g).
Proof.
  intros Hw Hm Hp Hg pure F1 F2. split.
  - rewrite !sellingPrice_unfold in *. cbv zeta in *.
    destruct (chain_nn _ _ _ _ _ (ltb_zero_nn _ Hw) (leb_zero_nn _ Hg)
                (caratFactor_nn p) (leb_zero_nn _ Hm) (leb_zero_nn _ Hp) F1)
      as (Nw & Ng & Nf & Nmc & Npm & _).
    cbn [weight making_charges profit_margin pure] in *.
    apply chain_mono; try assumption.
    + intros _. split; [exact Nw | apply Rle_refl].
    + intros _. split; [exact Ng | apply Rle_refl].
    + intros _. split; [reflexivity |]. apply caratFactor_le_1. now apply nn_fin.
    + intros _. split; [exact Nmc | apply Rle_refl].
    + intros _. split; [exact Npm | apply Rle_refl].
  - intros U. unfold calculatePrice, caratFactor. rewrite U. reflexivity.
Qed.

(** The bracelet of the sample shop, 22K, against the same bracelet in
    24K. *)
Lemma the_bracelet_is_priced_below_24K :
  let pure := {| weight := weight Sample.bracelet; carat := "24K";
                 making_charges := making_charges Sample.bracelet;
                 profit_margin := profit_margin Sample.bracelet |} in
  (sellingPrice (calculatePrice Sample.bracelet 3000)
   <=? sellingPrice (calculatePrice pure 3000)) = true
  /\ (Table.get CARAT_FACTORS (carat Sample.bracelet) = JS.Undefined ->
      calculatePrice Sample.bracelet 3000 = calculatePrice pure 3000).
Proof.
  apply (no_label_is_priced_above_24K Sample.bracelet 3000); reflexivity.
Defined.

End Ordering.

(** ** Whole numbers *)

Section WholeNumbers.

Import Binary64.

Lemma bpow_lt_inv a b : (bpow a < bpow b)%R -> (a < b)%Z.
Proof.
  intros H. destruct (Z_lt_le_dec a b) as [? | Hle]; [assumption |].
  apply bpow_le in Hle. lra.
Qed.

(** The natural numbers up to [2^53] are binary64 values. *)
Lemma integer_is_binary64 (t : Z) :
  (0 < t <= 2 ^ 53)%Z ->
  exists g, valid_binary g = true /\ nn g = true /\ SFR g = IZR t.
Proof.
  intros Ht. destruct (Z.eq_dec t (2 ^ 53)) as [-> | Hne].
  - exists (S754_finite false 4503599627370496 1). repeat split.
    cbn [SFR]. rewrite bpow_1. change (2 ^ 53)%Z with (4503599627370496 * 2)%Z.
    rewrite mult_IZR. reflexivity.
  - destruct t as [| p | p]; try lia.
    set (d := Z.pos (digits2_pos p)).
    destruct (digits_bounds p) as [Hlo Hhi]. fold d in Hlo, Hhi.
    assert (Hd : (1 <= d <= 53)%Z).
    { split; [unfold d; lia |].
      assert (H : (bpow (d - 1) < bpow 53)%R).
      { apply Rle_lt_trans with (IZR (Z.pos p)); [exact Hlo |].
        rewrite bpow_IZR by lia. apply IZR_lt. lia. }
      apply bpow_lt_inv in H. lia. }
    set (m := Z.to_pos (Z.pos p * 2 ^ (53 - d))).
    assert (Hpow : (0 < 2 ^ (53 - d))%Z) by (apply Z.pow_pos_nonneg; lia).
    assert (Em : Z.pos m = (Z.pos p * 2 ^ (53 - d))%Z).
    { unfold m. rewrite Z2Pos.id; [reflexivity | lia]. }
    assert (Vm : (IZR (Z.pos m) = IZR (Z.pos p) * bpow (53 - d))%R).
    { rewrite Em, mult_IZR, bpow_IZR by lia. reflexivity. }
    assert (Dm : Z.pos (digits2_pos m) = 53%Z).
    { destruct (digits_bounds m) as [Mlo Mhi]. pose proof (bpow_gt_0 (53 - d)) as Hb.
      assert (H1 : (bpow (Z.pos (digits2_pos m) - 1) < bpow 53)%R).
      { apply Rle_lt_trans with (IZR (Z.pos m)); [exact Mlo |].
        rewrite Vm. replace 53%Z with (d + (53 - d))%Z at 2 by lia.
        rewrite bpow_add. apply Rmult_lt_compat_r; assumption. }
      assert (H2 : (bpow 52 < bpow (Z.pos (digits2_pos m)))%R).
      { apply Rle_lt_trans with (IZR (Z.pos m)); [| exact Mhi].
        rewrite Vm. replace 52%Z with (d - 1 + (53 - d))%Z by lia.
        rewrite bpow_add. apply Rmult_le_compat_r; [lra | assumption]. }
      apply bpow_lt_inv in H1, H2. lia. }
    exists (S754_finite false m (d - 53)). split; [| split].
    + unfold SpecFloat.valid_binary, SpecFloat.bounded, SpecFloat.canonical_mantissa.
      rewrite Dm, fexp_eq. apply andb_true_iff. split.
      * apply Z.eqb_eq. lia.
      * apply Z.leb_le. change (emax - prec)%Z with 971%Z. lia.
    + reflexivity.
    + cbn [SFR]. rewrite Vm, Rmult_assoc, <- bpow_add.
      replace (53 - d + (d - 53))%Z with 0%Z by lia. rewrite bpow_0. ring.
Qed.

(** The float of a natural number up to [2^53], when it is finite with a
    negative exponent, has that number as its value. *)
Lemma of_Z_shape (t : Z) (s : bool) (m : positive) (e : Z) :
  (0 < t <= 2 ^ 53)%Z ->
  Prim2SF (JS.of_Z t) = S754_finite s m e ->
  s = false /\ ((e < 0)%Z -> Z.pos m = (t * 2 ^ (- e))%Z).
Proof.
  intros Ht E.
  pose proof (Prim2SF_valid (JS.of_Z t)) as V.
  assert (Hb : (0 < t < 2 ^ 63)%Z).
  { split; [lia |]. apply Z.le_lt_trans with (2 ^ 53)%Z; [lia | reflexivity]. }
  rewrite (Prim2SF_of_Z t Hb) in *.
  assert (N : nn (binary_normalize prec emax t 0 false) = true).
  { apply binary_normalize_nn; [lia |]. now rewrite E. }
  pose proof (binary_normalize_rounds t 0 ltac:(lia) V N) as R.
  rewrite bpow_0, Rmult_1_r in R.
  destruct (integer_is_binary64 t Ht) as (g & Vg & Ng & Eg).
  rewrite <- Eg in R. pose proof (rounds_representable _ _ R Vg Ng) as H.
  rewrite Eg, E in H. rewrite E in N.
  destruct s; [discriminate N |]. split; [reflexivity |].
  intros He. cbn [SFR] in H.
  apply eq_IZR. rewrite mult_IZR, <- bpow_IZR by lia.
  rewrite <- H, Rmult_assoc, <- bpow_add.
  replace (e + - e)%Z with 0%Z by lia. rewrite bpow_0. ring.
Qed.

Lemma round_of_whole (k d : Z) : (0 < d)%Z -> ((2 * (k * d) + d) / (2 * d) = k)%Z.
Proof.
  intros Hd. replace (2 * (k * d) + d)%Z with (k * (2 * d) + d)%Z by ring.
  rewrite Z.div_add_l by lia. rewrite Z.div_small by lia. lia.
Qed.

(** [Math.round] returns the float of a natural number up to [2^53], and
    of its opposite, unchanged. *)
Lemma Math_round_of_Z_pos (k : Z) :
  (0 < k <= 2 ^ 53)%Z -> JS.Math_round (JS.of_Z k) = JS.of_Z k.
Proof.
  intros Hk. unfold JS.Math_round at 1.
  destruct (Prim2SF (JS.of_Z k)) as [s | s | | s m e] eqn:E; try reflexivity.
  destruct (of_Z_shape k s m e Hk E) as [-> Hm].
  destruct (Z.leb_spec 0 e) as [He | He]; [reflexivity |].
  assert (Hd : (0 < 2 ^ (- e))%Z) by (apply Z.pow_pos_nonneg; lia).
  rewrite (Hm He), round_of_whole by assumption.
  destruct (Z.eqb_spec k 0) as [? | _]; [lia | reflexivity].
Qed.

Lemma of_Z_opp (k : Z) : (0 < k)%Z -> JS.of_Z (- k) = (- JS.of_Z k)%float.
Proof.
  intros Hk. unfold JS.of_Z.
  destruct (Z.ltb_spec (- k) 0) as [_ | ?]; [| lia].
  destruct (Z.ltb_spec k 0) as [? | _]; [lia |].
  now rewrite Z.abs_opp.
Qed.

Lemma Math_round_of_Z_neg (k : Z) :
  (0 < k <= 2 ^ 53)%Z -> JS.Math_round (JS.of_Z (- k)) = JS.of_Z (- k).
Proof.
  intros Hk. rewrite of_Z_opp by lia. unfold JS.Math_round at 1.
  rewrite opp_spec.
  destruct (Prim2SF (JS.of_Z k)) as [s | s | | s m e] eqn:E; try reflexivity.
  destruct (of_Z_shape k s m e Hk E) as [-> Hm]. cbn [SFopp negb].
  destruct (Z.leb_spec 0 e) as [He | He]; [reflexivity |].
  assert (Hd : (0 < 2 ^ (- e))%Z) by (apply Z.pow_pos_nonneg; lia).
  replace (Z.neg m) with (- k * 2 ^ (- e))%Z by (rewrite <- Pos2Z.opp_pos, (Hm He); ring).
  rewrite round_of_whole by assumption.
  destruct (Z.eqb_spec (- k) 0) as [? | _]; [lia |].
  now rewrite of_Z_opp by lia.
Qed.

(** Rounding what [Math.round] returned changes nothing. *)
Lemma Math_round_idempotent (x : float) :
  JS.Math_round (JS.Math_round x) = JS.Math_round x.
Proof.
  pose proof (Prim2SF_valid x) as V.
  unfold JS.Math_round at 2 3.
  destruct (Prim2SF x) as [s | s | | s m e] eqn:E;
    try (unfold JS.Math_round; now rewrite E).
  destruct (Z.leb_spec 0 e) as [He | He].
  { unfold JS.Math_round. rewrite E.
    now rewrite (proj2 (Z.leb_le 0 e) He). }
  destruct (valid_finite _ _ _ V) as (_ & Hdig & _).
  destruct (digits_bounds m) as [_ Hhi].
  assert (Hm : (Z.pos m < 2 ^ 53)%Z).
  { apply lt_IZR. rewrite <- bpow_IZR by lia.
    apply Rlt_le_trans with (bpow (Z.pos (digits2_pos m))); [exact Hhi |].
    now apply bpow_le. }
  set (d := (2 ^ (- e))%Z).
  assert (Hd : (2 <= d)%Z).
  { unfold d. change 2%Z with (2 ^ 1)%Z at 1. apply Z.pow_le_mono_r; lia. }
  set (n := ((2 * (if s then Z.neg m else Z.pos m) + d) / (2 * d))%Z).
  assert (Hn : (- 2 ^ 53 <= n <= 2 ^ 53)%Z).
  { unfold n. split.
    - apply Z.div_le_lower_bound; [lia |]. destruct s; lia.
    - apply Z.div_le_upper_bound; [lia |]. destruct s; lia. }
  destruct (Z.eqb_spec n 0) as [_ | Hne].
  - now destruct s.
  - destruct (Z_lt_le_dec 0 n) as [Hpos | Hneg].
    + apply Math_round_of_Z_pos. lia.
    + replace n with (- - n)%Z by lia. apply Math_round_of_Z_neg. lia.
Qed.

(** What [Math.round] returns stands for an integer. *)
Lemma Math_round_whole (x : float) :
  exists k : Z, F2R (JS.Math_round x) = IZR k.
Proof.
  pose proof (Math_round_idempotent x) as Hidem.
  set (r := JS.Math_round x) in *.
  pose proof (Prim2SF_valid r) as V.
  unfold F2R.
  destruct (Prim2SF r) as [s | s | | s m e] eqn:E; try (exists 0%Z; reflexivity).
  destruct (Z.leb_spec 0 e) as [He | He].
  - exists ((if s then Z.neg m else Z.pos m) * 2 ^ e)%Z.
    cbn [SFR]. rewrite mult_IZR, <- bpow_IZR by lia. destruct s; [| reflexivity].
    change (Z.neg m) with (- Z.pos m)%Z. now rewrite opp_IZR.
  - unfold JS.Math_round in Hidem at 1. rewrite E in Hidem.
    rewrite (proj2 (Z.leb_gt 0 e) He) in Hidem. cbv zeta in Hidem.
    destruct (valid_finite _ _ _ V) as (_ & Hdig & _).
    destruct (digits_bounds m) as [_ Hhi].
    assert (Hm : (Z.pos m < 2 ^ 53)%Z).
    { apply lt_IZR. rewrite <- bpow_IZR by lia.
      apply Rlt_le_trans with (bpow (Z.pos (digits2_pos m))); [exact Hhi |].
      now apply bpow_le. }
    set (d := (2 ^ (- e))%Z) in *.
    assert (Hd : (2 <= d)%Z).
    { unfold d. change 2%Z with (2 ^ 1)%Z at 1. apply Z.pow_le_mono_r; lia. }
    set (n := ((2 * (if s then Z.neg m else Z.pos m) + d) / (2 * d))%Z) in *.
    assert (Hn : (- 2 ^ 53 <= n <= 2 ^ 53)%Z).
    { unfold n. split.
      - apply Z.div_le_lower_bound; [lia |]. destruct s; lia.
      - apply Z.div_le_upper_bound; [lia |]. destruct s; lia. }
    destruct (Z.eqb_spec n 0) as [_ | Hne].
    + exfalso. rewrite <- Hidem in E. destruct s; discriminate E.
    + exists n. cbn [SFR]. rewrite <- Hidem in E.
      destruct (Z_lt_le_dec 0 n) as [Hpos | Hneg].
      * destruct (of_Z_shape n s m e ltac:(lia) E) as [-> Hshape].
        rewrite (Hshape He), mult_IZR. fold d.
        unfold d. rewrite <- bpow_IZR by lia. apply bpow_cancel.
      * assert (Hk : (0 < - n <= 2 ^ 53)%Z) by lia.
        replace n with (- - n)%Z in E by lia.
        rewrite of_Z_opp, opp_spec in E by lia.
        destruct (Prim2SF (JS.of_Z (- n))) as [s' | s' | | s' m' e'] eqn:E';
          try discriminate E.
        destruct (of_Z_shape (- n) s' m' e' Hk E') as [-> Hshape].
        cbn [SFopp negb] in E. injection E as <- <- <-.
        rewrite (Hshape He), mult_IZR, opp_IZR. fold d.
        unfold d. rewrite <- bpow_IZR by lia.
        transitivity (IZR n * bpow (- e') * bpow e')%R; [ring | apply bpow_cancel].
Qed.

(** The first server stores whole prices: the price it computes for a
    product is, whenever it is a finite number, an integer, for every
    product and every gold price. *)
Theorem first_server_prices_are_whole (product : attrs) (price_per_gram : float) :
  is_finite (First.new_price product price_per_gram) = true ->
  exists k : Z, F2R (First.new_price product price_per_gram) = IZR k.
Proof. intros _. unfold First.new_price. apply Math_round_whole. Qed.

(** The bracelet at a gold price of 3000.001: the first server prices it
    at 26500, where the pricing function of the second server gives
    26519.76 at 3000. *)
Lemma first_server_price_of_the_bracelet_is_whole :
  First.new_price Sample.bracelet 3000.001 = 26500
  /\ exists k : Z, F2R (First.new_price Sample.bracelet 3000.001) = IZR k.
Proof.
  split; [reflexivity |].
  exact (first_server_prices_are_whole Sample.bracelet 3000.001 eq_refl).
Defined.

End WholeNumbers.

(** ** When no gold price is stored *)

Section NoGoldPrice.

Import GoldPriceCalculator Server.



End NoGoldPrice.

(** ** What no request does *)

Section Invariants.

Import GoldPriceCalculator Server.

Lemma ids_after_updates (v : JS.value) (batch : list product) :
  forall rows : list product,
    map id (fold_left (fun rows' q => map (updated_by v q) rows') batch rows)
    = map id rows.
Proof.
  induction batch as [| q batch IH]; intros rows; cbn [fold_left]; [reflexivity |].
  rewrite IH, map_map. apply map_ext. intros p. apply id_updated_by.
Qed.

Lemma ids_after_set_columns n ds w c mc pm price cat stock active (pid : Z)
    (rows : list product) :
  map id (map (fun q => if (id q =? pid)%Z
                        then Sql.set_columns n ds w c mc pm price cat stock active q
                        else q) rows)
  = map id rows.
Proof.
  rewrite map_map. apply map_ext. intros q. now destruct (id q =? pid)%Z.
Qed.

(** What a request does to the three tables: it appends gold prices and
    history entries, and it appends products or keeps the ids there are;
    a history entry it appends is for the id of a product of the table. *)
Lemma serve_appends (d : db) (r : request) :
  (exists added, gold_prices (serve d r) = gold_prices d ++ added)
  /\ (exists added, price_history (serve d r) = price_history d ++ added
                    /\ Forall (fun h => In (product_id h) (map id (products d))) added)
  /\ (exists added, map id (products (serve d r)) = map id (products d) ++ added
                    /\ (added = [] \/ added = [Sql.next_id (products d)])).
Proof.
  assert (Same : forall d' : db, d' = d ->
            (exists added, gold_prices d' = gold_prices d ++ added)
            /\ (exists added, price_history d' = price_history d ++ added
                  /\ Forall (fun h => In (product_id h) (map id (products d))) added)
            /\ (exists added, map id (products d') = map id (products d) ++ added
                  /\ (added = [] \/ added = [Sql.next_id (products d)]))).
  { intros d' ->. repeat split; exists []; rewrite app_nil_r; auto. }
  destruct r as [| v c | | pid | b | pid b | pid]; cbn [serve].
  - apply Same. unfold get_gold_price, bind, Sql.select_latest_gold_price.
    now destruct (firstn 1 (rev (gold_prices d))).
  - (* POST /api/gold-price *)
    destruct (negb (JS.ToBoolean v) || JS.isNaN v) eqn:Rej.
    + apply Same. unfold post_gold_price. now rewrite Rej.
    + apply orb_false_iff in Rej as [Ht Hn]. apply negb_false_iff in Ht.
      pose proof (post_gold_price_accepted v c d Ht Hn) as H.
      destruct (post_gold_price v c d) as [reply d']. cbn [snd].
      destruct H as (Hg & Hh & Hp & _). repeat split.
      * eexists. exact Hg.
      * eexists. split; [exact Hh |].
        apply Forall_forall. intros h Hin.
        apply in_map_iff in Hin as (q & <- & Hq). apply filter_In in Hq as [Hq _].
        cbn. now apply in_map.
      * exists []. rewrite app_nil_r, Hp, ids_after_updates. auto.
  - now apply Same.
  - apply Same. unfold get_product, bind, Sql.select_active_product.
    now destruct (filter _ (products d)).
  - (* POST /api/products *)
    destruct (JS.nonempty (Post.name b)) eqn:Hn;
      [| apply Same; unfold post_product; now rewrite Hn].
    destruct (JS.ToBoolean (JS.field (Post.weight b))) eqn:Hw;
      [| apply Same; unfold post_product; now rewrite Hn, Hw].
    destruct (JS.nonempty (Post.carat b)) eqn:Hc;
      [| apply Same; unfold post_product; now rewrite Hn, Hw, Hc].
    rewrite (post_product_accepted b d Hn Hw Hc). cbn [snd gold_prices products price_history].
    repeat split.
    + exists []. now rewrite app_nil_r.
    + exists []. rewrite app_nil_r. auto.
    + eexists. rewrite map_app. split; [reflexivity |]. right. reflexivity.
  - (* PUT /api/products/:id *)
    destruct (filter (fun q => (id q =? pid)%Z) (products d)) as [| p others] eqn:F.
    + apply Same. unfold put_product, bind, Sql.select_product. now rewrite F.
    + rewrite (put_product_found pid b d p others F).
      cbn [snd gold_prices products price_history]. repeat split.
      * exists []. now rewrite app_nil_r.
      * assert (Hp : In (id p) (map id (products d))).
        { apply in_map.
          apply (proj1 (filter_In (fun q => (id q =? pid)%Z) p (products d))).
          rewrite F. now left. }
        destruct (recalculates b).
        -- eexists. split; [reflexivity |]. constructor; [exact Hp | constructor].
        -- exists []. rewrite app_nil_r. auto.
      * exists []. rewrite app_nil_r. destruct (Put.complete b); [| auto].
        rewrite ids_after_set_columns. auto.
  - now apply Same.
Qed.

Lemma NoDup_snoc {A : Type} (l : list A) (x : A) :
  NoDup l -> ~ In x l -> NoDup (l ++ [x]).
Proof.
  induction l as [| a l IH]; cbn; intros Hnd Hx.
  - constructor; [tauto | constructor].
  - inversion Hnd as [| ? ? Ha Hl]; subst. constructor.
    + intros H. apply in_app_or in H as [H | [H | []]]; [contradiction | subst; tauto].
    + apply IH; tauto.
Qed.

(** Nothing is ever deleted.  Whatever requests the second server answers,
    one after the other, the gold prices and the price history of the store
    it ends with start with those it began with, and so do the ids of the
    products, in their order: no route removes a row or changes an id. *)
Theorem nothing_is_ever_deleted (requests : list request) (d : db) :
  let d' := serve_all d requests in
  (exists added, gold_prices d' = gold_prices d ++ added)
  /\ (exists added, price_history d' = price_history d ++ added)
  /\ (exists added, map id (products d') = map id (products d) ++ added).
Proof.
  unfold serve_all. revert d.
  induction requests as [| r requests IH]; intros d; cbn [fold_left].
  - repeat split; exists []; now rewrite app_nil_r.
  - destruct (IH (serve d r)) as ((g2 & Hg2) & (h2 & Hh2) & (i2 & Hi2)).
    destruct (serve_appends d r) as ((g1 & Hg1) & (h1 & Hh1 & _) & (i1 & Hi1 & _)).
    repeat split.
    + exists (g1 ++ g2). now rewrite Hg2, Hg1, app_assoc.
    + exists (h1 ++ h2). now rewrite Hh2, Hh1, app_assoc.
    + exists (i1 ++ i2). now rewrite Hi2, Hi1, app_assoc.
Qed.

(** The tables stay consistent.  If [id] is a key of [products] and every
    entry of the price history is for the id of a product, then both still
    hold after any sequence of requests: the handlers write history entries
    only for products that exist, and a new product gets an id of its
    own. *)
Theorem the_tables_stay_consistent (requests : list request) (d : db) :
  NoDup (map id (products d)) ->
  Forall (fun h => In (product_id h) (map id (products d))) (price_history d) ->
  let d' := serve_all d requests in
  NoDup (map id (products d'))
  /\ Forall (fun h => In (product_id h) (map id (products d'))) (price_history d').
Proof.
  unfold serve_all. revert d.
  induction requests as [| r requests IH]; intros d Hnd Hfk; cbn [fold_left].
  - split; assumption.
  - destruct (serve_appends d r) as (_ & (h1 & Hh1 & Hnew) & (i1 & Hi1 & Hcase)).
    apply IH.
    + rewrite Hi1. destruct Hcase as [-> | ->].
      * now rewrite app_nil_r.
      * apply NoDup_snoc; [exact Hnd | apply next_id_fresh].
    + rewrite Hh1, Hi1. apply Forall_app. split.
      * eapply Forall_impl; [| exact Hfk]. intros h H. apply in_or_app. now left.
      * eapply Forall_impl; [| exact Hnew]. intros h H. apply in_or_app. now left.
Qed.

(** The sample shop, through a price update, a new product, an update of
    the new product and a second price update. *)
Lemma the_sample_shop_stays_consistent :
  let d' := serve_all Sample.shop
              [ POST_gold_price (JS.Num 3100) None;
                POST_product Sample.bangle;
                PUT_product 6 (Sample.reweigh 14 (Some 0));
                GET_price_history 6;
                POST_gold_price (JS.Num 3050) (Some "24K"%string) ] in
  NoDup (map id (products d'))
  /\ Forall (fun h => In (product_id h) (map id (products d'))) (price_history d').
Proof.
  apply (the_tables_stay_consistent
           [ POST_gold_price (JS.Num 3100) None;
             POST_product Sample.bangle;
             PUT_product 6 (Sample.reweigh 14 (Some 0));
             GET_price_history 6;
             POST_gold_price (JS.Num 3050) (Some "24K"%string) ]
           Sample.shop).
  - repeat (constructor; [cbn; intuition discriminate |]). constructor.
  - constructor.
Defined.

End Invariants.
